(** * CuePad: the coordinate-normalisation and overlay engine of the PDF viewer

    A shallow embedding of the annotation core of script-cuepad
    (PDFViewer.tsx, BlockingPage.tsx, BlockingChart.tsx, CuePreview.tsx,
    AddBlockingDialog.tsx and the server actions entries.ts / highlights.ts),
    and the properties its design document states about it. *)

From Stdlib Require Import ZArith QArith Qabs Qminmax Qpower Qround Lqa Lia List Bool String Ascii.
From Stdlib Require Import Floats.
Import ListNotations.

Set Implicit Arguments.

(** ** JavaScript numbers

    Every coordinate in the viewer is a JavaScript [number].  The code is
    written once, over the operations it uses, and read at two instances:
    [float] (IEEE 754 binary64, what the browser computes) and [Q] (exact
    arithmetic, in which the algebraic laws of the design are stated). *)

(* String(x), as far as a pattern of digits and points can tell one text
   from another: a decimal ("0", "0.125", "400"), a mantissa with an
   exponent ("6.25e-7", "1e+21": below 1e-6 and from 1e21 on), or a word
   ("NaN", "Infinity"); a negative number prints "-" and then its
   magnitude.  The numbers kept are what parseFloat reads from the runs of
   digits in the text. *)
Inductive Unsigned (N : Type) : Type :=
| Decimal (value : N)
| Exponent (mantissa : N) (exponent : Z)
| Letters.
Arguments Decimal {N}.
Arguments Exponent {N}.
Arguments Letters {N}.

Record NumberText (N : Type) : Type := mkText {
  minus : bool;
  unsigned : Unsigned N
}.
Arguments mkText {N}.
Arguments minus {N}.
Arguments unsigned {N}.

Class JSNumber (N : Type) : Type := {
  num_of_Z : Z -> N;                 (* an integer literal *)
  num_dec : Z -> positive -> N;      (* a decimal literal n/d *)
  num_add : N -> N -> N;
  num_sub : N -> N -> N;
  num_mul : N -> N -> N;
  num_div : N -> N -> N;
  num_ltb : N -> N -> bool;          (* a < b *)
  Math_min : N -> N -> N;
  Math_max : N -> N -> N;
  truthy : N -> bool;                (* ToBoolean: false on 0 and NaN *)
  num_text : N -> NumberText N       (* String(x) *)
}.

Declare Scope js_scope.
Delimit Scope js_scope with js.
Notation "a + b" := (num_add a b) : js_scope.
Notation "a - b" := (num_sub a b) : js_scope.
Notation "a * b" := (num_mul a b) : js_scope.
Notation "a / b" := (num_div a b) : js_scope.
Notation "a <? b" := (num_ltb a b) : js_scope.

(** *** Number::toString

    The digits of a positive number are those of the shortest decimal that
    reads back as the same number, the nearest to it if there are several;
    it is printed with an exponent when its decimal exponent n (the value
    is 0.d1d2... * 10^n) is outside -6 < n <= 21. *)

Module Digits.
Local Open Scope Q_scope.

(* the n with 10^(n-1) <= v < 10^n, for v > 0 *)
Fixpoint decadeUp (fuel : nat) (v : Q) (n : Z) : Z :=
  match fuel with
  | O => n
  | S fuel' => if Qle_bool (10 ^ n) v then decadeUp fuel' v (n + 1) else n
  end.

Fixpoint decadeDown (fuel : nat) (v : Q) (n : Z) : Z :=
  match fuel with
  | O => n
  | S fuel' => if Qle_bool (10 ^ (n - 1)) v then n else decadeDown fuel' v (n - 1)
  end.

(* 10^n is above 2^n: the size of v in bits bounds the search *)
Definition decade (v : Q) : Z :=
  let fuel := S (Z.to_nat (Z.log2_up (Qnum v) + Z.log2_up (Zpos (Qden v)))) in
  if Qle_bool 1 v then decadeUp fuel v 1 else decadeDown fuel v 0.

(* an integer s with low <= s * 10^p <= high (the ends left out unless
   [closed]), the nearest to v * 10^-p *)
Definition candidate (v low high : Q) (closed : bool) (p : Z) : option Z :=
  let scale := 10 ^ (- p) in
  let lo := if closed then Qceiling (low * scale) else (Qfloor (low * scale) + 1)%Z in
  let hi := if closed then Qfloor (high * scale) else (Qceiling (high * scale) - 1)%Z in
  if (lo <=? hi)%Z
  then Some (Z.max lo (Z.min hi (Qfloor (v * scale + (1 # 2)))))
  else None.

(* the first s * 10^p between low and high, for p going down: one digit,
   two digits, ...; seventeen digits tell any two doubles apart *)
Fixpoint shortest (fuel : nat) (v low high : Q) (closed : bool) (p : Z) : Z * Z :=
  match candidate v low high closed p with
  | Some s => (s, p)
  | None =>
      match fuel with
      | O => (0%Z, p)
      | S fuel' => shortest fuel' v low high closed (p - 1)
      end
  end.

Fixpoint stripZeros (fuel : nat) (s p : Z) : Z * Z :=
  match fuel with
  | O => (s, p)
  | S fuel' =>
      if (0 <? s)%Z && (s mod 10 =? 0)%Z
      then stripZeros fuel' (s / 10)%Z (p + 1)%Z
      else (s, p)
  end.

Fixpoint countDigits (fuel : nat) (s : Z) : Z :=
  match fuel with
  | O => 0
  | S fuel' => if (s <? 10)%Z then 1 else (1 + countDigits fuel' (s / 10))%Z
  end.

(* the digits s, their number k and the decimal exponent n of the double
   m * 2^e.  The decimals that read back as it lie between the middles to
   its two neighbours, the middles included when m is even. *)
Definition shortestDecimal (m : positive) (e : Z) : Z * Z * Z :=
  let v := inject_Z (Zpos m) * 2 ^ e in
  let high := inject_Z (2 * Zpos m + 1) * 2 ^ (e - 1) in
  let low :=
    if (Zpos m =? 4503599627370496)%Z && (-1074 <? e)%Z
    then inject_Z (4 * Zpos m - 1) * 2 ^ (e - 2)
    else inject_Z (2 * Zpos m - 1) * 2 ^ (e - 1) in
  let '(s, p) := shortest 20 v low high (Z.even (Zpos m)) (decade v - 1) in
  let '(s, p) := stripZeros 20 s p in
  let k := countDigits 25 s in
  (s, k, (p + k)%Z).

(* parseFloat on a decimal: the double nearest to it, ties to even *)
Definition nearest (q : Q) : float :=
  let '(m, e, l) := SFdiv_core_binary prec emax (Qnum q) 0 (Zpos (Qden q)) 0 in
  SF2Prim (binary_round_aux prec emax false m e l).

End Digits.

(** *** binary64 *)

Module F64.
Local Open Scope float_scope.

Definition of_Z (z : Z) : float :=
  match z with
  | Z0 => 0
  | Zpos _ => PrimFloat.of_uint63 (Uint63.of_Z z)
  | Zneg p => - PrimFloat.of_uint63 (Uint63.of_Z (Zpos p))
  end.

(* The literals of the source have few digits: numerator and denominator
   are exact doubles and the correctly rounded quotient is the double the
   literal denotes. *)
Definition dec (n : Z) (d : positive) : float := of_Z n / of_Z (Zpos d).

Definition is_neg_zero (a : float) : bool := is_zero a && get_sign a.

(* Math.min / Math.max: NaN if an argument is NaN, and -0 below +0. *)
Definition min (a b : float) : float :=
  if is_nan a || is_nan b then nan
  else if a <? b then a
  else if b <? a then b
  else if is_neg_zero a then a else b.

Definition max (a b : float) : float :=
  if is_nan a || is_nan b then nan
  else if b <? a then a
  else if a <? b then b
  else if is_neg_zero a then b else a.

Definition truthy (a : float) : bool := negb (is_zero a || is_nan a).

(* A decimal reads back as the number it was printed from; of a text with
   an exponent the digits before the "e" read as the mantissa. *)
Definition unsignedText (a : float) : Unsigned float :=
  match Prim2SF a with
  | S754_zero _ => Decimal 0
  | S754_finite _ m e =>
      let '(s, k, n) := Digits.shortestDecimal m e in
      if ((-6 <? n) && (n <=? 21))%Z then Decimal a
      else Exponent (Digits.nearest (inject_Z s / 10 ^ (k - 1))%Q) (n - 1)
  | _ => Letters
  end.

Definition text (a : float) : NumberText float :=
  if a <? 0 then mkText true (unsignedText (- a)) else mkText false (unsignedText a).
End F64.

#[export] Instance float_JSNumber : JSNumber float := {
  num_of_Z := F64.of_Z;
  num_dec := F64.dec;
  num_add := PrimFloat.add;
  num_sub := PrimFloat.sub;
  num_mul := PrimFloat.mul;
  num_div := PrimFloat.div;
  num_ltb := PrimFloat.ltb;
  Math_min := F64.min;
  Math_max := F64.max;
  truthy := F64.truthy;
  num_text := F64.text
}.

(** *** exact rationals

    Division by zero is 0 in [Q]; the statements read at this instance
    divide by positive numbers only.  An exact number is printed with all
    its digits, under the same rule for the exponent. *)

Module Exact.
Definition ltb (a b : Q) : bool := negb (Qle_bool b a).
Definition truthy (a : Q) : bool := negb (Qeq_bool a 0).

Definition unsignedText (a : Q) : Unsigned Q :=
  if Qeq_bool a 0 then Decimal a
  else
    let n := Digits.decade a in
    if ((-6 <? n) && (n <=? 21))%Z then Decimal a
    else Exponent (a / 10 ^ (n - 1))%Q (n - 1).

Definition text (a : Q) : NumberText Q :=
  if ltb a 0 then mkText true (unsignedText (- a)) else mkText false (unsignedText a).
End Exact.

#[export] Instance Q_JSNumber : JSNumber Q := {
  num_of_Z := inject_Z;
  num_dec := Qmake;
  num_add := Qplus;
  num_sub := Qminus;
  num_mul := Qmult;
  num_div := Qdiv;
  num_ltb := Exact.ltb;
  Math_min := Qmin;
  Math_max := Qmax;
  truthy := Exact.truthy;
  num_text := Exact.text
}.

(** ** The value of a binary64 number

    [Prim2SF] gives the sign, mantissa and exponent of a [float]; the
    rational it denotes is what the tolerance of a round trip is measured
    on.  [located] and [rounded] describe one rounding step of the
    specification of the arithmetic (SpecFloat). *)

Module Binary64.
Local Open Scope Q_scope.

(* 2^e *)
Definition bpow (e : Z) : Q := 2 ^ e.

(* x lies in [m 2^e, (m+1) 2^e), at the place l says: on m 2^e, below, on or
   above the middle *)
Definition located (m e : Z) (l : location) (x : Q) : Prop :=
  match l with
  | loc_Exact => x == inject_Z m * bpow e
  | loc_Inexact Lt => inject_Z m * bpow e < x /\ x < (inject_Z m + (1 # 2)) * bpow e
  | loc_Inexact Eq => x == (inject_Z m + (1 # 2)) * bpow e
  | loc_Inexact Gt => (inject_Z m + (1 # 2)) * bpow e < x /\ x < (inject_Z m + 1) * bpow e
  end.

(* the exponent of the last place of a number of magnitude 2^e *)
Definition fexp64 (e : Z) : Z := Z.max (e - 53) (-1074).

(* v is the magnitude of the result r of a rounding with sign sx; an
   infinite result means v has left the range *)
Definition rounded (sx : bool) (v : Q) (r : spec_float) : Prop :=
  match r with
  | S754_zero s => s = sx /\ v == 0
  | S754_finite s m e => s = sx /\ v == inject_Z (Zpos m) * bpow e
  | S754_infinity s => s = sx /\ bpow 972 <= v
  | S754_nan => False
  end.

(* the rational a finite number denotes (0 for the others) *)
Definition SF2Q (x : spec_float) : Q :=
  match x with
  | S754_finite s m e =>
      (if s then - inject_Z (Zpos m) else inject_Z (Zpos m)) * bpow e
  | _ => 0
  end.

Definition F2Q (x : float) : Q := SF2Q (Prim2SF x).

Definition isFinite (x : float) : bool :=
  match Prim2SF x with
  | S754_zero _ | S754_finite _ _ _ => true
  | _ => false
  end.

End Binary64.

(** ** Records of lib/types.ts *)

Module SelectionBox.
Record t (N : Type) : Type := mk { x : N; y : N; width : N; height : N }.
Arguments mk {N}.
Arguments x {N}.
Arguments y {N}.
Arguments width {N}.
Arguments height {N}.
End SelectionBox.

(* lib/annotation-types.ts *)
Inductive AnnotationType : Type :=
| Blocking | MusicCue | LightingCue | SoundAudioCue | ProjectionMedia
| PropNote | CostumeNote | SetScenicNote | DirectorNote.

Definition ANNOTATION_COLORS (type : AnnotationType) : string :=
  match type with
  | Blocking => "#DAA520"
  | MusicCue => "#9C27B0"
  | LightingCue => "#FFC107"
  | SoundAudioCue => "#2196F3"
  | ProjectionMedia => "#00BCD4"
  | PropNote => "#4CAF50"
  | CostumeNote => "#E91E63"
  | SetScenicNote => "#795548"
  | DirectorNote => "#F44336"
  end%string.

Definition DEFAULT_ANNOTATION_TYPE : AnnotationType := Blocking.

Definition getAnnotationColor (type : option AnnotationType) : string :=
  ANNOTATION_COLORS (match type with Some t => t | None => DEFAULT_ANNOTATION_TYPE end).

Inductive SelectionType : Type := SelText | SelArea.

Module BlockingEntry.
Record t (N : Type) : Type := mk {
  entry_id : string;
  script_id : string;
  page_number : Z;
  index_number : Z;
  selection_type : SelectionType;
  selection_text : option string;
  selection_box : SelectionBox.t N;
  blocking_text : string;
  annotation_type : AnnotationType;
  color : string;
  created_at : string;
  updated_at : string
}.
Arguments mk {N}.
Arguments entry_id {N}.
Arguments script_id {N}.
Arguments page_number {N}.
Arguments index_number {N}.
Arguments selection_type {N}.
Arguments selection_text {N}.
Arguments selection_box {N}.
Arguments blocking_text {N}.
Arguments annotation_type {N}.
Arguments color {N}.
Arguments created_at {N}.
Arguments updated_at {N}.
End BlockingEntry.

(** [path_data] is an SVG path string, "M x y L x y ...".  The model keeps
    its tokens, the commands and the numbers between the blanks; what the
    patterns of the viewer read of a number is decided by its text,
    [num_text]. *)
Inductive PathCmd : Type := cmdM | cmdL.

Inductive PathToken (N : Type) : Type :=
| Cmd (c : PathCmd)
| Num (n : N).
Arguments Cmd {N}.
Arguments Num {N}.

(* The [d] attribute composed from it: a token copied or written by the
   replacement, or a number written in front of the exponent that the
   pattern left in place ("6250" then "e-7"). *)
Inductive SvgToken (N : Type) : Type :=
| SvgCmd (c : PathCmd)
| SvgNum (n : N)
| SvgNumExp (n : N) (exponent : Z).
Arguments SvgCmd {N}.
Arguments SvgNum {N}.
Arguments SvgNumExp {N}.

Module HighlightMark.
Record t (N : Type) : Type := mk {
  mark_id : string;
  script_id : string;
  page_number : Z;
  path_data : list (PathToken N);
  color : string;
  thickness : N;
  opacity : N;
  created_at : string
}.
Arguments mk {N}.
Arguments mark_id {N}.
Arguments script_id {N}.
Arguments page_number {N}.
Arguments path_data {N}.
Arguments color {N}.
Arguments thickness {N}.
Arguments opacity {N}.
Arguments created_at {N}.
End HighlightMark.

(** ** The repository: actions/entries.ts and actions/highlights.ts

    Two tables keyed by [entry_id] and [mark_id]; every row carries the
    [user_id] it was written with.  The actions are modelled on their
    success path: a transport or database error is not part of the model. *)

Module Repo.
Section Tables.
Variable N : Type.

Record Row (A : Type) : Type := mkRow { user_id : string; payload : A }.

Record DB : Type := mkDB {
  blocking_entries : list (Row (BlockingEntry.t N));
  highlight_marks : list (Row (HighlightMark.t N))
}.

(* upsert on the primary key: the row with that key is replaced where it
   stands, a new key is appended *)
Fixpoint upsert {A} (key : A -> string) (r : Row A) (rows : list (Row A))
  : list (Row A) :=
  match rows with
  | [] => [r]
  | r' :: rest =>
      if String.eqb (key (payload r')) (key (payload r)) then r :: rest
      else r' :: upsert key r rest
  end.

(* ORDER BY on one column, ascending: a stable insertion sort *)
Fixpoint insert_by {A} (leb : A -> A -> bool) (a : A) (l : list A) : list A :=
  match l with
  | [] => [a]
  | b :: rest => if leb a b then a :: l else b :: insert_by leb a rest
  end.

Definition order_by {A} (leb : A -> A -> bool) (l : list A) : list A :=
  fold_right (insert_by leb) [] l.

Definition saveBlockingEntry (entry : BlockingEntry.t N) (userId : string)
  (db : DB) : DB :=
  mkDB (upsert BlockingEntry.entry_id (mkRow userId entry) (blocking_entries db))
       (highlight_marks db).

Definition getEntriesForPage (scriptId : string) (pageNumber : Z)
  (userId : string) (db : DB) : list (BlockingEntry.t N) :=
  order_by (fun a b => (BlockingEntry.index_number a <=? BlockingEntry.index_number b)%Z)
    (map (@payload _)
       (filter (fun r =>
                  String.eqb (BlockingEntry.script_id (payload r)) scriptId
                  && (BlockingEntry.page_number (payload r) =? pageNumber)%Z
                  && String.eqb (user_id r) userId)
               (blocking_entries db))).

Definition deleteBlockingEntry (entryId userId : string) (db : DB) : DB :=
  mkDB (filter (fun r => negb (String.eqb (BlockingEntry.entry_id (payload r)) entryId
                               && String.eqb (user_id r) userId))
               (blocking_entries db))
       (highlight_marks db).

Definition saveHighlightMark (mark : HighlightMark.t N) (userId : string)
  (db : DB) : DB :=
  mkDB (blocking_entries db)
       (upsert HighlightMark.mark_id (mkRow userId mark) (highlight_marks db)).

Definition getHighlightsForPage (scriptId : string) (pageNumber : Z)
  (userId : string) (db : DB) : list (HighlightMark.t N) :=
  order_by (fun a b => String.leb (HighlightMark.created_at a) (HighlightMark.created_at b))
    (map (@payload _)
       (filter (fun r =>
                  String.eqb (HighlightMark.script_id (payload r)) scriptId
                  && (HighlightMark.page_number (payload r) =? pageNumber)%Z
                  && String.eqb (user_id r) userId)
               (highlight_marks db))).

Definition deleteHighlightMark (markId userId : string) (db : DB) : DB :=
  mkDB (blocking_entries db)
       (filter (fun r => negb (String.eqb (HighlightMark.mark_id (payload r)) markId
                               && String.eqb (user_id r) userId))
               (highlight_marks db)).
End Tables.
End Repo.

(** Math.sqrt has no exact rational counterpart: the handlers that reach the
    erase test are read at binary64 only. *)
Class JSMath (N : Type) : Type := {
  Math_sqrt : N -> N
}.

#[export] Instance float_JSMath : JSMath float := {
  Math_sqrt := PrimFloat.sqrt
}.

(* Math.pow(x, 2), taken to be the square rounded once *)
Definition Math_pow2 {N : Type} {JS : JSNumber N} (x : N) : N := (x * x)%js.

(** ** components/PDFViewer.tsx *)

Module PDFViewer.

Inductive HighlightMode : Type := off | draw | erase.

(* what a handler does to the outside: the server actions it awaits, in
   order, and the callback it fires *)
Inductive Effect (N : Type) : Type :=
| SaveHighlightMark (mark : HighlightMark.t N) (userId : string)
| DeleteHighlightMark (markId : string) (userId : string)
| GetHighlightsForPage (scriptId : string) (pageNumber : Z) (userId : string)
| OnClickComplete (pageNumber : Z) (selectionBox : SelectionBox.t N)
    (selectionText : option string) (selectionType : SelectionType).
Arguments SaveHighlightMark {N}.
Arguments DeleteHighlightMark {N}.
Arguments GetHighlightsForPage {N}.
Arguments OnClickComplete {N}.

(* the elements renderHighlights appends for one entry *)
Record Annotation (N : Type) : Type := mkAnnotation {
  polyline_points : list (N * N);
  polyline_stroke : string;
  polyline_stroke_width : string;
  circle_cx : N;
  circle_cy : N;
  circle_r : N;
  circle_fill : string;
  circle_stroke : string;
  text_content : Z;
  click_target : string          (* onCueCircleClick(entry.entry_id) *)
}.
Arguments mkAnnotation {N}.
Arguments polyline_points {N}.
Arguments polyline_stroke {N}.
Arguments polyline_stroke_width {N}.
Arguments circle_cx {N}.
Arguments circle_cy {N}.
Arguments circle_r {N}.
Arguments circle_fill {N}.
Arguments circle_stroke {N}.
Arguments text_content {N}.
Arguments click_target {N}.

(* the path element renderSavedHighlights appends for one mark *)
Record SvgPath (N : Type) : Type := mkSvgPath {
  d : list (SvgToken N);
  stroke : string;
  stroke_width : N;
  stroke_opacity : N
}.
Arguments mkSvgPath {N}.
Arguments d {N}.
Arguments stroke {N}.
Arguments stroke_width {N}.
Arguments stroke_opacity {N}.

Section Geometry.
Context {N : Type} {JS : JSNumber N}.
Local Open Scope js_scope.

Record Point : Type := mkPoint { px : N; py : N }.

(* The props and state of the component, and the size of the canvas that
   canvasRef holds.  The handlers are listeners of the mounted selection
   canvas, so canvasRef.current is set whenever one runs. *)
Record Viewer : Type := mkViewer {
  scriptId : string;
  currentPage : Z;
  userId : string;
  entries : list (BlockingEntry.t N);
  selectedEntryId : option string;
  canvasWidth : N;
  canvasHeight : N;
  isDrawing : bool;
  selectionStart : option Point;
  selectionEnd : option Point;
  highlightMode : HighlightMode;
  highlightColor : string;
  highlightThickness : N;
  highlightOpacity : N;
  highlights : list (HighlightMark.t N);
  currentPath : list Point;
  isDrawingHighlight : bool;
  highlightHistory : list string;
  pageRenderKey : nat
}.

(* handleMouseUp, lines 653-657: the path string of the drawn points *)
Fixpoint pathSegments (canvasWidth canvasHeight : N) (index : nat)
  (points : list Point) : list (PathToken N) :=
  match points with
  | [] => []
  | point :: rest =>
      let normalizedX := px point / canvasWidth in
      let normalizedY := py point / canvasHeight in
      Cmd (match index with O => cmdM | S _ => cmdL end)
        :: Num normalizedX :: Num normalizedY
        :: pathSegments canvasWidth canvasHeight (S index) rest
  end.

Definition pathString (canvasWidth canvasHeight : N) (currentPath : list Point)
  : list (PathToken N) :=
  pathSegments canvasWidth canvasHeight 0 currentPath.

Definition copied (tok : PathToken N) : SvgToken N :=
  match tok with
  | Cmd c => SvgCmd c
  | Num n => SvgNum n
  end.

(* renderSavedHighlights, lines 572-576: every match of
   /([ML])\s+([\d.]+)\s+([\d.]+)/g is rewritten to absolute coordinates,
   anything else is kept.  The first number has to be digits up to the next
   blank, a decimal; of the second the pattern takes the leading digits,
   all of a decimal or the mantissa of a text with an exponent. *)
Fixpoint absolutePath (canvasWidth canvasHeight : N)
  (path_data : list (PathToken N)) : list (SvgToken N) :=
  match path_data with
  | Cmd cmd :: ((Num first :: Num second :: rest) as tail) =>
      match num_text first, num_text second with
      | mkText false (Decimal x), mkText false (Decimal y) =>
          let absX := x * canvasWidth in
          let absY := y * canvasHeight in
          SvgCmd cmd :: SvgNum absX :: SvgNum absY
            :: absolutePath canvasWidth canvasHeight rest
      | mkText false (Decimal x), mkText false (Exponent y exponent) =>
          let absX := x * canvasWidth in
          let absY := y * canvasHeight in
          SvgCmd cmd :: SvgNum absX :: SvgNumExp absY exponent
            :: absolutePath canvasWidth canvasHeight rest
      | _, _ => SvgCmd cmd :: absolutePath canvasWidth canvasHeight tail
      end
  | tok :: rest => copied tok :: absolutePath canvasWidth canvasHeight rest
  | [] => []
  end.

Definition renderSavedHighlights (v : Viewer) : list (SvgPath N) :=
  map (fun mark =>
         mkSvgPath
           (absolutePath (canvasWidth v) (canvasHeight v) (HighlightMark.path_data mark))
           (HighlightMark.color mark)
           (HighlightMark.thickness mark)
           (if truthy (HighlightMark.opacity mark) then HighlightMark.opacity mark
            else num_dec 4 10))
      (highlights v).

(* the pairs of plain numbers a composed path holds after a command, in
   order *)
Fixpoint pathCoords (path : list (SvgToken N)) : list Point :=
  match path with
  | SvgCmd _ :: SvgNum x :: SvgNum y :: rest => mkPoint x y :: pathCoords rest
  | _ :: rest => pathCoords rest
  | [] => []
  end.

(* renderHighlights, lines 389-481 *)
Definition renderEntry (canvasWidth canvasHeight : N)
  (selectedEntryId : option string) (entry : BlockingEntry.t N) : Annotation N :=
  let box := BlockingEntry.selection_box entry in
  let textX := SelectionBox.x box * canvasWidth in
  let textY := SelectionBox.y box * canvasHeight in
  let textWidth := SelectionBox.width box * canvasWidth in
  let textHeight := SelectionBox.height box * canvasHeight in
  let centerX := textX + (textWidth / num_of_Z 2) in
  let pageMidline := canvasWidth / num_of_Z 2 in
  let isLeftHalf := centerX <? pageMidline in
  let lineY := textY + textHeight in
  let horizontalOffset := num_of_Z 10 in
  let lineStartX := if isLeftHalf then textX + textWidth else textX in
  let offsetX :=
    if isLeftHalf then lineStartX + horizontalOffset
    else lineStartX - horizontalOffset in
  let lineEndX := if isLeftHalf then num_of_Z 20 else canvasWidth - num_of_Z 20 in
  let annotationColor := getAnnotationColor (Some (BlockingEntry.annotation_type entry)) in
  let selected :=
    match selectedEntryId with
    | Some id => String.eqb (BlockingEntry.entry_id entry) id
    | None => false
    end in
  let circleY := lineY - num_of_Z 15 in
  mkAnnotation
    [(lineStartX, lineY); (offsetX, lineY); (lineEndX, lineY)]
    annotationColor
    (if selected then "2" else "1.5")
    lineEndX circleY (num_of_Z 12)
    annotationColor
    (if selected then "#000" else "none")
    (BlockingEntry.index_number entry)
    (BlockingEntry.entry_id entry).

Definition renderHighlights (v : Viewer) : list (Annotation N) :=
  map (renderEntry (canvasWidth v) (canvasHeight v) (selectedEntryId v))
      (filter (fun entry => (BlockingEntry.page_number entry =? currentPage v)%Z)
              (entries v)).

(* handleMouseUp, lines 696-745: the normalised lasso rectangle *)
Definition selectionBoxOf (canvasWidth canvasHeight : N)
  (selectionStart selectionEnd : Point) : SelectionBox.t N :=
  let x1 := Math_min (px selectionStart) (px selectionEnd) in
  let y1 := Math_min (py selectionStart) (py selectionEnd) in
  let x2 := Math_max (px selectionStart) (px selectionEnd) in
  let y2 := Math_max (py selectionStart) (py selectionEnd) in
  let finalX := x1 in
  let finalY := y1 in
  let finalWidth := x2 - x1 in
  let finalHeight := y2 - y1 in
  SelectionBox.mk (finalX / canvasWidth) (finalY / canvasHeight)
                  (finalWidth / canvasWidth) (finalHeight / canvasHeight).

End Geometry.

Arguments Point N : clear implicits.
Arguments Viewer N : clear implicits.

Section Handlers.
Context {N : Type} {JS : JSNumber N} {JM : JSMath N}.
Local Open Scope js_scope.

Definition Outcome : Type := (Viewer N * Repo.DB N * list (Effect N))%type.

(* handleEraseAtPoint, lines 229-243: the inner loop over the numbers of one
   path, two at a time.  A last number without a partner is compared through
   parseFloat(undefined), which is NaN: that distance is below no threshold. *)
Fixpoint nearPath (normX normY : N) (pathPoints : list N) : bool :=
  match pathPoints with
  | px :: py :: rest =>
      let distance :=
        Math_sqrt (Math_pow2 (px - normX) + Math_pow2 (py - normY)) in
      let threshold := num_dec 2 100 in
      if distance <? threshold then true else nearPath normX normY rest
  | _ => false
  end.

(* the runs of digits and points in the text of one number, each read by
   parseFloat: the sign is skipped, a mantissa and the digits of its
   exponent are two runs *)
Definition digitRuns (n : N) : list N :=
  match unsigned (num_text n) with
  | Decimal value => [value]
  | Exponent mantissa exponent => [mantissa; num_of_Z (Z.abs exponent)]
  | Letters => []
  end.

(* mark.path_data.match(/[\d.]+/g) *)
Fixpoint matchNumbers (path_data : list (PathToken N)) : list N :=
  match path_data with
  | Num n :: rest => digitRuns n ++ matchNumbers rest
  | Cmd _ :: rest => matchNumbers rest
  | [] => []
  end.

(* the outer loop, lines 224-244: the mark the handler deletes, if any *)
Fixpoint eraseTarget (normX normY : N) (highlights : list (HighlightMark.t N))
  : option (HighlightMark.t N) :=
  match highlights with
  | [] => None
  | mark :: rest =>
      if nearPath normX normY (matchNumbers (HighlightMark.path_data mark))
      then Some mark
      else eraseTarget normX normY rest
  end.

Definition setHighlights (hs : list (HighlightMark.t N)) (v : Viewer N) : Viewer N :=
  mkViewer (scriptId v) (currentPage v) (userId v) (entries v) (selectedEntryId v)
    (canvasWidth v) (canvasHeight v) (isDrawing v) (selectionStart v) (selectionEnd v)
    (highlightMode v) (highlightColor v) (highlightThickness v) (highlightOpacity v)
    hs (currentPath v) (isDrawingHighlight v) (highlightHistory v) (pageRenderKey v).

Definition setHighlightHistory (h : list string) (v : Viewer N) : Viewer N :=
  mkViewer (scriptId v) (currentPage v) (userId v) (entries v) (selectedEntryId v)
    (canvasWidth v) (canvasHeight v) (isDrawing v) (selectionStart v) (selectionEnd v)
    (highlightMode v) (highlightColor v) (highlightThickness v) (highlightOpacity v)
    (highlights v) (currentPath v) (isDrawingHighlight v) h (pageRenderKey v).

Definition setDrawingHighlight (b : bool) (path : list (Point N)) (v : Viewer N)
  : Viewer N :=
  mkViewer (scriptId v) (currentPage v) (userId v) (entries v) (selectedEntryId v)
    (canvasWidth v) (canvasHeight v) (isDrawing v) (selectionStart v) (selectionEnd v)
    (highlightMode v) (highlightColor v) (highlightThickness v) (highlightOpacity v)
    (highlights v) path b (highlightHistory v) (pageRenderKey v).

Definition setSelection (drawing : bool) (s e : option (Point N)) (v : Viewer N)
  : Viewer N :=
  mkViewer (scriptId v) (currentPage v) (userId v) (entries v) (selectedEntryId v)
    (canvasWidth v) (canvasHeight v) drawing s e
    (highlightMode v) (highlightColor v) (highlightThickness v) (highlightOpacity v)
    (highlights v) (currentPath v) (isDrawingHighlight v) (highlightHistory v)
    (pageRenderKey v).

Definition setHighlightMode (m : HighlightMode) (v : Viewer N) : Viewer N :=
  mkViewer (scriptId v) (currentPage v) (userId v) (entries v) (selectedEntryId v)
    (canvasWidth v) (canvasHeight v) (isDrawing v) (selectionStart v) (selectionEnd v)
    m (highlightColor v) (highlightThickness v) (highlightOpacity v)
    (highlights v) (currentPath v) (isDrawingHighlight v) (highlightHistory v)
    (pageRenderKey v).

(* a completed render: the canvas takes the size of the new viewport and the
   render key is incremented (renderPage, lines 316-333) *)
Definition renderCompleted (w h : N) (v : Viewer N) : Viewer N :=
  mkViewer (scriptId v) (currentPage v) (userId v) (entries v) (selectedEntryId v)
    w h (isDrawing v) (selectionStart v) (selectionEnd v)
    (highlightMode v) (highlightColor v) (highlightThickness v) (highlightOpacity v)
    (highlights v) (currentPath v) (isDrawingHighlight v) (highlightHistory v)
    (S (pageRenderKey v)).

(* the page prop changes (onPageChange in the parent) *)
Definition setCurrentPage (page : Z) (v : Viewer N) : Viewer N :=
  mkViewer (scriptId v) page (userId v) (entries v) (selectedEntryId v)
    (canvasWidth v) (canvasHeight v) (isDrawing v) (selectionStart v) (selectionEnd v)
    (highlightMode v) (highlightColor v) (highlightThickness v) (highlightOpacity v)
    (highlights v) (currentPath v) (isDrawingHighlight v) (highlightHistory v)
    (pageRenderKey v).

(* lines 199-210 *)
Definition handleUndoHighlight (v : Viewer N) (db : Repo.DB N) : Outcome :=
  match rev (highlightHistory v) with
  | [] => (v, db, [])
  | lastId :: _ =>
      let newHistory := removelast (highlightHistory v) in
      let db1 := Repo.deleteHighlightMark lastId (userId v) db in
      let updatedHighlights :=
        Repo.getHighlightsForPage (scriptId v) (currentPage v) (userId v) db1 in
      (setHighlightHistory newHistory (setHighlights updatedHighlights v),
       db1,
       [DeleteHighlightMark lastId (userId v);
        GetHighlightsForPage (scriptId v) (currentPage v) (userId v)])
  end.

(* lines 213-245 *)
Definition handleEraseAtPoint (x y : N) (v : Viewer N) (db : Repo.DB N) : Outcome :=
  let normX := x / canvasWidth v in
  let normY := y / canvasHeight v in
  match eraseTarget normX normY (highlights v) with
  | Some mark =>
      let db1 := Repo.deleteHighlightMark (HighlightMark.mark_id mark) (userId v) db in
      let updatedHighlights :=
        Repo.getHighlightsForPage (scriptId v) (currentPage v) (userId v) db1 in
      (setHighlights updatedHighlights v, db1,
       [DeleteHighlightMark (HighlightMark.mark_id mark) (userId v);
        GetHighlightsForPage (scriptId v) (currentPage v) (userId v)])
  | None => (v, db, [])
  end.

(* lines 248-258; [confirmed] is the answer to the confirm() dialog *)
Definition handleClearAllHighlights (confirmed : bool) (v : Viewer N)
  (db : Repo.DB N) : Outcome :=
  if negb confirmed then (v, db, [])
  else
    let db1 :=
      fold_left (fun acc mark =>
                   Repo.deleteHighlightMark (HighlightMark.mark_id mark) (userId v) acc)
                (highlights v) db in
    let updatedHighlights :=
      Repo.getHighlightsForPage (scriptId v) (currentPage v) (userId v) db1 in
    (setHighlightHistory [] (setHighlights updatedHighlights v), db1,
     map (fun mark => DeleteHighlightMark (HighlightMark.mark_id mark) (userId v))
         (highlights v)
     ++ [GetHighlightsForPage (scriptId v) (currentPage v) (userId v)]).

(* lines 261-268: the effect that runs when scriptId, currentPage or userId
   change *)
Definition loadHighlights (v : Viewer N) (db : Repo.DB N) : Outcome :=
  let pageHighlights :=
    Repo.getHighlightsForPage (scriptId v) (currentPage v) (userId v) db in
  (setHighlightHistory [] (setHighlights pageHighlights v), db,
   [GetHighlightsForPage (scriptId v) (currentPage v) (userId v)]).

(* lines 603-623; x and y are the pointer position relative to the canvas *)
Definition handleMouseDown (x y : N) (v : Viewer N) (db : Repo.DB N) : Outcome :=
  match highlightMode v with
  | draw => (setDrawingHighlight true [mkPoint x y] v, db, [])
  | erase => handleEraseAtPoint x y v db
  | off => (setSelection true (Some (mkPoint x y)) (Some (mkPoint x y)) v, db, [])
  end.

(* lines 626-643 *)
Definition handleMouseMove (x y : N) (buttons : Z) (v : Viewer N) (db : Repo.DB N)
  : Outcome :=
  match highlightMode v, isDrawingHighlight v with
  | draw, true =>
      (setDrawingHighlight (isDrawingHighlight v) (currentPath v ++ [mkPoint x y]) v,
       db, [])
  | mode, _ =>
      match mode, (buttons =? 1)%Z with
      | erase, true => handleEraseAtPoint x y v db
      | _, _ =>
          if isDrawing v
          then (setSelection (isDrawing v) (selectionStart v) (Some (mkPoint x y)) v,
                db, [])
          else (v, db, [])
      end
  end.

(* lines 646-765.  [markId] is the UUID generateId() draws, [now] the clock
   reading, [selectedText] what the scan of the text layer (lines 701-732)
   collects from the browser's layout of the page text. *)
Definition handleMouseUp (markId now selectedText : string) (v : Viewer N)
  (db : Repo.DB N) : Outcome :=
  if match highlightMode v with draw => true | _ => false end
     && isDrawingHighlight v && (1 <? List.length (currentPath v))%nat
  then
    let pathString := pathString (canvasWidth v) (canvasHeight v) (currentPath v) in
    let newMark :=
      HighlightMark.mk markId (scriptId v) (currentPage v) pathString
        (highlightColor v) (highlightThickness v) (highlightOpacity v) now in
    let db1 := Repo.saveHighlightMark newMark (userId v) db in
    let updatedHighlights :=
      Repo.getHighlightsForPage (scriptId v) (currentPage v) (userId v) db1 in
    (setDrawingHighlight false []
       (setHighlights updatedHighlights
          (setHighlightHistory (highlightHistory v ++ [markId]) v)),
     db1,
     [SaveHighlightMark newMark (userId v);
      GetHighlightsForPage (scriptId v) (currentPage v) (userId v)])
  else
    match isDrawing v, selectionStart v, selectionEnd v with
    | true, Some selectionStart, Some selectionEnd =>
        let selectionBox :=
          selectionBoxOf (canvasWidth v) (canvasHeight v) selectionStart selectionEnd in
        (setSelection false None None v, db,
         [OnClickComplete (currentPage v) selectionBox
            (if String.eqb selectedText "" then None else Some selectedText)
            SelText])
    | _, _, _ =>
        (setDrawingHighlight false (currentPath v)
           (setSelection false (selectionStart v) (selectionEnd v) v),
         db, [])
    end.

End Handlers.
End PDFViewer.

(** ** The marker dialogs: AddBlockingDialog.tsx, CuePreview.tsx,
    BlockingChart.tsx and their parent BlockingPage.tsx *)

(* !s.trim(): the string is empty once its white space is trimmed.  The
   white-space characters are the ASCII ones; a string is a sequence of
   bytes here. *)
Definition isWhiteSpace (c : ascii) : bool :=
  let n := nat_of_ascii c in
  ((9 <=? n) && (n <=? 13) || (n =? 32))%nat.

Fixpoint trimIsEmpty (s : string) : bool :=
  match s with
  | EmptyString => true
  | String c rest => isWhiteSpace c && trimIsEmpty rest
  end.

(* Array.prototype.includes on index numbers *)
Definition includes (l : list Z) (i : Z) : bool := existsb (Z.eqb i) l.

(* the three messages the dialogs show *)
Inductive Rejection : Type :=
| TextRequired
| IndexBelowOne
| IndexInUse (indexNumber : Z).

Module AddBlockingDialog.

Inductive Result : Type :=
| SetError (e : Rejection)
| OnSave (blockingText : string) (indexNumber : Z) (annotationType : AnnotationType).

Definition handleSave (blockingText : string) (indexNumber : Z)
  (annotationType : AnnotationType) (existingIndices : list Z) : Result :=
  if trimIsEmpty blockingText then SetError TextRequired
  else if (indexNumber <? 1)%Z then SetError IndexBelowOne
  else if includes existingIndices indexNumber then SetError (IndexInUse indexNumber)
  else OnSave blockingText indexNumber annotationType.

End AddBlockingDialog.

Module CuePreview.
Section Preview.
Variable N : Type.

Inductive Result : Type :=
| Alert (e : Rejection)
| Save (updated : BlockingEntry.t N).

(* the entry handleSave builds from the edit fields *)
Definition updatedEntry (entry : BlockingEntry.t N) (editIndex : Z)
  (editType : AnnotationType) (editText now : string) : BlockingEntry.t N :=
  BlockingEntry.mk (BlockingEntry.entry_id entry) (BlockingEntry.script_id entry)
    (BlockingEntry.page_number entry) editIndex
    (BlockingEntry.selection_type entry) (BlockingEntry.selection_text entry)
    (BlockingEntry.selection_box entry) editText editType
    (getAnnotationColor (Some editType))
    (BlockingEntry.created_at entry) now.

Definition validate (entry : BlockingEntry.t N) (editIndex : Z)
  (editType : AnnotationType) (editText now : string) (existingIndices : list Z)
  : Result :=
  if negb (editIndex =? BlockingEntry.index_number entry)%Z
     && includes existingIndices editIndex
  then Alert (IndexInUse editIndex)
  else if (editIndex <? 1)%Z then Alert IndexBelowOne
  else if trimIsEmpty editText then Alert TextRequired
  else Save (updatedEntry entry editIndex editType editText now).

(* handleSave: the checks, then saveBlockingEntry *)
Definition handleSave (entry : BlockingEntry.t N) (userId : string) (editIndex : Z)
  (editType : AnnotationType) (editText now : string) (existingIndices : list Z)
  (db : Repo.DB N) : Result * Repo.DB N :=
  match validate entry editIndex editType editText now existingIndices with
  | Alert e => (Alert e, db)
  | Save updated => (Save updated, Repo.saveBlockingEntry updated userId db)
  end.

End Preview.

Arguments Alert {N}.
Arguments Save {N}.
End CuePreview.

Module BlockingChart.
Section Chart.
Variable N : Type.

Inductive Result : Type :=
| Alert (e : Rejection)                     (* alert(...); return *)
| OnUpdateEntry (entry : BlockingEntry.t N)  (* then setEditingId(null) *)
| CloseEditor.                               (* blank text: setEditingId(null) only *)

(* array.find *)
Definition findDuplicate (entries : list (BlockingEntry.t N))
  (entry : BlockingEntry.t N) (editIndex : Z) : option (BlockingEntry.t N) :=
  find (fun e => negb (String.eqb (BlockingEntry.entry_id e) (BlockingEntry.entry_id entry))
                 && (BlockingEntry.index_number e =? editIndex)%Z)
       entries.

Definition handleSaveEdit (entries : list (BlockingEntry.t N))
  (entry : BlockingEntry.t N) (editText : string) (editIndex : Z)
  (editAnnotationType : AnnotationType) (now : string) : Result :=
  if negb (trimIsEmpty editText) then
    match
      (if negb (editIndex =? BlockingEntry.index_number entry)%Z
       then findDuplicate entries entry editIndex else None)
    with
    | Some _ => Alert (IndexInUse editIndex)
    | None =>
        OnUpdateEntry
          (BlockingEntry.mk (BlockingEntry.entry_id entry) (BlockingEntry.script_id entry)
             (BlockingEntry.page_number entry) editIndex
             (BlockingEntry.selection_type entry) (BlockingEntry.selection_text entry)
             (BlockingEntry.selection_box entry) editText editAnnotationType
             (getAnnotationColor (Some editAnnotationType))
             (BlockingEntry.created_at entry) now)
    end
  else CloseEditor.

End Chart.

Arguments Alert {N}.
Arguments OnUpdateEntry {N}.
Arguments CloseEditor {N}.
End BlockingChart.

Module BlockingPage.
Section Page.
Variable N : Type.

Record PendingSelection : Type := mkPending {
  pageNumber : Z;
  selectionBox : SelectionBox.t N;
  selectionText : option string;
  selectionType : SelectionType
}.

Record State : Type := mkState {
  script_id : string;
  user : option string;             (* user?.id *)
  currentPage : Z;
  entries : list (BlockingEntry.t N);
  pendingSelection : option PendingSelection;
  showAddDialog : bool;
  previewEntryId : option string
}.

Definition setEntries (es : list (BlockingEntry.t N)) (s : State) : State :=
  mkState (script_id s) (user s) (currentPage s) es (pendingSelection s)
    (showAddDialog s) (previewEntryId s).

Definition loadEntries (s : State) (db : Repo.DB N) : State :=
  match user s with
  | None => setEntries [] s
  | Some id => setEntries (Repo.getEntriesForPage (script_id s) (currentPage s) id db) s
  end.

Definition existingIndices (s : State) : list Z :=
  map BlockingEntry.index_number (entries s).

Definition suggestedIndex (s : State) : Z :=
  match entries s with
  | [] => 1
  | e :: es =>
      fold_left Z.max (map BlockingEntry.index_number es) (BlockingEntry.index_number e) + 1
  end%Z.

Definition handleClickComplete (selection : PendingSelection) (s : State) : State :=
  mkState (script_id s) (user s) (currentPage s) (entries s) (Some selection)
    true (previewEntryId s).

(* [entryId] is the UUID generateId() draws, [now] the clock reading *)
Definition handleSaveNewEntry (entryId now blockingText : string) (indexNumber : Z)
  (annotationType : AnnotationType) (s : State) (db : Repo.DB N)
  : State * Repo.DB N :=
  match pendingSelection s, user s with
  | Some pending, Some userId =>
      let newEntry :=
        BlockingEntry.mk entryId (script_id s) (pageNumber pending) indexNumber
          (selectionType pending) (selectionText pending) (selectionBox pending)
          blockingText annotationType (getAnnotationColor (Some annotationType))
          now now in
      let db1 := Repo.saveBlockingEntry newEntry userId db in
      (loadEntries
         (mkState (script_id s) (user s) (currentPage s) (entries s) None
            (showAddDialog s) (previewEntryId s))
         db1,
       db1)
  | _, _ => (s, db)
  end.

(* the Save button of the dialog on this page: AddBlockingDialog.handleSave
   with existingIndices, then onSave = handleSaveNewEntry and
   onOpenChange(false) *)
Definition saveNewEntry (entryId now blockingText : string) (indexNumber : Z)
  (annotationType : AnnotationType) (s : State) (db : Repo.DB N)
  : option Rejection * State * Repo.DB N :=
  match AddBlockingDialog.handleSave blockingText indexNumber annotationType
          (existingIndices s) with
  | AddBlockingDialog.SetError e => (Some e, s, db)
  | AddBlockingDialog.OnSave text index type =>
      let '(s1, db1) := handleSaveNewEntry entryId now text index type s db in
      (None,
       mkState (script_id s1) (user s1) (currentPage s1) (entries s1)
         (pendingSelection s1) false (previewEntryId s1),
       db1)
  end.

(* handleUpdateEntry: the edited entry is not written, the page reloads *)
Definition handleUpdateEntry (entry : BlockingEntry.t N) (s : State)
  (db : Repo.DB N) : State * Repo.DB N :=
  (loadEntries s db, db).

(* the Save button of a card of the chart: BlockingChart.handleSaveEdit on
   the entries of the page, then onUpdateEntry = handleUpdateEntry *)
Definition saveChartEdit (entry : BlockingEntry.t N) (editText : string)
  (editIndex : Z) (editAnnotationType : AnnotationType) (now : string)
  (s : State) (db : Repo.DB N) : BlockingChart.Result N * State * Repo.DB N :=
  let r := BlockingChart.handleSaveEdit (entries s) entry editText editIndex
             editAnnotationType now in
  match r with
  | BlockingChart.OnUpdateEntry updated =>
      let '(s1, db1) := handleUpdateEntry updated s db in (r, s1, db1)
  | _ => (r, s, db)
  end.

(* the Save button of the slide-out preview: CuePreview.handleSave with
   existingIndices, then onUpdate = handlePreviewUpdate = loadEntries *)
Definition savePreviewEdit (entry : BlockingEntry.t N) (userId : string)
  (editIndex : Z) (editType : AnnotationType) (editText now : string)
  (s : State) (db : Repo.DB N) : CuePreview.Result N * State * Repo.DB N :=
  let '(r, db1) := CuePreview.handleSave entry userId editIndex editType editText
                     now (existingIndices s) db in
  match r with
  | CuePreview.Save _ => (r, loadEntries s db1, db1)
  | CuePreview.Alert _ => (r, s, db1)
  end.

End Page.
End BlockingPage.

(** ** The render pipeline of PDFViewer.tsx (renderPage and the overlay effect)

    [renderPage] is asynchronous: it suspends at [await pdfDoc.getPage] and at
    [await renderTaskRef.current.promise].  The pieces between two suspension
    points run without interruption; the scheduler below takes one such piece
    per event.  A pdf.js render task settles once: a task cancelled while it
    runs rejects with RenderingCancelledException. *)

Module Render.
Section Scheduler.
Variable Dims : Type.        (* the pixel size of a viewport *)

Inductive TaskStatus : Type := Running | Cancelled | Settled.

(* what can be observed of the pipeline *)
Inductive Obs : Type :=
| CanvasResized (task : nat) (viewport : Dims)  (* lines 316-327 *)
| RenderComplete (task : nat)                   (* line 333: the render key + 1 *)
| Repaint (canvas : Dims).                      (* lines 794-795 *)

Inductive Event : Type :=
| RenderPage (viewport : Dims)  (* the effect of lines 785-789 calls renderPage *)
| PageLoaded (call : nat)       (* getPage resolves for a suspended call *)
| TaskSettles (task : nat) (ok : bool)
                                (* the promise of a render task settles; [ok]
                                   tells whether pdf.js painted without error *)
| OverlayDepsChange.            (* entries, selectedEntryId, highlights or a
                                   callback of the overlay effect changes *)

Record State : Type := mkState {
  renderTaskRef : option nat;
  canvas : Dims;
  pageRenderKey : nat;
  tasks : list TaskStatus;      (* the render tasks created so far, by number *)
  suspended : list Dims;        (* calls waiting for getPage, with their viewport *)
  trace : list Obs
}.

Fixpoint setStatus (task : nat) (st : TaskStatus) (l : list TaskStatus)
  : list TaskStatus :=
  match l, task with
  | [], _ => []
  | _ :: rest, O => st :: rest
  | s :: rest, S n => s :: setStatus n st rest
  end.

Fixpoint removeNth {A} (n : nat) (l : list A) : list A :=
  match l, n with
  | [], _ => []
  | _ :: rest, O => rest
  | a :: rest, S m => a :: removeNth m rest
  end.

(* RenderTask.cancel(): nothing happens to a task that has settled *)
Definition cancel (task : nat) (l : list TaskStatus) : list TaskStatus :=
  match nth_error l task with
  | Some Running => setStatus task Cancelled l
  | _ => l
  end.

Definition step (e : Event) (s : State) : State :=
  match e with
  | RenderPage viewport =>
      (* lines 302-307 *)
      mkState None (canvas s) (pageRenderKey s)
        (match renderTaskRef s with
         | Some t => cancel t (tasks s)
         | None => tasks s
         end)
        (suspended s ++ [viewport]) (trace s)
  | PageLoaded call =>
      (* lines 309-330 *)
      match nth_error (suspended s) call with
      | None => s
      | Some viewport =>
          let task := List.length (tasks s) in
          mkState (Some task) viewport (pageRenderKey s)
            (tasks s ++ [Running]) (removeNth call (suspended s))
            (trace s ++ [CanvasResized task viewport])
      end
  | TaskSettles task ok =>
      match nth_error (tasks s) task with
      | Some Running =>
          if ok then
            (* lines 331-333, and the overlay effect that the new key runs *)
            mkState None (canvas s) (S (pageRenderKey s))
              (setStatus task Settled (tasks s)) (suspended s)
              (trace s ++ [RenderComplete task; Repaint (canvas s)])
          else
            (* lines 334-338: the error is logged *)
            mkState (renderTaskRef s) (canvas s) (pageRenderKey s)
              (setStatus task Settled (tasks s)) (suspended s) (trace s)
      | Some Cancelled =>
          (* lines 334-338: RenderingCancelledException is swallowed *)
          mkState (renderTaskRef s) (canvas s) (pageRenderKey s)
            (setStatus task Settled (tasks s)) (suspended s) (trace s)
      | _ => s
      end
  | OverlayDepsChange =>
      (* lines 792-797 *)
      if (0 <? pageRenderKey s)%nat
      then mkState (renderTaskRef s) (canvas s) (pageRenderKey s) (tasks s)
             (suspended s) (trace s ++ [Repaint (canvas s)])
      else s
  end.

Definition run (events : list Event) (s : State) : State :=
  fold_left (fun acc e => step e acc) events s.

(* the component as mounted: nothing rendered yet *)
Definition initial (canvas0 : Dims) : State :=
  mkState None canvas0 0 [] [] [].

(* A trace in which the overlay is never painted on a canvas whose render
   has not signalled: after the canvas is resized for a task, no repaint
   until that task's RenderComplete. *)
Fixpoint repaintsFollowSignal (awaiting : option nat) (obs : list Obs) : bool :=
  match obs with
  | [] => true
  | CanvasResized task _ :: rest => repaintsFollowSignal (Some task) rest
  | RenderComplete task :: rest =>
      match awaiting with
      | Some t => repaintsFollowSignal (if (t =? task)%nat then None else awaiting) rest
      | None => repaintsFollowSignal None rest
      end
  | Repaint _ :: rest =>
      match awaiting with
      | Some _ => false
      | None => repaintsFollowSignal None rest
      end
  end.

End Scheduler.

Arguments CanvasResized {Dims}.
Arguments RenderComplete {Dims}.
Arguments Repaint {Dims}.
Arguments RenderPage {Dims}.
Arguments PageLoaded {Dims}.
Arguments TaskSettles {Dims}.
Arguments OverlayDepsChange {Dims}.
End Render.

(** ** Vocabulary of the statements *)

Module Stated.
Import PDFViewer.

(* the text handed to onClickComplete: selectedText || null *)
Definition textOrNull (selectedText : string) : option string :=
  if String.eqb selectedText "" then None else Some selectedText.

(* the width or the height of a rendered canvas: positive, and at most 2^32
   (HTMLCanvasElement.width is an unsigned long) *)
Definition surfaceDimension (w : float) : Prop :=
  (0 <? w)%float = true /\ (w <=? 4294967296)%float = true.

(* the pointer position p, in pixels, lies on the w x h canvas *)
Definition onSurface (w h : float) (p : Point float) : Prop :=
  ((0 <=? px p)%float = true /\ (px p <=? w)%float = true)
  /\ ((0 <=? py p)%float = true /\ (py p <=? h)%float = true).

(* q is a finite point and its coordinates are those of p up to eps *)
Definition backWithin (eps : Q) (p q : Point float) : Prop :=
  (Binary64.isFinite (px q) = true
   /\ Qabs (Binary64.F2Q (px q) - Binary64.F2Q (px p)) <= eps)%Q
  /\ (Binary64.isFinite (py q) = true
      /\ Qabs (Binary64.F2Q (py q) - Binary64.F2Q (py p)) <= eps)%Q.

(* a stroke that starts 2^-11 px from the left edge of the canvas *)
Definition edgeStroke : list (Point float) :=
  [mkPoint 0.00048828125%float 100%float; mkPoint 200%float 200%float].

(* q is p up to eps on each axis *)
Definition within (eps : Q) (p q : Point Q) : Prop :=
  (Qabs (px q - px p) <= eps /\ Qabs (py q - py p) <= eps)%Q.

(* p lies on a surface of width w and height h *)
Definition inSurface (w h : Q) (p : Point Q) : Prop :=
  ((0 <= px p <= w) /\ (0 <= py p <= h))%Q.

(* a viewer with nothing drawn, on page 1 after a first render *)
Definition drawingViewer (w h : float) (mode : HighlightMode) : Viewer float :=
  mkViewer "script" 1 "user" [] None w h false None None mode
    "#FFF59D" 12%float 0.5%float [] [] false [] 1.

(* the points renderHighlights places for an entry: the three points of the
   connector, then the centre of the badge *)
Definition placed {N} (a : Annotation N) : list (N * N) :=
  polyline_points a ++ [(circle_cx a, circle_cy a)].

(* the image of a point under the scale transform (w2/w1, h2/h1) *)
Definition scaled (w1 h1 w2 h2 : Q) (p : Q * Q) : Q * Q :=
  (fst p * (w2 / w1), snd p * (h2 / h1))%Q.

Definition samePoint (p q : Q * Q) : Prop :=
  (fst p == fst q /\ snd p == snd q)%Q.

(* C3 as stated, at one entry and two canvas sizes: every placed point at
   the second size is the scaled image of the point at the first size *)
Definition zoomInvariantAt (entry : BlockingEntry.t Q) (w1 h1 w2 h2 : Q) : Prop :=
  Forall2 samePoint
    (map (scaled w1 h1 w2 h2) (placed (renderEntry w1 h1 None entry)))
    (placed (renderEntry w2 h2 None entry)).

(* C4 as stated, on the direction of the 10px offset: the middle point of
   the connector lies on the side of its first point where the margin end is *)
Definition offsetTowardsMargin (a : Annotation Q) : Prop :=
  match polyline_points a with
  | [(startX, _); (offsetX, _); (endX, _)] =>
      ((endX < startX -> offsetX < startX) /\ (startX < endX -> startX < offsetX))%Q
  | _ => False
  end.

(* an entry whose anchor is the unit rectangle (x, y, width, height) *)
Definition entryAt {N} (id : string) (page index : Z) (x y width height : N)
  : BlockingEntry.t N :=
  BlockingEntry.mk id "script" page index SelText None
    (SelectionBox.mk x y width height) "cue" Blocking "#DAA520"
    "2026-01-01T00:00:00.000Z" "2026-01-01T00:00:00.000Z".

(* marker 1 of page 1, anchored at (0.1, 0.1, 0.1, 0.1) *)
Definition leftMarker : BlockingEntry.t Q :=
  entryAt "e1" 1 1 (1 # 10) (1 # 10) (1 # 10) (1 # 10).

(* a viewer showing page 1 with the given markers *)
Definition markerViewer {N} {JS : JSNumber N} (w h : N)
  (markers : list (BlockingEntry.t N)) : Viewer N :=
  mkViewer "script" 1 "user" markers None w h false None None off
    "#FFF59D" (num_of_Z 12) (num_dec 1 2) [] [] false [] 1.

(* the distance test of handleEraseAtPoint at one stored point *)
Definition nearPoint {N} {JS : JSNumber N} {JM : JSMath N} (normX normY : N)
  (p : Point N) : bool :=
  (Math_sqrt (Math_pow2 (px p - normX) + Math_pow2 (py p - normY))
   <? num_dec 2 100)%js.

(* the numbers of a path taken two at a time, as the inner loop of
   handleEraseAtPoint takes them *)
Fixpoint pairs {N} (numbers : list N) : list (Point N) :=
  match numbers with
  | x :: y :: rest => mkPoint x y :: pairs rest
  | _ => []
  end.

(* the points handleEraseAtPoint reads from a stroke *)
Definition readPoints {N} {JS : JSNumber N} (mark : HighlightMark.t N)
  : list (Point N) :=
  pairs (matchNumbers (HighlightMark.path_data mark)).

(* the text of x is a decimal, which reads back as x *)
Definition printsDecimal {N} {JS : JSNumber N} (x : N) : Prop :=
  num_text x = mkText false (Decimal x).

(* both coordinates of the point, normalised on a w x h canvas, are stored
   as decimals *)
Definition storedAsDecimals {N} {JS : JSNumber N} (w h : N) (p : Point N) : Prop :=
  printsDecimal (px p / w)%js /\ printsDecimal (py p / h)%js.

(* some point read from the mark passes the distance test *)
Definition nearMark {N} {JS : JSNumber N} {JM : JSMath N} (normX normY : N)
  (mark : HighlightMark.t N) : bool :=
  nearPath normX normY (matchNumbers (HighlightMark.path_data mark)).

(* the ids of the marks a handler asked the repository to delete, in order *)
Fixpoint deletions {N} (effects : list (Effect N)) : list string :=
  match effects with
  | [] => []
  | DeleteHighlightMark markId _ :: rest => markId :: deletions rest
  | _ :: rest => deletions rest
  end.

(* a stroke drawn on an 800 x 1000 canvas through the given screen points *)
Definition strokeThrough (id : string) (points : list (Point float))
  : HighlightMark.t float :=
  HighlightMark.mk id "script" 1 (pathString 800%float 1000%float points)
    "#FFF59D" 12%float 0.5%float "2026-01-01T00:00:00.000Z".

(* the diagonal of the unit square, stored with a point every tenth *)
Definition diagonalSampled : HighlightMark.t float :=
  strokeThrough "diagonal"
    (map (fun k => mkPoint (F64.of_Z (80 * k)) (F64.of_Z (100 * k)))
         [0; 1; 2; 3; 4; 5; 6; 7; 8; 9; 10]%Z).

(* the same line, stored as its two end points *)
Definition diagonalEnds : HighlightMark.t float :=
  strokeThrough "ends" [mkPoint 0%float 0%float; mkPoint 800%float 1000%float].

(* a viewer in erase mode showing the given strokes, and the repository
   that holds them *)
Definition eraseViewer (marks : list (HighlightMark.t float)) : Viewer float :=
  mkViewer "script" 1 "user" [] None 800%float 1000%float false None None erase
    "#FFF59D" 12%float 0.5%float marks [] false [] 1.

Definition storeOf (marks : list (HighlightMark.t float)) : Repo.DB float :=
  Repo.mkDB [] (map (Repo.mkRow "user") marks).

(* the stroke an erase hit at screen point (x, y) deletes *)
Definition deletedBy (x y : float) (marks : list (HighlightMark.t float))
  : list string :=
  deletions (snd (handleEraseAtPoint x y (eraseViewer marks) (storeOf marks))).

(* the stored points of a stroke form a straight line from (0,0) to (1,1) *)
Definition straightDiagonal (mark : HighlightMark.t float) : Prop :=
  let points := readPoints mark in
  hd_error points = Some (mkPoint 0%float 0%float)
  /\ last points (mkPoint 0%float 0%float) = mkPoint 1%float 1%float
  /\ Forall (fun p => px p = py p) points.

(* C6 as stated, at one stroke: a hit at (0.5, 0.5) deletes it, a hit at
   (0.9, 0.1) does not *)
Definition eraseProximityAt (mark : HighlightMark.t float) : Prop :=
  straightDiagonal mark ->
  deletedBy 400%float 500%float [mark] = [HighlightMark.mark_id mark]
  /\ deletedBy 720%float 100%float [mark] = [].

(* press, move, release: one stroke drawn in draw mode *)
Definition drawStroke {N} {JS : JSNumber N} {JM : JSMath N}
  (markId now : string) (p q : Point N) (v : Viewer N) (db : Repo.DB N)
  : Viewer N * Repo.DB N :=
  let '(v1, db1, _) := handleMouseDown (px p) (py p) v db in
  let '(v2, db2, _) := handleMouseMove (px q) (py q) 1 v1 db1 in
  let '(v3, db3, _) := handleMouseUp markId now "" v2 db2 in
  (v3, db3).

(* erase mode with the sampled diagonal on the page and on top of the undo
   history *)
Definition diagonalDrawn : Viewer float :=
  mkViewer "script" 1 "user" [] None 800%float 1000%float false None None erase
    "#FFF59D" 12%float 0.5%float [diagonalSampled] [] false ["diagonal"%string] 1.

(* a render task that no longer runs *)
Definition stopped {Dims} (s : Render.State Dims) (task : nat) : Prop :=
  nth_error (Render.tasks s) task = Some Render.Cancelled
  \/ nth_error (Render.tasks s) task = Some Render.Settled.

(* C9 as stated, for one schedule of the pipeline from the mounted
   component (a canvas has the default size 300 x 150): no overlay repaint
   between the resize of the canvas for a render and that render's signal *)
Definition repaintOnlyAfterSignal (events : list (Render.Event (Z * Z))) : Prop :=
  Render.repaintsFollowSignal None
    (Render.trace (Render.run events (Render.initial (300, 150)%Z))) = true.

(* a first render at 800 x 1000 completes; a second one at 1600 x 2000 has
   resized the canvas and is still painting when the selection changes *)
Definition selectionChangesMidRender : list (Render.Event (Z * Z)) :=
  [Render.RenderPage (800, 1000)%Z; Render.PageLoaded 0; Render.TaskSettles 0 true;
   Render.RenderPage (1600, 2000)%Z; Render.PageLoaded 0;
   Render.OverlayDepsChange].

(* page 2 of a script holds marker 1; the user looks at the given page *)
Definition markerOnPageTwo : BlockingEntry.t Q :=
  entryAt "e1" 2 1 (1 # 10) (1 # 10) (1 # 10) (1 # 10).

Definition storeWithMarker : Repo.DB Q :=
  Repo.mkDB [Repo.mkRow "user" markerOnPageTwo] [].

Definition pageState (page : Z) : BlockingPage.State Q :=
  BlockingPage.loadEntries
    (BlockingPage.mkState "script" (Some "user"%string) page []
       (Some (BlockingPage.mkPending page
                (SelectionBox.mk (1 # 2) (1 # 2) (1 # 10) (1 # 10)) None SelText))
       true None)
    storeWithMarker.

End Stated.

(** * The rest of the viewer and of the pages around it *)

From Stdlib Require Import Sorted Permutation.

(** ** PDFViewer.tsx: the zoom level (lines 109-164 and 984-1015) *)

Module Zoom.
Section Handlers.
Context {N : Type} {JS : JSNumber N}.
Local Open Scope js_scope.

(* useState: 1.5 unless localStorage holds a level *)
Definition defaultZoom : N := num_dec 15 10.

(* setZoomLevel(prev => Math.min(prev + 0.25, 3.0)) *)
Definition handleZoomIn (prev : N) : N :=
  Math_min (prev + num_dec 25 100) (num_of_Z 3).

(* setZoomLevel(prev => Math.max(prev - 0.25, 0.5)) *)
Definition handleZoomOut (prev : N) : N :=
  Math_max (prev - num_dec 25 100) (num_dec 5 10).

Definition handleZoomReset (prev : N) : N := num_dec 15 10.

(* handleKeyDown, lines 147-160: the new level, and whether
   e.preventDefault() was called *)
Definition handleKeyDown (ctrlKey metaKey : bool) (key : string) (zoomLevel : N)
  : N * bool :=
  if ctrlKey || metaKey then
    if String.eqb key "=" || String.eqb key "+" then (handleZoomIn zoomLevel, true)
    else if String.eqb key "-" then (handleZoomOut zoomLevel, true)
    else if String.eqb key "0" then (handleZoomReset zoomLevel, true)
    else (zoomLevel, false)
  else (zoomLevel, false).

End Handlers.

(* what the user can do to the level: the three buttons of the zoom row (a
   disabled button takes no click) and a key press *)
Inductive Event : Type :=
| ClickZoomOut
| ClickZoomIn
| ClickReset
| KeyDown (ctrlKey metaKey : bool) (key : string).

Definition step (e : Event) (zoomLevel : float) : float :=
  match e with
  | ClickZoomOut =>
      (* disabled={zoomLevel <= 0.5} *)
      if (zoomLevel <=? 0.5)%float then zoomLevel else handleZoomOut zoomLevel
  | ClickZoomIn =>
      (* disabled={zoomLevel >= 3.0} *)
      if (3 <=? zoomLevel)%float then zoomLevel else handleZoomIn zoomLevel
  | ClickReset => handleZoomReset zoomLevel
  | KeyDown ctrlKey metaKey key => fst (handleKeyDown ctrlKey metaKey key zoomLevel)
  end.

Definition run (events : list Event) (zoomLevel : float) : float :=
  fold_left (fun z e => step e z) events zoomLevel.

(* the levels between 50% and 300% of the page, a quarter apart *)
Definition levels : list float :=
  [0.5; 0.75; 1; 1.25; 1.5; 1.75; 2; 2.25; 2.5; 2.75; 3]%float.

End Zoom.

(** ** BlockingPage.tsx: the splitter between the cue panel and the viewer
    (lines 42 and 80-89) *)

Module Splitter.
Section Handlers.
Context {N : Type} {JS : JSNumber N}.
Local Open Scope js_scope.

(* the percentage the pointer position asks for *)
Definition newWidth (clientX left width : N) : N :=
  ((clientX - left) / width) * num_of_Z 100.

(* handleMouseMove: [left] and [width] are those of the bounding rectangle
   of the container; the result is the panel width in percent *)
Definition handleMouseMove (isDragging : bool) (clientX left width : N)
  (panelWidth : N) : N :=
  if negb isDragging then panelWidth
  else
    let constrainedWidth :=
      Math_min (Math_max (newWidth clientX left width) (num_of_Z 20)) (num_of_Z 60) in
    constrainedWidth.

End Handlers.
End Splitter.

(** ** PDFViewer.tsx: page navigation (lines 785-841) *)

Module Navigation.

Definition canGoPrev (currentPage : Z) : bool := (1 <? currentPage)%Z.
Definition canGoNext (currentPage totalPages : Z) : bool := (currentPage <? totalPages)%Z.

(* the pages the select offers: Array.from({ length: totalPages }, (_, i) => i + 1) *)
Definition pageOptions (totalPages : Z) : list Z :=
  map (fun i => Z.of_nat i + 1)%Z (seq 0 (Z.to_nat totalPages)).

Inductive Event : Type :=
| ClickPrev
| ClickNext
| SelectOption (option : nat).      (* the option chosen, by position *)

(* onPageChange = setCurrentPage of BlockingPage; a disabled button takes no
   click, and the select has the options of [pageOptions] only *)
Definition step (totalPages : Z) (e : Event) (currentPage : Z) : Z :=
  match e with
  | ClickPrev => if canGoPrev currentPage then currentPage - 1 else currentPage
  | ClickNext => if canGoNext currentPage totalPages then currentPage + 1 else currentPage
  | SelectOption option =>
      match nth_error (pageOptions totalPages) option with
      | Some page => page
      | None => currentPage
      end
  end%Z.

Definition run (totalPages : Z) (events : list Event) (currentPage : Z) : Z :=
  fold_left (fun page e => step totalPages e page) events currentPage.

(* the guard of the effect that calls renderPage, lines 785-789 *)
Definition rendersPage (currentPage totalPages : Z) : bool :=
  ((1 <=? currentPage) && (currentPage <=? totalPages))%Z.

End Navigation.

(** ** lib/highlight-presets.ts, and the preset the viewer starts with
    (PDFViewer.tsx, lines 75-90 and 167-175) *)

(* window.localStorage: the binding set last is the one read *)
Module LocalStorage.
Definition t : Type := list (string * string).

Fixpoint getItem (key : string) (storage : t) : option string :=
  match storage with
  | [] => None
  | (k, value) :: rest => if String.eqb k key then Some value else getItem key rest
  end.

Definition setItem (key value : string) (storage : t) : t := (key, value) :: storage.
End LocalStorage.

Module Presets.
Section Presets.
Context {N : Type} {JS : JSNumber N}.

Record HighlightPreset : Type := mkPreset {
  name : string;
  color : string;
  opacity : N;
  thickness : N;
  description : string
}.

Definition HIGHLIGHT_PRESETS : list HighlightPreset :=
  [mkPreset "Yellow" "#FFF59D" (num_dec 5 10) (num_of_Z 12) "General emphasis";
   mkPreset "Light Blue" "#B3E5FC" (num_dec 5 10) (num_of_Z 12) "Technical awareness";
   mkPreset "Light Green" "#C8E6C9" (num_dec 5 10) (num_of_Z 12) "Blocking that works";
   mkPreset "Pink" "#F8BBD0" (num_dec 5 10) (num_of_Z 12) "Emotional beats";
   mkPreset "Orange" "#FFE0B2" (num_dec 5 10) (num_of_Z 12) "Needs attention";
   mkPreset "Lavender" "#E1BEE7" (num_dec 5 10) (num_of_Z 12) "Director notes"].

(* HIGHLIGHT_PRESETS[0] *)
Definition DEFAULT_PRESET : HighlightPreset :=
  mkPreset "Yellow" "#FFF59D" (num_dec 5 10) (num_of_Z 12) "General emphasis".

Definition getPresetByName (n : string) : option HighlightPreset :=
  find (fun p => String.eqb (name p) n) HIGHLIGHT_PRESETS.

(* the initial selectedPreset, lines 75-84 *)
Definition initialPreset (storage : LocalStorage.t) : HighlightPreset :=
  match LocalStorage.getItem "highlightPresetName" storage with
  | Some savedPresetName =>
      if String.eqb savedPresetName "" then DEFAULT_PRESET
      else
        match getPresetByName savedPresetName with
        | Some preset => preset
        | None => DEFAULT_PRESET
        end
  | None => DEFAULT_PRESET
  end.

(* the initial highlightColor, lines 85-90:
   localStorage.getItem('highlightColor') || selectedPreset.color *)
Definition initialColor (storage : LocalStorage.t) (selectedPreset : HighlightPreset)
  : string :=
  match LocalStorage.getItem "highlightColor" storage with
  | Some saved => if String.eqb saved "" then color selectedPreset else saved
  | None => color selectedPreset
  end.

(* handleSelectPreset, lines 167-175: the new selectedPreset and
   highlightColor, and what is written to localStorage *)
Definition handleSelectPreset (preset : HighlightPreset) (storage : LocalStorage.t)
  : HighlightPreset * string * LocalStorage.t :=
  (preset, color preset,
   LocalStorage.setItem "highlightColor" (color preset)
     (LocalStorage.setItem "highlightPresetName" (name preset) storage)).

End Presets.
Arguments HighlightPreset N : clear implicits.
End Presets.

(** ** Deleting a cue: BlockingChart.handleDelete, CuePreview.handleDelete
    and the callbacks BlockingPage hands to them *)

Module CueDeletion.
Section Deletion.
Variable N : Type.

Inductive ChartCallback : Type :=
| OnDeleteEntry (entryId : string)
| OnSelectEntry (entryId : option string).

(* BlockingChart.tsx, lines 94-101; [confirmed] is the answer to confirm() *)
Definition chartHandleDelete (confirmed : bool) (entryId : string)
  (selectedEntryId : option string) : list ChartCallback :=
  if confirmed then
    OnDeleteEntry entryId
      :: match selectedEntryId with
         | Some selected =>
             if String.eqb selected entryId then [OnSelectEntry None] else []
         | None => []
         end
  else [].

(* BlockingPage.tsx, lines 149-151: handleDeleteEntry reloads the page *)
Definition handleDeleteEntry (entryId : string) (s : BlockingPage.State N)
  (db : Repo.DB N) : BlockingPage.State N * Repo.DB N :=
  (BlockingPage.loadEntries s db, db).

(* the Del button of a card: onDeleteEntry = handleDeleteEntry and
   onSelectEntry = setSelectedEntryId *)
Definition deleteFromChart (confirmed : bool) (entryId : string)
  (selectedEntryId : option string) (s : BlockingPage.State N) (db : Repo.DB N)
  : BlockingPage.State N * option string * Repo.DB N :=
  fold_left
    (fun acc callback =>
       let '(s1, selected1, db1) := acc in
       match callback with
       | OnDeleteEntry id =>
           let '(s2, db2) := handleDeleteEntry id s1 db1 in (s2, selected1, db2)
       | OnSelectEntry id => (s1, id, db1)
       end)
    (chartHandleDelete confirmed entryId selectedEntryId)
    (s, selectedEntryId, db).

Inductive PreviewCallback : Type := OnClose | OnUpdate.

(* CuePreview (BlockingPage.tsx, second document), lines 345-350:
   if (! !confirm(...)) return; await deleteBlockingEntry(...); onClose();
   onUpdate() *)
Definition previewHandleDelete (confirmed : bool) (entry : BlockingEntry.t N)
  (userId : string) (db : Repo.DB N) : list PreviewCallback * Repo.DB N :=
  if negb (negb confirmed) then ([], db)
  else ([OnClose; OnUpdate],
        Repo.deleteBlockingEntry (BlockingEntry.entry_id entry) userId db).

(* BlockingPage.tsx, lines 164-170: handleClosePreview and handlePreviewUpdate *)
Definition handleClosePreview (s : BlockingPage.State N) : BlockingPage.State N :=
  BlockingPage.mkState (BlockingPage.script_id s) (BlockingPage.user s)
    (BlockingPage.currentPage s) (BlockingPage.entries s)
    (BlockingPage.pendingSelection s) (BlockingPage.showAddDialog s) None.

Definition handlePreviewUpdate (s : BlockingPage.State N) (db : Repo.DB N)
  : BlockingPage.State N :=
  BlockingPage.loadEntries s db.

(* the Delete button of the slide-out preview *)
Definition deleteFromPreview (confirmed : bool) (entry : BlockingEntry.t N)
  (userId : string) (s : BlockingPage.State N) (db : Repo.DB N)
  : BlockingPage.State N * Repo.DB N :=
  let '(callbacks, db1) := previewHandleDelete confirmed entry userId db in
  (fold_left
     (fun s1 callback =>
        match callback with
        | OnClose => handleClosePreview s1
        | OnUpdate => handlePreviewUpdate s1 db1
        end)
     callbacks s,
   db1).

End Deletion.
End CueDeletion.

(** ** PDFViewer.tsx: the rectangle drawn while a selection is dragged
    (drawSelectionRect, lines 485-505) *)

Class JSAbs (N : Type) : Type := {
  Math_abs : N -> N
}.

#[export] Instance float_JSAbs : JSAbs float := {
  Math_abs := PrimFloat.abs
}.

#[export] Instance Q_JSAbs : JSAbs Q := {
  Math_abs := Qabs
}.

Module SelectionPreview.
Section Preview.
Context {N : Type} {JS : JSNumber N} {JA : JSAbs N}.
Local Open Scope js_scope.
Import PDFViewer.

(* the arguments of ctx.strokeRect and ctx.fillRect *)
Record Rect : Type := mkRect { rx : N; ry : N; rwidth : N; rheight : N }.

(* nothing is drawn without both ends of the selection *)
Definition drawSelectionRect (selectionStart selectionEnd : option (Point N))
  : option Rect :=
  match selectionStart, selectionEnd with
  | Some selectionStart, Some selectionEnd =>
      let x := Math_min (px selectionStart) (px selectionEnd) in
      let y := Math_min (py selectionStart) (py selectionEnd) in
      let width := Math_abs (px selectionEnd - px selectionStart) in
      let height := Math_abs (py selectionEnd - py selectionStart) in
      Some (mkRect x y width height)
  | _, _ => None
  end.

End Preview.
Arguments Rect N : clear implicits.
End SelectionPreview.

(** ** Vocabulary of the statements about the store *)

Module Store.
Section Store.
Variable N : Type.

(* the primary keys of the two tables *)
Definition entryKeys (db : Repo.DB N) : list string :=
  map (fun r => BlockingEntry.entry_id (Repo.payload r)) (Repo.blocking_entries db).

Definition markKeys (db : Repo.DB N) : list string :=
  map (fun r => HighlightMark.mark_id (Repo.payload r)) (Repo.highlight_marks db).

(* no two rows of a table share their primary key *)
Definition keyed (db : Repo.DB N) : Prop :=
  NoDup (entryKeys db) /\ NoDup (markKeys db).

(* the row belongs to the page of the script as the user sees it *)
Definition onPage (scriptId : string) (pageNumber : Z) (userId : string)
  (r : Repo.Row (HighlightMark.t N)) : Prop :=
  HighlightMark.script_id (Repo.payload r) = scriptId
  /\ HighlightMark.page_number (Repo.payload r) = pageNumber
  /\ Repo.user_id r = userId.

End Store.
End Store.

(** ** Scripts: actions/scripts.ts, the routes api/upload-pdf and
    api/pdf/[scriptId], and the home page app/page.tsx

    The actions and the routes are modelled on their success path, as the
    other actions are: a transport, database or storage failure is not part
    of the model.  The routes see the Clerk session of the user the page is
    rendered for. *)

Module Scripts.
Section Scripts.
Variable Blob : Type.                     (* the content of a file *)
Variable publicUrl : string -> string.    (* storage.getPublicUrl(fileName) *)
Variable getTime : string -> Z.           (* new Date(created_at).getTime() *)

(* a script without its pdf_blob *)
Record Script : Type := mkScript {
  script_id : string;
  title : string;
  pdf_url : string;
  total_pages : Z;
  created_at : string
}.

(* the table scripts, keyed by script_id, and the storage bucket pdfs *)
Record Backend : Type := mkBackend {
  scripts : list (Repo.Row Script);
  pdfs : list (string * Blob)
}.

(* `${userId}/${scriptId}.pdf` *)
Definition fileName (userId scriptId : string) : string :=
  (userId ++ "/" ++ scriptId ++ ".pdf")%string.

(* storage.from('pdfs').upload(fileName, file, { upsert: true }) *)
Definition upload (name : string) (file : Blob) (files : list (string * Blob))
  : list (string * Blob) :=
  (name, file) :: filter (fun f => negb (String.eqb (fst f) name)) files.

Fixpoint download (name : string) (files : list (string * Blob)) : option Blob :=
  match files with
  | [] => None
  | (n, file) :: rest => if String.eqb n name then Some file else download name rest
  end.

Definition remove (name : string) (files : list (string * Blob)) : list (string * Blob) :=
  filter (fun f => negb (String.eqb (fst f) name)) files.

(* actions/scripts.ts *)

Definition saveScript (metadata : Script) (userId : string) (b : Backend) : Backend :=
  mkBackend (Repo.upsert script_id (Repo.mkRow userId metadata) (scripts b)) (pdfs b).

(* .single() gives the row when the query has exactly one; without a row or
   with several the error is PGRST116 and the action returns null *)
Definition getScriptMetadata (scriptId userId : string) (b : Backend) : option Script :=
  match filter (fun r => String.eqb (script_id (Repo.payload r)) scriptId
                         && String.eqb (Repo.user_id r) userId)
               (scripts b) with
  | [r] => Some (Repo.payload r)
  | _ => None
  end.

(* the later script first *)
Definition laterFirst (a b : Script) : bool :=
  (getTime (created_at b) <=? getTime (created_at a))%Z.

Definition getAllScripts (userId : string) (b : Backend) : list Script :=
  Repo.order_by laterFirst
    (map (@Repo.payload _)
       (filter (fun r => String.eqb (Repo.user_id r) userId) (scripts b))).

Definition deleteScript (scriptId userId : string) (b : Backend) : Backend :=
  mkBackend
    (filter (fun r => negb (String.eqb (script_id (Repo.payload r)) scriptId
                            && String.eqb (Repo.user_id r) userId))
            (scripts b))
    (remove (fileName userId scriptId) (pdfs b)).

(* the responses of the two routes *)
Inductive Response : Type :=
| Unauthorized                          (* 401 *)
| MissingFileOrScriptId                 (* 400 *)
| ScriptNotFound                        (* 404, 'Script not found' *)
| PdfNotFound                           (* 404, 'PDF not found' *)
| Uploaded (filePath url : string)      (* 200 *)
| Pdf (blob : Blob) (filename : string). (* 200, application/pdf, inline *)

Definition ok (r : Response) : bool :=
  match r with
  | Uploaded _ _ | Pdf _ _ => true
  | _ => false
  end.

(* response.blob(): the body, whatever the response is *)
Variable jsonBlob : Response -> Blob.

Definition blobOf (r : Response) : Blob :=
  match r with
  | Pdf blob _ => blob
  | _ => jsonBlob r
  end.

(* !userId *)
Definition signedIn (auth : option string) : option string :=
  match auth with
  | Some userId => if String.eqb userId "" then None else Some userId
  | None => None
  end.

(* app/api/upload-pdf/route.ts: POST *)
Definition uploadPdf (auth : option string) (file : option Blob)
  (scriptId : option string) (b : Backend) : Response * Backend :=
  match signedIn auth with
  | None => (Unauthorized, b)
  | Some userId =>
      match file, scriptId with
      | Some file, Some scriptId =>
          if String.eqb scriptId "" then (MissingFileOrScriptId, b)
          else
            let name := fileName userId scriptId in
            (Uploaded name (publicUrl name),
             mkBackend (scripts b) (upload name file (pdfs b)))
      | _, _ => (MissingFileOrScriptId, b)
      end
  end.

(* app/api/pdf/[scriptId]/route.ts: GET *)
Definition getPdf (auth : option string) (scriptId : string) (b : Backend) : Response :=
  match signedIn auth with
  | None => Unauthorized
  | Some userId =>
      match getScriptMetadata scriptId userId b with
      | None => ScriptNotFound
      | Some script =>
          match download (fileName userId scriptId) (pdfs b) with
          | None => PdfNotFound
          | Some pdfBlob => Pdf pdfBlob (title script ++ ".pdf")
          end
      end
  end.

(* app/page.tsx *)

Inductive AppView : Type := ListView | SetupView | BlockingView.

Inductive Alert : Type :=
| FailedToCreateScript
| ScriptNotFoundAlert
| FailedToOpenScript.

Record Home : Type := mkHome {
  view : AppView;
  listed : list Script;                        (* the state [scripts] *)
  currentScript : option (Script * Blob)
}.

(* loadScripts: the scripts of the user, sorted again by creation time *)
Definition loadScripts (user : option string) (b : Backend) (st : Home) : Home :=
  match user with
  | None => st
  | Some userId =>
      mkHome (view st) (Repo.order_by laterFirst (getAllScripts userId b))
        (currentScript st)
  end.

(* handleScriptCreated; [scriptId] is the UUID generateId() draws, [now] the
   clock reading *)
Definition handleScriptCreated (user : option string) (title : string)
  (pdfBlob : Blob) (totalPages : Z) (scriptId now : string) (b : Backend)
  (st : Home) : Home * Backend * option Alert :=
  match user with
  | None => (st, b, None)
  | Some userId =>
      match uploadPdf user (Some pdfBlob) (Some scriptId) b with
      | (Uploaded _ pdfUrl, b1) =>
          let b2 := saveScript (mkScript scriptId title pdfUrl totalPages now) userId b1 in
          let pdfResponse := getPdf user scriptId b2 in
          let st1 :=
            match getScriptMetadata scriptId userId b2 with
            | Some scriptMetadata =>
                mkHome (view st) (listed st) (Some (scriptMetadata, blobOf pdfResponse))
            | None => st
            end in
          let st2 := loadScripts user b2 st1 in
          (mkHome BlockingView (listed st2) (currentScript st2), b2, None)
      | (_, b1) => (st, b1, Some FailedToCreateScript)
      end
  end.

Definition handleOpenScript (user : option string) (script : Script) (b : Backend)
  (st : Home) : Home * option Alert :=
  match user with
  | None => (st, None)
  | Some userId =>
      match getScriptMetadata (script_id script) userId b with
      | None => (loadScripts user b st, Some ScriptNotFoundAlert)
      | Some scriptMetadata =>
          let pdfResponse := getPdf user (script_id script) b in
          if ok pdfResponse
          then (mkHome BlockingView (listed st)
                  (Some (scriptMetadata, blobOf pdfResponse)), None)
          else (st, Some FailedToOpenScript)
      end
  end.

(* [confirmed] is the answer to confirm() *)
Definition handleDeleteScript (user : option string) (confirmed : bool)
  (scriptId : string) (b : Backend) (st : Home) : Home * Backend :=
  match user with
  | None => (st, b)
  | Some userId =>
      if confirmed then
        let b1 := deleteScript scriptId userId b in
        (loadScripts user b1 st, b1)
      else (st, b)
  end.

Definition handleExitBlocking (user : option string) (b : Backend) (st : Home) : Home :=
  loadScripts user b (mkHome ListView (listed st) None).

(* the primary key of the table *)
Definition keyed (b : Backend) : Prop :=
  NoDup (map (fun r => script_id (Repo.payload r)) (scripts b)).

End Scripts.

(* a storage path segment: a string without the separator *)
Fixpoint noSlash (s : string) : bool :=
  match s with
  | EmptyString => true
  | String c rest => negb (Ascii.eqb c "/"%char) && noSlash rest
  end.

End Scripts.

(* a store with two users and a script each, for the examples *)
Module ScriptsExample.
Import Scripts.
Local Open Scope string_scope.

Definition url (name : string) : string := "https://storage.example/pdfs/" ++ name.
Definition time (createdAt : string) : Z := Z.of_nat (String.length createdAt).
Definition body (r : Response string) : string := "{}".

Definition hamlet : Script :=
  mkScript "s1" "Hamlet" (url (fileName "user_1" "s1")) 120 "2025-12-26T10:00:00.000Z".
Definition macbeth : Script :=
  mkScript "s2" "Macbeth" (url (fileName "user_2" "s2")) 90 "2025-12-27T10:00:00.000Z".

Definition stored : Backend string :=
  mkBackend [Repo.mkRow "user_1" hamlet; Repo.mkRow "user_2" macbeth]
            [(fileName "user_1" "s1", "%PDF-hamlet");
             (fileName "user_2" "s2", "%PDF-macbeth")].

Definition home : Home string := mkHome ListView [] None.

End ScriptsExample.

(** ** The text under a selection: handleMouseUp of PDFViewer.tsx, the scan
    of the text layer

    The elements are those of querySelectorAll('.pdf-text-item'), in document
    order, each with its getBoundingClientRect() and its textContent. *)

Module TextScan.
Local Open Scope float_scope.

Record Element : Type := mkElement {
  left : float;
  top : float;
  width : float;
  height : float;
  textContent : string
}.

(* x.toFixed(0): "NaN", "Infinity" with its sign, from 1e21 on the sign and
   String(x), that is the digits and the exponent, and else the sign and the
   integer nearest to the magnitude, the larger one of two *)
Inductive Fixed : Type :=
| FixedNaN
| FixedInfinity (minus : bool)
| FixedLarge (minus : bool) (digits exponent : Z)
| FixedDigits (minus : bool) (n : Z).

Definition toFixed0 (x : float) : Fixed :=
  match Prim2SF x with
  | S754_nan => FixedNaN
  | S754_infinity s => FixedInfinity s
  | S754_zero _ => FixedDigits false 0
  | S754_finite s m e =>
      let v := (inject_Z (Zpos m) * 2 ^ e)%Q in
      if Qle_bool (10 ^ 21) v
      then let '(d, _, n) := Digits.shortestDecimal m e in FixedLarge s d (n - 1)
      else FixedDigits s (Qfloor (v + (1 # 2)))
  end.

Definition fixed_eqb (a b : Fixed) : bool :=
  match a, b with
  | FixedNaN, FixedNaN => true
  | FixedInfinity s, FixedInfinity s' => Bool.eqb s s'
  | FixedLarge s d n, FixedLarge s' d' n' => Bool.eqb s s' && (d =? d')%Z && (n =? n')%Z
  | FixedDigits s n, FixedDigits s' n' => Bool.eqb s s' && (n =? n')%Z
  | _, _ => false
  end.

(* `${elemX.toFixed(0)},${elemY.toFixed(0)},${text}`: the two numbers hold
   no comma, so two keys are the same string when their three parts are *)
Definition PosKey : Type := (Fixed * Fixed * string)%type.

Definition posKey_eqb (a b : PosKey) : bool :=
  let '(ax, ay, at') := a in
  let '(bx, by', bt) := b in
  fixed_eqb ax bx && fixed_eqb ay by' && String.eqb at' bt.

(* Set.prototype.has *)
Definition has (seenPositions : list PosKey) (posKey : PosKey) : bool :=
  existsb (posKey_eqb posKey) seenPositions.

Section Scan.
Variables canvasLeft canvasTop : float.   (* canvasRect.left, canvasRect.top *)
Variables x1 y1 x2 y2 : float.            (* the selection rectangle *)

Definition elemX (element : Element) : float := left element - canvasLeft.
Definition elemY (element : Element) : float := top element - canvasTop.
Definition elemRight (element : Element) : float := elemX element + width element.
Definition elemBottom (element : Element) : float := elemY element + height element.

(* elemRight >= x1 && elemX <= x2 && elemBottom >= y1 && elemY <= y2 *)
Definition overlaps (element : Element) : bool :=
  (x1 <=? elemRight element) && (elemX element <=? x2)
  && (y1 <=? elemBottom element) && (elemY element <=? y2).

Definition posKey (element : Element) : PosKey :=
  (toFixed0 (elemX element), toFixed0 (elemY element), textContent element).

(* the loop over the elements: those whose text is pushed *)
Fixpoint scan (textElements : list Element) (seenPositions : list PosKey)
  : list Element :=
  match textElements with
  | [] => []
  | element :: rest =>
      if overlaps element
         && (negb (trimIsEmpty (textContent element))
             && negb (has seenPositions (posKey element)))
      then element :: scan rest (posKey element :: seenPositions)
      else scan rest seenPositions
  end.

Definition textsInSelection (textElements : list Element) : list string :=
  map textContent (scan textElements []).

End Scan.

(* the selected text of handleMouseUp for a selection from [selectionStart]
   to [selectionEnd] *)
Definition selectedText (hasTextLayer : bool) (canvasLeft canvasTop : float)
  (textElements : list Element) (selectionStart selectionEnd : PDFViewer.Point float)
  : string :=
  let x1 := Math_min (PDFViewer.px selectionStart) (PDFViewer.px selectionEnd) in
  let y1 := Math_min (PDFViewer.py selectionStart) (PDFViewer.py selectionEnd) in
  let x2 := Math_max (PDFViewer.px selectionStart) (PDFViewer.px selectionEnd) in
  let y2 := Math_max (PDFViewer.py selectionStart) (PDFViewer.py selectionEnd) in
  if hasTextLayer then
    match textsInSelection canvasLeft canvasTop x1 y1 x2 y2 textElements with
    | [] => ""
    | texts => String.concat " " texts
    end
  else "".

End TextScan.

(** * Properties *)

(** ** Exact comparison and the repository *)

Lemma Exact_ltb_lt (a b : Q) : Exact.ltb a b = true <-> a < b.
Proof.
  unfold Exact.ltb. rewrite negb_true_iff.
  destruct (Qle_bool b a) eqn:E.
  - apply Qle_bool_iff in E. split; [discriminate | intro; lra].
  - split; [intros _ | reflexivity].
    destruct (Qlt_le_dec a b) as [Hlt | Hle]; [exact Hlt |].
    apply Qle_bool_iff in Hle. congruence.
Qed.

Section RepoFacts.
Variable N : Type.

Lemma In_insert_by {A} (leb : A -> A -> bool) (a x : A) (l : list A) :
  In x (Repo.insert_by leb a l) <-> x = a \/ In x l.
Proof.
  induction l as [| b rest IH]; simpl.
  - intuition congruence.
  - destruct (leb a b); simpl; [intuition congruence |].
    rewrite IH. intuition.
Qed.

Lemma In_order_by {A} (leb : A -> A -> bool) (x : A) (l : list A) :
  In x (Repo.order_by leb l) <-> In x l.
Proof.
  unfold Repo.order_by. induction l as [| a rest IH]; simpl; [tauto |].
  rewrite In_insert_by, IH. intuition congruence.
Qed.

Lemma In_upsert_new {A} (key : A -> string) (r : Repo.Row A) (rows : list (Repo.Row A)) :
  In r (Repo.upsert key r rows).
Proof.
  induction rows as [| r' rest IH]; simpl; [now left |].
  destruct (String.eqb _ _); simpl; auto.
Qed.

Lemma In_getHighlightsForPage (scriptId : string) (pageNumber : Z) (userId : string)
  (db : Repo.DB N) (m : HighlightMark.t N) :
  In m (Repo.getHighlightsForPage scriptId pageNumber userId db) <->
  In (Repo.mkRow userId m) (Repo.highlight_marks db)
  /\ HighlightMark.script_id m = scriptId
  /\ HighlightMark.page_number m = pageNumber.
Proof.
  unfold Repo.getHighlightsForPage. rewrite In_order_by, in_map_iff. split.
  - intros [[u m'] [Hm Hin]]. simpl in Hm. subst m'.
    apply filter_In in Hin. destruct Hin as [Hin Hf]. simpl in Hf.
    apply andb_true_iff in Hf. destruct Hf as [Hf Hu].
    apply andb_true_iff in Hf. destruct Hf as [Hs Hp].
    apply String.eqb_eq in Hs, Hu. apply Z.eqb_eq in Hp. subst u. auto.
  - intros (Hin & Hs & Hp). exists (Repo.mkRow userId m). split; [reflexivity |].
    apply filter_In. split; [exact Hin |]. simpl.
    rewrite Hs, Hp, !String.eqb_refl, Z.eqb_refl. reflexivity.
Qed.

End RepoFacts.

(** ** The text of a number, and what the patterns read of it *)

Section NumberTexts.
Import PDFViewer.
Local Open Scope float_scope.

Example text_of_third : Digits.shortestDecimal 6004799503160661 (-54)
                        = (3333333333333333, 16, 0)%Z.
Proof. vm_compute. reflexivity. Qed.

Example text_decimal : F64.text 0.125 = mkText false (Decimal 0.125).
Proof. vm_compute. reflexivity. Qed.

(* 0.000001 is the least number printed as a decimal *)
Example text_micro :
  F64.text (1 / 1000000) = mkText false (Decimal (1 / 1000000))
  /\ F64.text (999 / 1000000000) = mkText false (Exponent (999 / 100) (-7)).
Proof. split; vm_compute; reflexivity. Qed.

Example text_large : F64.text 1e21 = mkText false (Exponent 1 21).
Proof. vm_compute. reflexivity. Qed.

Example text_negative : F64.text (-0.5) = mkText true (Decimal 0.5).
Proof. vm_compute. reflexivity. Qed.

Example text_not_a_number : F64.text nan = mkText false Letters.
Proof. vm_compute. reflexivity. Qed.

(* "M 6.25e-7 0.5 L 0.25 0.5": the first segment is no match, the erase
   pattern reads five numbers *)
Example exponent_in_first_place :
  let small := 1 / 1600000 in
  let path_data := [Cmd cmdM; Num small; Num 0.5; Cmd cmdL; Num 0.25; Num 0.5] in
  absolutePath 800 1000 path_data
  = [SvgCmd cmdM; SvgNum small; SvgNum 0.5; SvgCmd cmdL; SvgNum 200; SvgNum 500]
  /\ matchNumbers path_data = [6.25; 7; 0.5; 0.25; 0.5].
Proof. split; vm_compute; reflexivity. Qed.

(* "M 0.25 6.25e-7": the second number matches on its mantissa and the
   exponent stays behind it, "M 200 6250e-7" *)
Example exponent_in_second_place :
  absolutePath 800 1000 [Cmd cmdM; Num 0.25; Num (1 / 1600000)]
  = [SvgCmd cmdM; SvgNum 200; SvgNumExp 6250 (-7)].
Proof. vm_compute. reflexivity. Qed.

(* "M 0.25 -0.5": a sign is no match *)
Example sign_in_second_place :
  absolutePath 800 1000 [Cmd cmdM; Num 0.25; Num (-0.5)]
  = [SvgCmd cmdM; SvgNum 0.25; SvgNum (-0.5)].
Proof. vm_compute. reflexivity. Qed.

End NumberTexts.

(** ** Rounding in binary64

    The error of one division and one multiplication, from the
    specification of the arithmetic: a finite result is within half a unit
    in the last place of the exact value. *)

Section Binary64Rounding.
Import Binary64.
Local Open Scope Q_scope.
Local Unset Implicit Arguments.

Lemma bpow_pos e : 0 < bpow e.
Proof. apply Qpower_0_lt. reflexivity. Qed.

Lemma bpow_add a b : bpow (a + b) == bpow a * bpow b.
Proof. apply Qpower_plus. discriminate. Qed.

Lemma bpow_succ e : bpow (e + 1) == 2 * bpow e.
Proof. rewrite bpow_add. unfold bpow at 2. simpl. ring. Qed.

Lemma bpow_le a b : (a <= b)%Z -> bpow a <= bpow b.
Proof. intro H. apply Qpower_le_compat_l; [exact H | discriminate]. Qed.

Lemma bpow_Z n : (0 <= n)%Z -> bpow n == inject_Z (2 ^ n).
Proof. intro H. unfold bpow. rewrite Zpower_Qpower by exact H. reflexivity. Qed.

Lemma digits2_pos_size p : digits2_pos p = Pos.size p.
Proof. induction p; simpl; congruence. Qed.

Lemma Zdigits2_log2 m : (0 < m)%Z -> Zdigits2 m = (Z.log2 m + 1)%Z.
Proof.
  destruct m as [| p | p]; try lia. intros _. simpl.
  destruct p; simpl; rewrite ?digits2_pos_size; lia.
Qed.

Lemma Zdigits2_bounds m :
  (0 < m)%Z -> (2 ^ (Zdigits2 m - 1) <= m < 2 ^ Zdigits2 m)%Z.
Proof.
  intro H. rewrite (Zdigits2_log2 m H).
  replace (Z.log2 m + 1 - 1)%Z with (Z.log2 m) by lia.
  apply Z.log2_spec. exact H.
Qed.

Lemma Zdigits2_nonneg m : (0 <= Zdigits2 m)%Z.
Proof. destruct m; simpl; lia. Qed.

Lemma inject_Z_xO p : inject_Z (Zpos p~0) == 2 * inject_Z (Zpos p).
Proof. change (Zpos p~0) with (2 * Zpos p)%Z. rewrite inject_Z_mult. reflexivity. Qed.

Lemma inject_Z_xI p : inject_Z (Zpos p~1) == 2 * inject_Z (Zpos p) + 1.
Proof.
  change (Zpos p~1) with (2 * Zpos p + 1)%Z.
  rewrite inject_Z_plus, inject_Z_mult. reflexivity.
Qed.

Lemma shr_1_located mrs e x :
  (0 <= shr_m mrs)%Z ->
  located (shr_m mrs) e (loc_of_shr_record mrs) x ->
  located (shr_m (shr_1 mrs)) (e + 1) (loc_of_shr_record (shr_1 mrs)) x
  /\ shr_m (shr_1 mrs) = Z.div2 (shr_m mrs).
Proof.
  destruct mrs as [m r s]. cbn [shr_m]. intros Hm H.
  pose proof (bpow_pos e) as HB. pose proof (bpow_succ e) as HS.
  destruct m as [| p | p]; [| | lia].
  - split; [| reflexivity].
    destruct r, s; cbn in *; rewrite ?HS; change (inject_Z 0) with 0 in *; lra.
  - split; [| destruct p; reflexivity].
    destruct p as [p | p |]; destruct r, s; cbn [shr_1 shr_m loc_of_shr_record located orb] in *;
      rewrite ?HS; rewrite ?inject_Z_xO, ?inject_Z_xI in H;
      change (inject_Z 1) with 1 in *; change (inject_Z 0) with 0 in *;
      try lra.
Qed.

Lemma shr_iter_located p : forall mrs e x,
  (0 <= shr_m mrs)%Z ->
  located (shr_m mrs) e (loc_of_shr_record mrs) x ->
  located (shr_m (iter_pos shr_1 p mrs)) (e + Zpos p)
          (loc_of_shr_record (iter_pos shr_1 p mrs)) x
  /\ shr_m (iter_pos shr_1 p mrs) = (shr_m mrs / 2 ^ Zpos p)%Z.
Proof.
  assert (Hdiv : forall m a b, (0 < a)%Z -> (0 < b)%Z ->
                 (m / 2 ^ a / 2 ^ b = m / 2 ^ (a + b))%Z).
  { intros m a b Ha Hb. rewrite Z.pow_add_r by lia.
    rewrite Z.div_div; [reflexivity | apply Z.pow_nonzero; lia | apply Z.pow_pos_nonneg; lia]. }
  assert (Hnn : forall m a, (0 <= m)%Z -> (0 <= m / 2 ^ Zpos a)%Z).
  { intros m a Hm. apply Z.div_pos; [exact Hm |]. apply Z.pow_pos_nonneg; lia. }
  induction p as [p IH | p IH |]; intros mrs e x Hm H; cbn [iter_pos].
  - destruct (shr_1_located mrs e x Hm H) as [H1 E1].
    assert (Hm1 : (0 <= shr_m (shr_1 mrs))%Z).
    { rewrite E1, Z.div2_div. apply Z.div_pos; lia. }
    destruct (IH _ _ _ Hm1 H1) as [H2 E2].
    assert (Hm2 : (0 <= shr_m (iter_pos shr_1 p (shr_1 mrs)))%Z).
    { rewrite E2. apply Hnn. exact Hm1. }
    destruct (IH _ _ _ Hm2 H2) as [H3 E3].
    split.
    + replace (e + Zpos p~1)%Z with (e + 1 + Zpos p + Zpos p)%Z by lia. exact H3.
    + rewrite E3, E2, E1, Z.div2_div.
      change 2%Z with (2 ^ 1)%Z at 1.
      rewrite !Hdiv by lia. f_equal. f_equal. lia.
  - destruct (IH _ _ _ Hm H) as [H2 E2].
    assert (Hm2 : (0 <= shr_m (iter_pos shr_1 p mrs))%Z).
    { rewrite E2. apply Hnn. exact Hm. }
    destruct (IH _ _ _ Hm2 H2) as [H3 E3].
    split.
    + replace (e + Zpos p~0)%Z with (e + Zpos p + Zpos p)%Z by lia. exact H3.
    + rewrite E3, E2, Hdiv by lia. f_equal. f_equal. lia.
  - destruct (shr_1_located mrs e x Hm H) as [H1 E1]. split; [exact H1 |].
    rewrite E1, Z.div2_div. reflexivity.
Qed.

Lemma fexp_64 e : fexp prec emax e = fexp64 e.
Proof. reflexivity. Qed.

Lemma loc_of_shr_record_of_loc m l :
  loc_of_shr_record (shr_record_of_loc m l) = l /\ shr_m (shr_record_of_loc m l) = m.
Proof. destruct l as [| []]; split; reflexivity. Qed.

(* the first shift of binary_round_aux *)
Lemma shr_fexp_located m e l x :
  (0 <= m)%Z -> located m e l x ->
  let '(mrs, e1) := shr_fexp prec emax m e l in
  located (shr_m mrs) e1 (loc_of_shr_record mrs) x
  /\ (0 <= shr_m mrs)%Z
  /\ e1 = Z.max e (fexp64 (Zdigits2 m + e))
  /\ (fexp64 (Zdigits2 (shr_m mrs) + e1) <= e1)%Z
  /\ (l = loc_Exact -> (fexp64 (Zdigits2 m + e) <= e)%Z ->
      shr_m mrs = m /\ loc_of_shr_record mrs = loc_Exact).
Proof.
  intros Hm H. unfold shr_fexp, shr. rewrite fexp_64.
  destruct (loc_of_shr_record_of_loc m l) as [El Em].
  destruct (fexp64 (Zdigits2 m + e) - e)%Z as [| n | n] eqn:En.
  - rewrite El, Em. repeat split; auto; try lia.
  - assert (H0 : located (shr_m (shr_record_of_loc m l)) e
                   (loc_of_shr_record (shr_record_of_loc m l)) x)
      by (rewrite El, Em; exact H).
    assert (Hm0 : (0 <= shr_m (shr_record_of_loc m l))%Z) by (rewrite Em; exact Hm).
    destruct (shr_iter_located n _ e x Hm0 H0) as [H1 E1]. rewrite Em in E1.
    assert (Hpow : (0 < 2 ^ Zpos n)%Z) by (apply Z.pow_pos_nonneg; lia).
    assert (Hm1 : (0 <= m / 2 ^ Zpos n)%Z) by (apply Z.div_pos; lia).
    split; [exact H1 |]. split; [rewrite E1; exact Hm1 |].
    split; [lia |]. split; [| intros; lia].
    rewrite E1.
    destruct (Z.eq_dec m 0) as [Z0 | NZ].
    + subst m. rewrite Z.div_0_l by lia. simpl Zdigits2. unfold fexp64 in *. lia.
    + assert (Hmp : (0 < m)%Z) by lia.
      destruct (Z.eq_dec (m / 2 ^ Zpos n) 0) as [Zq | NZq].
      * rewrite Zq. simpl Zdigits2. unfold fexp64 in *. lia.
      * assert (Hq : (0 < m / 2 ^ Zpos n)%Z) by lia.
        rewrite (Zdigits2_log2 _ Hq), (Zdigits2_log2 _ Hmp) in *.
        rewrite <- Z.shiftr_div_pow2 by lia.
        rewrite Z.log2_shiftr by exact Hmp.
        rewrite <- Z.shiftr_div_pow2 in Hq by lia.
        assert (Hl : (0 < Z.log2 (Z.shiftr m (Zpos n)) \/ Z.shiftr m (Zpos n) = 1)%Z).
        { destruct (Z.eq_dec (Z.shiftr m (Zpos n)) 1); [right; auto | left].
          apply Z.log2_pos. lia. }
        rewrite Z.log2_shiftr in Hl by exact Hmp.
        unfold fexp64 in *. destruct Hl as [Hl | Hl]; [lia |].
        assert (Hlog : Z.log2 (Z.shiftr m (Zpos n)) = 0%Z) by (rewrite Hl; reflexivity).
        rewrite Z.log2_shiftr in Hlog by exact Hmp.
        assert (Hge : (Zpos n <= Z.log2 m)%Z).
        { destruct (Z_lt_le_dec (Z.log2 m) (Zpos n)) as [C | C]; [| exact C].
          exfalso. rewrite Z.shiftr_eq_0 in Hl; [discriminate | lia | exact C]. }
        lia.
  - rewrite El, Em. repeat split; auto; try lia.
Qed.

Lemma bpow_pred e : bpow e == 2 * bpow (e - 1).
Proof. rewrite <- bpow_succ. replace (e - 1 + 1)%Z with e by lia. reflexivity. Qed.

Lemma round_nearest_even_error m e l x :
  (0 <= m)%Z -> located m e l x ->
  (round_nearest_even m l = m \/ round_nearest_even m l = (m + 1)%Z)
  /\ Qabs (inject_Z (round_nearest_even m l) * bpow e - x) <= bpow (e - 1)
  /\ (l = loc_Exact -> inject_Z (round_nearest_even m l) * bpow e == x).
Proof.
  intros Hm H. pose proof (bpow_pos (e - 1)) as HB. pose proof (bpow_pred e) as HP.
  assert (E1 : inject_Z (m + 1) == inject_Z m + 1)
    by (rewrite inject_Z_plus; reflexivity).
  destruct l as [| []]; cbn [round_nearest_even located] in *.
  - split; [auto |]. split; [| intros _; rewrite H; reflexivity].
    apply Qabs_Qle_condition. rewrite H. lra.
  - destruct (Z.even m).
    + split; [auto |]. split; [| discriminate].
      apply Qabs_Qle_condition. rewrite H, HP. lra.
    + split; [auto |]. split; [| discriminate].
      apply Qabs_Qle_condition. rewrite H, E1, HP. lra.
  - split; [auto |]. split; [| discriminate].
    apply Qabs_Qle_condition. rewrite HP in H |- *. lra.
  - split; [auto |]. split; [| discriminate].
    apply Qabs_Qle_condition. rewrite E1. rewrite HP in H |- *. lra.
Qed.

Lemma Zdigits2_succ m :
  (0 < m)%Z ->
  Zdigits2 (m + 1) = Zdigits2 m
  \/ (Zdigits2 (m + 1) = (Zdigits2 m + 1)%Z /\ exists b, (0 < b)%Z /\ (m + 1 = 2 ^ b)%Z).
Proof.
  intro Hm. rewrite !Zdigits2_log2 by lia.
  destruct (Z.log2_succ_or m) as [H | H]; unfold Z.succ in H.
  - right. split; [lia |].
    destruct (Z.log2_eq_succ_is_pow2 m) as [b Hb]; [exact H |]. unfold Z.succ in Hb.
    exists b. split; [| exact Hb].
    destruct (Z_lt_le_dec 0 b) as [C | C]; [exact C |]. exfalso.
    destruct (Z.eq_dec b 0) as [-> | N]; [simpl in Hb; lia |].
    rewrite Z.pow_neg_r in Hb by lia. lia.
  - left. lia.
Qed.

(* the second shift of binary_round_aux loses nothing *)
Lemma shr_fexp_exact m0 m1 e1 :
  (0 <= m0)%Z -> (m1 = m0 \/ m1 = (m0 + 1)%Z) ->
  (fexp64 (Zdigits2 m0 + e1) <= e1)%Z ->
  let '(mrs, e2) := shr_fexp prec emax m1 e1 loc_Exact in
  inject_Z (shr_m mrs) * bpow e2 == inject_Z m1 * bpow e1
  /\ (0 <= shr_m mrs)%Z /\ (e1 <= e2)%Z.
Proof.
  intros Hm0 Hm1 Hf. unfold shr_fexp, shr. rewrite fexp_64.
  cbn [shr_record_of_loc].
  destruct (fexp64 (Zdigits2 m1 + e1) - e1)%Z as [| n | n] eqn:En;
    cbn [shr_m]; try (split; [reflexivity | lia]).
  destruct Hm1 as [-> | ->]; [exfalso; lia |].
  destruct (Z.eq_dec m0 0) as [-> | NZ].
  { exfalso. change (Zdigits2 (0 + 1)) with 1%Z in En.
    change (Zdigits2 0) with 0%Z in Hf. unfold fexp64 in *. lia. }
  destruct (Zdigits2_succ m0) as [E | [E [b [Hb Eb]]]]; [lia | exfalso; rewrite E in En; lia |].
  rewrite E in En.
  assert (n = 1%positive) by (unfold fexp64 in *; lia). subst n.
  cbn [iter_pos].
  assert (Hev : exists p, (m0 + 1)%Z = Zpos p~0).
  { destruct (m0 + 1)%Z as [| [p | p |] | p] eqn:Em; try lia.
    - exfalso. replace b with (1 + (b - 1))%Z in Eb by lia.
      rewrite Z.pow_add_r in Eb by lia. lia.
    - exists p. reflexivity. }
  destruct Hev as [p Ep]. rewrite Ep. cbn [shr_1 shr_m].
  rewrite bpow_succ, inject_Z_xO. split; [ring | lia].
Qed.

Lemma binary_round_aux_error sx mx ex lx x :
  (0 <= mx)%Z -> located mx ex lx x ->
  exists v : Q,
    Qabs (v - x) <= bpow (Z.max ex (fexp64 (Zdigits2 mx + ex)) - 1)
    /\ (lx = loc_Exact -> (fexp64 (Zdigits2 mx + ex) <= ex)%Z -> v == x)
    /\ match binary_round_aux prec emax sx mx ex lx with
       | S754_zero s => s = sx /\ v == 0
       | S754_finite s m e => s = sx /\ v == inject_Z (Zpos m) * bpow e
       | S754_infinity s => s = sx /\ bpow 972 <= v
       | S754_nan => False
       end.
Proof.
  intros Hm H. unfold binary_round_aux.
  pose proof (shr_fexp_located mx ex lx x Hm H) as HA.
  destruct (shr_fexp prec emax mx ex lx) as [mrs1 e1].
  destruct HA as (H1 & Hm1 & E1 & Hf1 & Hex).
  destruct (round_nearest_even_error _ _ _ _ Hm1 H1) as (Hr & Herr & Hexact).
  pose proof (shr_fexp_exact (shr_m mrs1)
                (round_nearest_even (shr_m mrs1) (loc_of_shr_record mrs1)) e1
                Hm1 Hr Hf1) as HC.
  destruct (shr_fexp prec emax _ e1 loc_Exact) as [mrs2 e2].
  destruct HC as (Hv & Hm2 & He2).
  exists (inject_Z (shr_m mrs2) * bpow e2).
  split; [rewrite Hv, <- E1; exact Herr |].
  split.
  { intros El Hns. destruct (Hex El Hns) as [Em Eloc].
    rewrite Hv. apply Hexact. exact Eloc. }
  destruct (shr_m mrs2) as [| m | m] eqn:Em2; [| | lia].
  - split; [reflexivity | ring].
  - destruct (Z.leb e2 (emax - prec)) eqn:Ele.
    + split; reflexivity.
    + split; [reflexivity |].
      apply Z.leb_gt in Ele. change (emax - prec)%Z with 971%Z in Ele.
      assert (Hb : bpow 972 <= bpow e2) by (apply bpow_le; lia).
      assert (H1m : 1 <= inject_Z (Zpos m)).
      { change 1 with (inject_Z 1). rewrite <- Zle_Qle. lia. }
      pose proof (bpow_pos e2) as Hp.
      assert (0 <= (inject_Z (Zpos m) - 1) * bpow e2)
        by (apply Qmult_le_0_compat; lra).
      lra.
Qed.

Lemma located_lower m e l x : located m e l x -> inject_Z m * bpow e <= x.
Proof.
  pose proof (bpow_pos e) as HB.
  destruct l as [| []]; cbn [located]; intro H; lra.
Qed.

Lemma Zdigits2_lower m : (0 < m)%Z -> bpow (Zdigits2 m - 1) <= inject_Z m.
Proof.
  intro Hm. destruct (Zdigits2_bounds m Hm) as [Hl _].
  assert (Hd : (0 <= Zdigits2 m - 1)%Z).
  { rewrite Zdigits2_log2 by exact Hm. pose proof (Z.log2_nonneg m). lia. }
  rewrite bpow_Z by exact Hd. rewrite <- Zle_Qle. exact Hl.
Qed.

(* half a unit in the last place, against the value and the subnormal floor *)
Lemma half_ulp_bound m e x :
  (0 <= m)%Z -> inject_Z m * bpow e <= x ->
  (e <= fexp64 (Zdigits2 m + e))%Z ->
  bpow (Z.max e (fexp64 (Zdigits2 m + e)) - 1) <= bpow (-53) * x + bpow (-1075).
Proof.
  intros Hm Hx Hs.
  replace (Z.max e (fexp64 (Zdigits2 m + e))) with (fexp64 (Zdigits2 m + e)) by lia.
  pose proof (bpow_pos (-53)) as H53. pose proof (bpow_pos (-1075)) as H1075.
  pose proof (bpow_pos e) as He.
  assert (Hx0 : 0 <= x).
  { assert (0 <= inject_Z m) by (change 0 with (inject_Z 0); rewrite <- Zle_Qle; exact Hm).
    assert (0 <= inject_Z m * bpow e) by (apply Qmult_le_0_compat; lra). lra. }
  assert (Hux : 0 <= bpow (-53) * x) by (apply Qmult_le_0_compat; lra).
  unfold fexp64 in *.
  destruct (Z_le_dec (Zdigits2 m + e - 53) (-1074)) as [C | C].
  - replace (Z.max (Zdigits2 m + e - 53) (-1074)) with (-1074)%Z by lia.
    change (-1074 - 1)%Z with (-1075)%Z. lra.
  - replace (Z.max (Zdigits2 m + e - 53) (-1074)) with (Zdigits2 m + e - 53)%Z in * by lia.
    assert (Hmp : (0 < m)%Z).
    { destruct (Z.eq_dec m 0) as [-> | N]; [simpl in Hs; lia | lia]. }
    pose proof (Zdigits2_lower m Hmp) as Hd.
    assert (E : bpow (Zdigits2 m + e - 53 - 1)
                == bpow (-53) * (bpow (Zdigits2 m - 1) * bpow e)).
    { replace (Zdigits2 m + e - 53 - 1)%Z with (-53 + ((Zdigits2 m - 1) + e))%Z by lia.
      rewrite !bpow_add. reflexivity. }
    rewrite E.
    assert (bpow (Zdigits2 m - 1) * bpow e <= x).
    { assert (0 <= (inject_Z m - bpow (Zdigits2 m - 1)) * bpow e)
        by (apply Qmult_le_0_compat; lra).
      lra. }
    assert (0 <= bpow (-53) * (x - bpow (Zdigits2 m - 1) * bpow e))
      by (apply Qmult_le_0_compat; lra).
    lra.
Qed.

Lemma round_rel_error sx mx ex lx x :
  (0 <= mx)%Z -> located mx ex lx x ->
  lx = loc_Exact \/ (ex <= fexp64 (Zdigits2 mx + ex))%Z ->
  exists v : Q,
    Qabs (v - x) <= bpow (-53) * x + bpow (-1075)
    /\ rounded sx v (binary_round_aux prec emax sx mx ex lx).
Proof.
  intros Hm H Hcase.
  destruct (binary_round_aux_error sx mx ex lx x Hm H) as (v & Herr & Hex & Hr).
  exists v. split; [| exact Hr].
  pose proof (located_lower _ _ _ _ H) as Hlow.
  destruct (Z_le_dec ex (fexp64 (Zdigits2 mx + ex))) as [C | C].
  - eapply Qle_trans; [exact Herr |]. apply half_ulp_bound; assumption.
  - destruct Hcase as [El | Hc]; [| lia].
    rewrite (Hex El) by lia.
    setoid_replace (x - x) with 0 by ring. cbn [Qabs Z.abs Qnum].
    pose proof (bpow_pos (-53)) as H53. pose proof (bpow_pos (-1075)) as H1075.
    pose proof (bpow_pos ex) as He.
    assert (0 <= inject_Z mx) by (change 0 with (inject_Z 0); rewrite <- Zle_Qle; exact Hm).
    assert (0 <= inject_Z mx * bpow ex) by (apply Qmult_le_0_compat; lra).
    assert (0 <= bpow (-53) * x) by (apply Qmult_le_0_compat; lra).
    change (Qabs 0) with 0. lra.
Qed.

(* multiplication of two finite numbers *)
Lemma SFmul_error sx mx ex sy my ey :
  exists v : Q,
    let x := (inject_Z (Zpos mx) * bpow ex) * (inject_Z (Zpos my) * bpow ey) in
    Qabs (v - x) <= bpow (-53) * x + bpow (-1075)
    /\ rounded (xorb sx sy) v
         (SFmul prec emax (S754_finite sx mx ex) (S754_finite sy my ey)).
Proof.
  cbn [SFmul].
  apply round_rel_error; [lia | | left; reflexivity].
  cbn [located]. rewrite bpow_add. change (Zpos (mx * my)) with (Zpos mx * Zpos my)%Z.
  rewrite inject_Z_mult. ring.
Qed.

Lemma new_location_spec m r :
  (0 < m)%Z -> (0 <= r < m)%Z ->
  match new_location m r with
  | loc_Exact => r = 0%Z
  | loc_Inexact Lt => (0 < r /\ 2 * r < m)%Z
  | loc_Inexact Eq => (2 * r = m)%Z
  | loc_Inexact Gt => (m < 2 * r)%Z
  end.
Proof.
  intros Hm Hr. unfold new_location, new_location_even, new_location_odd.
  destruct (Z.even m) eqn:Ev; destruct (Z.eqb r 0) eqn:Er;
    try (apply Z.eqb_eq in Er; exact Er); apply Z.eqb_neq in Er.
  - destruct (Z.compare_spec (2 * r) m); lia.
  - assert (Hodd : Z.odd m = true) by (rewrite <- Z.negb_even, Ev; reflexivity).
    apply Z.odd_spec in Hodd. destruct Hodd as [k Hk].
    destruct (Z.compare_spec (2 * r + 1) m); lia.
Qed.

Lemma quotient_located (q r m : Z) (e : Z) (x : Q) :
  (0 < m)%Z -> (0 <= r < m)%Z ->
  x * inject_Z m == (inject_Z q * inject_Z m + inject_Z r) * bpow e ->
  located q e (new_location m r) x.
Proof.
  intros Hm Hr Hx. pose proof (new_location_spec m r Hm Hr) as L.
  pose proof (bpow_pos e) as HB.
  assert (HM : 0 < inject_Z m) by (change 0 with (inject_Z 0); rewrite <- Zlt_Qlt; exact Hm).
  assert (Hcancel : forall a b, a * inject_Z m < b * inject_Z m -> a < b).
  { intros a b Hab. apply (Qmult_lt_r a b (inject_Z m) HM). exact Hab. }
  assert (Hcancel_eq : forall a b, a * inject_Z m == b * inject_Z m -> a == b).
  { intros a b Hab. apply (Qmult_inj_r a b (inject_Z m)); [lra | exact Hab]. }
  destruct (new_location m r) as [| []]; cbn [located].
  - subst r. apply Hcancel_eq. rewrite Hx. change (inject_Z 0) with 0. ring.
  - apply Hcancel_eq. rewrite Hx.
    assert (E : inject_Z m == 2 * inject_Z r).
    { rewrite <- L, inject_Z_mult. reflexivity. }
    rewrite E. field.
  - destruct L as [L0 L1].
    assert (R0 : 0 < inject_Z r) by (change 0 with (inject_Z 0); rewrite <- Zlt_Qlt; exact L0).
    assert (R1 : 2 * inject_Z r < inject_Z m).
    { change 2 with (inject_Z 2). rewrite <- inject_Z_mult, <- Zlt_Qlt. exact L1. }
    assert (0 < inject_Z r * bpow e) by (apply Qmult_lt_0_compat; lra).
    assert (0 < (inject_Z m - 2 * inject_Z r) * bpow e) by (apply Qmult_lt_0_compat; lra).
    split; apply Hcancel; rewrite Hx; lra.
  - assert (R1 : inject_Z m < 2 * inject_Z r).
    { change 2 with (inject_Z 2). rewrite <- inject_Z_mult, <- Zlt_Qlt. exact L. }
    assert (R2 : inject_Z r < inject_Z m) by (rewrite <- Zlt_Qlt; lia).
    assert (0 < (2 * inject_Z r - inject_Z m) * bpow e) by (apply Qmult_lt_0_compat; lra).
    assert (0 < (inject_Z m - inject_Z r) * bpow e) by (apply Qmult_lt_0_compat; lra).
    split; apply Hcancel; rewrite Hx; lra.
Qed.

Lemma SFdiv_core_located m1 e1 m2 e2 :
  let '(q, e, l) := SFdiv_core_binary prec emax (Zpos m1) e1 (Zpos m2) e2 in
  located q e l ((inject_Z (Zpos m1) * bpow e1) / (inject_Z (Zpos m2) * bpow e2))
  /\ (0 <= q)%Z /\ (e <= fexp64 (Zdigits2 q + e))%Z.
Proof.
  unfold SFdiv_core_binary. rewrite fexp_64.
  set (D := (Zdigits2 (Zpos m1) + e1 - (Zdigits2 (Zpos m2) + e2))%Z).
  set (e := Z.min (fexp64 D) (e1 - e2)).
  set (s := (e1 - e2 - e)%Z).
  assert (Hs : (0 <= s)%Z) by (unfold s, e; lia).
  set (m' := match s with
             | Zpos _ => Z.shiftl (Zpos m1) s
             | Z0 => Zpos m1
             | Zneg _ => 0%Z
             end).
  assert (Hm' : m' = (Zpos m1 * 2 ^ s)%Z).
  { unfold m'. destruct s as [| p | p]; [simpl; lia | | lia].
    apply Z.shiftl_mul_pow2. lia. }
  assert (Hpow : (0 < 2 ^ s)%Z) by (apply Z.pow_pos_nonneg; lia).
  pose proof (Z_div_mod m' (Zpos m2) eq_refl) as Hdm.
  destruct (Z.div_eucl m' (Zpos m2)) as [q r]. destruct Hdm as [Hq Hr].
  assert (Hq0 : (0 <= q)%Z) by nia.
  split; [| split; [exact Hq0 |]].
  - apply quotient_located; [lia | exact Hr |].
    pose proof (bpow_pos e2) as H2.
    assert (HM2 : 0 < inject_Z (Zpos m2)) by reflexivity.
    assert (E1 : bpow e1 == bpow e2 * (bpow s * bpow e)).
    { rewrite <- !bpow_add. replace (e2 + (s + e))%Z with e1 by (unfold s; lia). reflexivity. }
    assert (E2 : inject_Z (Zpos m2) * inject_Z q + inject_Z r
                 == inject_Z (Zpos m1) * bpow s).
    { rewrite bpow_Z by exact Hs.
      rewrite <- !inject_Z_mult, <- inject_Z_plus, <- Hq, Hm'. reflexivity. }
    setoid_replace (inject_Z q * inject_Z (Zpos m2) + inject_Z r)
      with (inject_Z (Zpos m1) * bpow s) by (rewrite <- E2; ring).
    rewrite E1. field. split; lra.
  - assert (Hk : (D - e <= Zdigits2 q)%Z).
    { pose proof (Zdigits2_nonneg q).
      destruct (Z_le_dec (D - e) 0) as [C | C]; [lia |].
      set (k := (D - e)%Z) in *.
      destruct (Zdigits2_bounds (Zpos m1) eq_refl) as [Hl1 _].
      destruct (Zdigits2_bounds (Zpos m2) eq_refl) as [_ Hu2].
      set (d1 := Zdigits2 (Zpos m1)) in *. set (d2 := Zdigits2 (Zpos m2)) in *.
      assert (Hd1 : (1 <= d1)%Z) by (unfold d1; simpl; lia).
      assert (Hd2 : (1 <= d2)%Z) by (unfold d2; simpl; lia).
      assert (Ek : (k - 1 + d2 = d1 - 1 + s)%Z) by (unfold k, D, s; lia).
      assert (Epow : (2 ^ (k - 1) * 2 ^ d2 = 2 ^ (d1 - 1) * 2 ^ s)%Z).
      { rewrite <- !Z.pow_add_r by lia. rewrite Ek. reflexivity. }
      assert (HA : (0 < 2 ^ (k - 1))%Z) by (apply Z.pow_pos_nonneg; lia).
      assert (Hqk : (2 ^ (k - 1) <= q)%Z) by nia.
      assert (Hqp : (0 < q)%Z) by lia.
      rewrite (Zdigits2_log2 q Hqp).
      apply (Z.log2_le_pow2 q (k - 1) Hqp) in Hqk. lia. }
    assert (Hmono : (fexp64 D <= fexp64 (Zdigits2 q + e))%Z)
      by (unfold fexp64; lia).
    unfold e in *. lia.
Qed.

(* division of two finite numbers *)
Lemma SFdiv_error sx mx ex sy my ey :
  exists v : Q,
    let x := (inject_Z (Zpos mx) * bpow ex) / (inject_Z (Zpos my) * bpow ey) in
    Qabs (v - x) <= bpow (-53) * x + bpow (-1075)
    /\ rounded (xorb sx sy) v
         (SFdiv prec emax (S754_finite sx mx ex) (S754_finite sy my ey)).
Proof.
  cbn [SFdiv].
  pose proof (SFdiv_core_located mx ex my ey) as H.
  destruct (SFdiv_core_binary prec emax (Zpos mx) ex (Zpos my) ey) as [[q e] l].
  destruct H as (Hl & Hq & He).
  apply round_rel_error; [exact Hq | exact Hl | right; exact He].
Qed.

Lemma bounded_canonical m e :
  bounded prec emax m e = true ->
  (Zdigits2 (Zpos m) <= 53)%Z /\ (-1074 <= e)%Z
  /\ (e = (-1074)%Z \/ Zdigits2 (Zpos m) = 53%Z).
Proof.
  unfold bounded, canonical_mantissa. rewrite fexp_64. intro H.
  apply andb_true_iff in H. destruct H as [H _]. apply Z.eqb_eq in H.
  change (Zpos (digits2_pos m)) with (Zdigits2 (Zpos m)) in H.
  unfold fexp64 in H. lia.
Qed.

Lemma SFleb_finite m1 e1 m2 e2 :
  bounded prec emax m1 e1 = true -> bounded prec emax m2 e2 = true ->
  SFleb (S754_finite false m1 e1) (S754_finite false m2 e2) = true ->
  inject_Z (Zpos m1) * bpow e1 <= inject_Z (Zpos m2) * bpow e2.
Proof.
  intros B1 B2 H.
  destruct (bounded_canonical _ _ B1) as (D1 & L1 & C1).
  destruct (bounded_canonical _ _ B2) as (D2 & L2 & C2).
  unfold SFleb, SFcompare in H.
  pose proof (bpow_pos e1) as P1. pose proof (bpow_pos e2) as P2.
  destruct (Z.compare_spec e1 e2) as [E | E | E].
  - subst e2. rewrite Pos.compare_cont_spec in H. cbn [Pos.switch_Eq] in H.
    assert (Hm : (Zpos m1 <= Zpos m2)%Z).
    { destruct (Pos.compare_spec m1 m2); try discriminate; lia. }
    rewrite Zle_Qle in Hm.
    assert (0 <= (inject_Z (Zpos m2) - inject_Z (Zpos m1)) * bpow e1)
      by (apply Qmult_le_0_compat; lra).
    lra.
  - assert (Hd2 : Zdigits2 (Zpos m2) = 53%Z) by lia.
    pose proof (Zdigits2_lower (Zpos m2) eq_refl) as Hl2. rewrite Hd2 in Hl2.
    change (53 - 1)%Z with 52%Z in Hl2.
    destruct (Zdigits2_bounds (Zpos m1) eq_refl) as [_ Hu1].
    assert (Hu : inject_Z (Zpos m1) <= bpow 53).
    { rewrite bpow_Z by lia. rewrite <- Zle_Qle.
      assert ((2 ^ Zdigits2 (Zpos m1) <= 2 ^ 53)%Z) by (apply Z.pow_le_mono_r; lia).
      lia. }
    assert (Hb : bpow 53 * bpow e1 <= bpow 52 * bpow e2).
    { rewrite <- !bpow_add. apply bpow_le. lia. }
    assert (0 <= (bpow 53 - inject_Z (Zpos m1)) * bpow e1)
      by (apply Qmult_le_0_compat; lra).
    assert (0 <= (inject_Z (Zpos m2) - bpow 52) * bpow e2)
      by (apply Qmult_le_0_compat; lra).
    lra.
  - discriminate H.
Qed.

Lemma bpow_m53 : bpow (-53) == 1 # 9007199254740992.
Proof. vm_compute. reflexivity. Qed.

Lemma bpow_m1075_le : bpow (-1075) <= 1 # 1267650600228229401496703205376.
Proof.
  apply Qle_trans with (bpow (-100)); [apply bpow_le; lia |].
  vm_compute. discriminate.
Qed.

Lemma bpow_32 : bpow 32 == 4294967296.
Proof. vm_compute. reflexivity. Qed.

(* the two roundings of (p / w) * w, composed *)
Lemma roundtrip_bound (P W v1 v2 : Q) :
  0 <= P -> P <= W -> 0 < W -> W <= 4294967296 ->
  Qabs (v1 - P / W) <= bpow (-53) * (P / W) + bpow (-1075) ->
  Qabs (v2 - v1 * W) <= bpow (-53) * (v1 * W) + bpow (-1075) ->
  Qabs (v2 - P) <= 1 # 1000000 /\ v1 <= 2 /\ v2 <= 8589934593.
Proof.
  intros HP HPW HW HW32 H1 H2.
  pose proof bpow_m1075_le as Heta. pose proof (bpow_pos (-1075)) as Heta0.
  rewrite bpow_m53 in H1, H2.
  set (eta := bpow (-1075)) in *. clearbody eta.
  assert (EX : P / W * W == P) by (field; lra).
  set (X := P / W) in *.
  assert (HX0 : 0 <= X).
  { unfold X. apply Qle_shift_div_l; [exact HW | lra]. }
  assert (HX1 : X <= 1).
  { unfold X. apply Qle_shift_div_r; [exact HW | lra]. }
  apply Qabs_Qle_condition in H1. apply Qabs_Qle_condition in H2.
  destruct H1 as [H1l H1u].
  assert (M1 : 0 <= ((1 # 9007199254740992) * X + eta - (v1 - X)) * W)
    by (apply Qmult_le_0_compat; lra).
  assert (M2 : 0 <= (v1 - X + ((1 # 9007199254740992) * X + eta)) * W)
    by (apply Qmult_le_0_compat; lra).
  assert (M3 : 0 <= eta * (4294967296 - W))
    by (apply Qmult_le_0_compat; lra).
  assert (M4 : 0 <= eta * W) by (apply Qmult_le_0_compat; lra).
  set (Y := v1 * W) in *.
  assert (EY1 : ((1 # 9007199254740992) * X + eta - (v1 - X)) * W
                == (1 # 9007199254740992) * P + eta * W - Y + P)
    by (unfold Y; rewrite <- EX; ring).
  assert (EY2 : (v1 - X + ((1 # 9007199254740992) * X + eta)) * W
                == Y - P + (1 # 9007199254740992) * P + eta * W)
    by (unfold Y; rewrite <- EX; ring).
  rewrite EY1 in M1. rewrite EY2 in M2.
  assert (E3 : eta * (4294967296 - W) == 4294967296 * eta - eta * W) by ring.
  rewrite E3 in M3.
  clearbody Y. set (EW := eta * W) in *. clearbody EW.
  split; [apply Qabs_Qle_condition; lra |]. split; lra.
Qed.

Lemma quotient_bound (P W v1 : Q) :
  0 <= P -> P <= W -> 0 < W ->
  Qabs (v1 - P / W) <= bpow (-53) * (P / W) + bpow (-1075) -> v1 <= 2.
Proof.
  intros HP HPW HW H1.
  pose proof bpow_m1075_le as Heta. rewrite bpow_m53 in H1.
  assert (HX0 : 0 <= P / W) by (apply Qle_shift_div_l; [exact HW | lra]).
  assert (HX1 : P / W <= 1) by (apply Qle_shift_div_r; [exact HW | lra]).
  apply Qabs_Qle_condition in H1. lra.
Qed.

Lemma bpow_972_large : 8589934593 < bpow 972.
Proof.
  apply Qlt_le_trans with (bpow 34); [vm_compute; reflexivity | apply bpow_le; lia].
Qed.

Local Open Scope float_scope.
Local Set Warnings "-inexact-float".

Lemma Prim2SF_zero : Prim2SF 0 = S754_zero false.
Proof. reflexivity. Qed.

Lemma Prim2SF_2p32 :
  Prim2SF 4294967296 = S754_finite false 4503599627370496 (-20).
Proof. reflexivity. Qed.

Theorem roundtrip_axis (p w : float) :
  (0 <? w) = true -> (w <=? 4294967296) = true ->
  (0 <=? p) = true -> (p <=? w) = true ->
  isFinite (p / w * w) = true
  /\ (Qabs (F2Q (p / w * w) - F2Q p) <= 1 # 1000000)%Q.
Proof.
  intros Hw0 Hw32 Hp0 Hpw.
  rewrite ltb_spec in Hw0. rewrite leb_spec in Hw32, Hp0, Hpw.
  rewrite Prim2SF_zero in Hw0, Hp0. rewrite Prim2SF_2p32 in Hw32.
  pose proof (Prim2SF_valid w) as Vw. pose proof (Prim2SF_valid p) as Vp.
  unfold isFinite, F2Q. rewrite mul_spec, div_spec.
  unfold SF64mul, SF64div.
  destruct (Prim2SF w) as [sw | sw | | sw mw ew]; try discriminate Hw0;
    destruct sw; try discriminate Hw0; try discriminate Hw32.
  cbn [valid_binary] in Vw.
  assert (HW32 : (inject_Z (Zpos mw) * bpow ew <= 4294967296)%Q).
  { pose proof (SFleb_finite mw ew 4503599627370496 (-20) Vw eq_refl Hw32) as H.
    eapply Qle_trans; [exact H |]. vm_compute. discriminate. }
  assert (HW0 : (0 < inject_Z (Zpos mw) * bpow ew)%Q).
  { apply Qmult_lt_0_compat; [reflexivity | apply bpow_pos]. }
  destruct (Prim2SF p) as [sp | sp | | sp mp ep]; try discriminate Hp0.
  - cbn [SFdiv SFmul SF2Q]. split; [reflexivity |]. vm_compute. discriminate.
  - destruct sp; try discriminate Hp0; discriminate Hpw.
  - destruct sp; try discriminate Hp0.
    cbn [valid_binary] in Vp.
    pose proof (SFleb_finite mp ep mw ew Vp Vw Hpw) as HPW.
    assert (HP0 : (0 <= inject_Z (Zpos mp) * bpow ep)%Q).
    { apply Qmult_le_0_compat; [discriminate | apply Qlt_le_weak, bpow_pos]. }
    destruct (SFdiv_error false mp ep false mw ew) as (v1 & H1 & R1).
    cbv zeta in H1. cbn [xorb] in R1.
    cbn [SF2Q].
    set (P := (inject_Z (Zpos mp) * bpow ep)%Q) in *.
    set (W := (inject_Z (Zpos mw) * bpow ew)%Q) in *.
    destruct (SFdiv prec emax (S754_finite false mp ep) (S754_finite false mw ew))
      as [sq | sq | | sq mq eq]; cbn [rounded] in R1.
    + destruct R1 as [-> E1]. cbn [SFmul SF2Q]. split; [reflexivity |].
      apply (roundtrip_bound P W v1 0 HP0 HPW HW0 HW32 H1).
      rewrite E1. apply Qabs_Qle_condition.
      pose proof (bpow_pos (-1075)). lra.
    + exfalso. destruct R1 as [_ E1].
      pose proof (quotient_bound P W v1 HP0 HPW HW0 H1).
      pose proof bpow_972_large. lra.
    + contradiction.
    + destruct R1 as [-> E1].
      destruct (SFmul_error false mq eq false mw ew) as (v2 & H2 & R2).
      cbv zeta in H2. cbn [xorb] in R2. fold W in H2. rewrite <- E1 in H2.
      destruct (roundtrip_bound P W v1 v2 HP0 HPW HW0 HW32 H1 H2) as (Hfin & _ & Hv2).
      destruct (SFmul prec emax (S754_finite false mq eq) (S754_finite false mw ew))
        as [sr | sr | | sr mr er]; cbn [rounded] in R2.
      * destruct R2 as [_ E2]. cbn [SF2Q]. split; [reflexivity |].
        rewrite <- E2. exact Hfin.
      * exfalso. destruct R2 as [_ E2]. pose proof bpow_972_large. lra.
      * contradiction.
      * destruct R2 as [-> E2]. cbn [SF2Q]. split; [reflexivity |].
        rewrite <- E2. exact Hfin.
Qed.

Lemma roundtrip_axis_witness :
  isFinite (100 / 800 * 800) = true
  /\ (Qabs (F2Q (100 / 800 * 800) - F2Q 100) <= 1 # 1000000)%Q.
Proof. apply roundtrip_axis; reflexivity. Defined.

End Binary64Rounding.

(** ** C1: normalising and composing a path *)

Section RoundTrip.
Import PDFViewer Stated.
Local Open Scope Q_scope.



Lemma roundtrip_segments (w h : Q) (pts : list (Point Q)) :
  0 < w -> 0 < h -> Forall (storedAsDecimals w h) pts -> forall index,
  Forall2 (fun p q => px q == px p /\ py q == py p) pts
    (pathCoords (absolutePath w h (pathSegments w h index pts))).
Proof.
  intros Hw Hh Hpts.
  induction Hpts as [| p rest [Hx Hy] _ IH]; intro index.
  - constructor.
  - unfold printsDecimal in Hx, Hy.
    cbn [pathSegments absolutePath]. rewrite Hx, Hy. cbn [pathCoords].
    constructor; [| apply IH].
    cbn [px py num_div num_mul Q_JSNumber]. split; field; lra.
Qed.

(* the law in exact arithmetic: the composed point is the drawn point *)
Lemma roundtrip_exact (w h : Q) (pts : list (Point Q)) :
  0 < w -> 0 < h -> Forall (inSurface w h) pts ->
  Forall (storedAsDecimals w h) pts ->
  Forall2 (within (1 # 1000000)) pts
    (pathCoords (absolutePath w h (pathString w h pts))).
Proof.
  intros Hw Hh _ Hdec. unfold pathString.
  eapply Forall2_impl; [| apply roundtrip_segments; assumption].
  intros p q [Hx Hy]. unfold within. rewrite Hx, Hy.
  setoid_replace (px p - px p) with 0 by ring.
  setoid_replace (py p - py p) with 0 by ring.
  split; discriminate.
Qed.

End RoundTrip.

Section RoundTripBinary64.
Import PDFViewer Stated Binary64.
Local Open Scope float_scope.

Lemma roundtrip_binary64_segments (w h : float) (pts : list (Point float)) :
  surfaceDimension w -> surfaceDimension h -> Forall (onSurface w h) pts ->
  Forall (storedAsDecimals w h) pts ->
  forall index,
  Forall2 (backWithin (1 # 1000000)) pts
    (pathCoords (absolutePath w h (pathSegments w h index pts))).
Proof.
  intros [Hw0 Hw1] [Hh0 Hh1] Hpts.
  induction Hpts as [| p rest [[Hx0 Hx1] [Hy0 Hy1]] _ IH];
    intros Hdec index.
  - constructor.
  - inversion Hdec as [| ? ? [Hx Hy] Hrest]; subst.
    unfold printsDecimal in Hx, Hy.
    cbn [pathSegments absolutePath]. rewrite Hx, Hy. cbn [pathCoords].
    constructor; [| apply IH; exact Hrest].
    unfold backWithin. cbn [px py num_div num_mul float_JSNumber].
    split; apply roundtrip_axis; assumption.
Qed.

(* For every canvas of width w > 0 and height h > 0 (up to 2^32, the range
   of canvas.width) and points inside [0,w] x [0,h] whose normalised
   coordinates are stored as decimals, the path that handleMouseUp stores,
   composed again by renderSavedHighlights at the same dimensions, gives
   every point back within 1e-6: each coordinate composed is finite and
   differs from the one drawn by at most 1e-6. *)
Lemma roundtrip_stored_decimals (w h : float) (pts : list (Point float)) :
  surfaceDimension w -> surfaceDimension h -> Forall (onSurface w h) pts ->
  Forall (storedAsDecimals w h) pts ->
  Forall2 (backWithin (1 # 1000000)) pts
    (pathCoords (absolutePath w h (pathString w h pts))).
Proof.
  intros Hw Hh Hpts Hdec. unfold pathString.
  apply roundtrip_binary64_segments; assumption.
Qed.

Lemma roundtrip_stored_decimals_example :
  Forall2 (backWithin (1 # 1000000))
    [mkPoint 100 100; mkPoint 200.5 1000]
    (pathCoords (absolutePath 800 1000
       (pathString 800 1000 [mkPoint 100 100; mkPoint 200.5 1000]))).
Proof.
  apply (@roundtrip_stored_decimals 800 1000).
  - split; reflexivity.
  - split; reflexivity.
  - repeat constructor.
  - repeat constructor; vm_compute; reflexivity.
Qed.

(** C1 fails on the code at a point next to the left edge.  On an
    800 x 1000 canvas the stroke from (0.00048828125, 100) to (200, 200)
    lies on the surface; its first coordinate is stored as
    6.103515625e-7, a text with an exponent, which the pattern of
    renderSavedHighlights does not read as a number: the segment is not
    converted back, the path composed at the same dimensions starts at
    (6.1e-7, 0.1) and not within 1e-6 of the point drawn. *)
Theorem roundtrip_lost_on_exponent_text :
  Forall (onSurface 800 1000) edgeStroke
  /\ pathString 800 1000 edgeStroke
     = [Cmd cmdM; Num (0.00048828125 / 800); Num (100 / 1000);
        Cmd cmdL; Num (200 / 800); Num (200 / 1000)]
  /\ num_text (0.00048828125 / 800) = mkText false (Exponent 6.103515625 (-7))
  /\ (let '(v1, db1, _) :=
        handleMouseDown 0.00048828125 100 (drawingViewer 800 1000 draw)
          (Repo.mkDB [] []) in
      let '(v2, db2, _) := handleMouseMove 200 200 1 v1 db1 in
      let '(v3, db3, _) := handleMouseUp "m1" "2026-01-01T00:00:00.000Z" "" v2 db2 in
      map (fun path => pathCoords (d path))
        (renderSavedHighlights (renderCompleted 800 1000 v3))
      = [[mkPoint (0.00048828125 / 800) (100 / 1000); mkPoint 200 200]])
  /\ ~ backWithin (1 # 1000000) (mkPoint 0.00048828125 100)
         (mkPoint (0.00048828125 / 800) (100 / 1000)).
Proof.
  split; [repeat constructor |].
  split; [reflexivity |].
  split; [vm_compute; reflexivity |].
  split; [vm_compute; reflexivity |].
  intros [_ [_ Hy]]. vm_compute in Hy. apply Hy. reflexivity.
Qed.

(* the range of the canvas matters: at a width of 1.68e12 the coordinate
   213350159993 comes back 2^-15 away *)
Lemma roundtrip_beyond_canvas_range :
  (F2Q (213350159993 / 1684542136043 * 1684542136043) - F2Q 213350159993
   == 1 # 32768)%Q.
Proof. vm_compute. reflexivity. Qed.

End RoundTripBinary64.

(** ** C2 and C8: the two scenarios, computed in binary64 *)

Section Scenarios.
Import PDFViewer Stated.
Local Open Scope float_scope.

Lemma stroke_pathString :
  pathString 800 1000 [mkPoint 100 100; mkPoint 200 200]
  = [Cmd cmdM; Num 0.125; Num 0x1.999999999999ap-4;
     Cmd cmdL; Num 0.25; Num 0x1.999999999999ap-3].
Proof. vm_compute. reflexivity. Qed.

Lemma stroke_absolutePath :
  absolutePath 1600 2000
    [Cmd cmdM; Num 0.125; Num 0x1.999999999999ap-4;
     Cmd cmdL; Num 0.25; Num 0x1.999999999999ap-3]
  = [SvgCmd cmdM; SvgNum 200; SvgNum 200; SvgCmd cmdL; SvgNum 400; SvgNum 400].
Proof. vm_compute. reflexivity. Qed.

(** C2. On an 800 x 1000 canvas in draw mode, pressing at (100,100), moving
    to (200,200) and releasing stores a mark; after the page is rendered at
    1600 x 2000 the path composed for that mark runs exactly from (200,200)
    to (400,400). *)
Theorem stroke_zoom_scenario (v : Viewer float) (db : Repo.DB float)
  (markId now selectedText : string) :
  highlightMode v = draw -> canvasWidth v = 800 -> canvasHeight v = 1000 ->
  let '(v1, db1, _) := handleMouseDown 100 100 v db in
  let '(v2, db2, _) := handleMouseMove 200 200 1 v1 db1 in
  let '(v3, db3, _) := handleMouseUp markId now selectedText v2 db2 in
  let v4 := renderCompleted 1600 2000 v3 in
  exists mark path,
    In mark (highlights v3) /\ HighlightMark.mark_id mark = markId
    /\ In path (renderSavedHighlights v4)
    /\ d path = absolutePath 1600 2000 (HighlightMark.path_data mark)
    /\ pathCoords (d path) = [mkPoint 200 200; mkPoint 400 400].
Proof.
  intros Hmode Hw Hh.
  unfold handleMouseDown. rewrite Hmode.
  unfold handleMouseMove. cbn [highlightMode isDrawingHighlight setDrawingHighlight].
  rewrite Hmode.
  unfold handleMouseUp.
  cbn [highlightMode isDrawingHighlight setDrawingHighlight currentPath app
       List.length Nat.ltb Nat.leb andb canvasWidth canvasHeight scriptId
       currentPage userId highlightColor highlightThickness highlightOpacity].
  rewrite Hmode, Hw, Hh, stroke_pathString.
  cbn [andb Nat.ltb Nat.leb].
  set (newMark := HighlightMark.mk markId _ _ _ _ _ _ _).
  assert (Hin : In newMark
                  (Repo.getHighlightsForPage (scriptId v) (currentPage v) (userId v)
                     (Repo.saveHighlightMark newMark (userId v) db))).
  { apply In_getHighlightsForPage. repeat split.
    unfold Repo.saveHighlightMark; simpl. apply In_upsert_new. }
  exists newMark.
  exists (mkSvgPath (absolutePath 1600 2000 (HighlightMark.path_data newMark))
            (HighlightMark.color newMark) (HighlightMark.thickness newMark)
            (if truthy (HighlightMark.opacity newMark)
             then HighlightMark.opacity newMark else num_dec 4 10)).
  split; [exact Hin |]. split; [reflexivity |]. split.
  - unfold renderSavedHighlights. simpl.
    apply in_map_iff. exists newMark. split; [reflexivity | exact Hin].
  - split; [reflexivity |].
    cbn [d newMark HighlightMark.path_data].
    rewrite stroke_absolutePath. reflexivity.
Qed.


Lemma stroke_zoom_scenario_witness :
  let '(v1, db1, _) :=
    handleMouseDown 100 100 (drawingViewer 800 1000 draw) (Repo.mkDB [] []) in
  let '(v2, db2, _) := handleMouseMove 200 200 1 v1 db1 in
  let '(v3, db3, _) := handleMouseUp "m1" "2026-01-01T00:00:00.000Z" "" v2 db2 in
  let v4 := renderCompleted 1600 2000 v3 in
  exists mark path,
    In mark (highlights v3) /\ HighlightMark.mark_id mark = "m1"%string
    /\ In path (renderSavedHighlights v4)
    /\ d path = absolutePath 1600 2000 (HighlightMark.path_data mark)
    /\ pathCoords (d path) = [mkPoint 200 200; mkPoint 400 400].
Proof.
  apply (@stroke_zoom_scenario (drawingViewer 800 1000 draw) (Repo.mkDB [] [])
           "m1" "2026-01-01T00:00:00.000Z" ""); reflexivity.
Defined.


Lemma selection_always_completes {N} {JS : JSNumber N} {JM : JSMath N}
  (v : Viewer N) (db : Repo.DB N) (x y : N) (markId now selectedText : string) :
  highlightMode v = off ->
  let '(v1, db1, _) := handleMouseDown x y v db in
  handleMouseUp markId now selectedText v1 db1
  = (setSelection false None None v1, db,
     [OnClickComplete (currentPage v)
        (selectionBoxOf (canvasWidth v) (canvasHeight v) (mkPoint x y) (mkPoint x y))
        (textOrNull selectedText) SelText]).
Proof.
  intro Hmode. unfold handleMouseDown. rewrite Hmode.
  unfold handleMouseUp. cbn [highlightMode setSelection isDrawing selectionStart
    selectionEnd canvasWidth canvasHeight currentPage].
  rewrite Hmode. reflexivity.
Qed.

Local Set Warnings "-inexact-float".

Lemma degenerate_box :
  selectionBoxOf 800 1000 (mkPoint 50 50) (mkPoint 50 50)
  = SelectionBox.mk 0.0625 0.05 0 0.
Proof. vm_compute. reflexivity. Qed.

(** C8. In annotate mode a press and release at one point still fires
    onClickComplete, with the normalised rectangle of that point; pressed and
    released at (50,50) on an 800 x 1000 canvas the region is exactly
    {x: 0.0625, y: 0.05, width: 0, height: 0}. *)
Theorem degenerate_selection (v : Viewer float) (db : Repo.DB float)
  (markId now selectedText : string) :
  highlightMode v = off ->
  (forall x y,
     let '(v1, db1, _) := handleMouseDown x y v db in
     let '(_, _, fired) := handleMouseUp markId now selectedText v1 db1 in
     fired = [OnClickComplete (currentPage v)
                (selectionBoxOf (canvasWidth v) (canvasHeight v)
                   (mkPoint x y) (mkPoint x y))
                (textOrNull selectedText) SelText])
  /\ (canvasWidth v = 800 -> canvasHeight v = 1000 ->
      let '(v1, db1, _) := handleMouseDown 50 50 v db in
      let '(_, _, fired) := handleMouseUp markId now selectedText v1 db1 in
      fired = [OnClickComplete (currentPage v) (SelectionBox.mk 0.0625 0.05 0 0)
                 (textOrNull selectedText) SelText]).
Proof.
  intro Hmode. split.
  - intros x y.
    pose proof (selection_always_completes v db x y markId now selectedText Hmode) as E.
    destruct (handleMouseDown x y v db) as [[v1 db1] fx]. rewrite E. reflexivity.
  - intros Hw Hh.
    pose proof (selection_always_completes v db 50 50 markId now selectedText Hmode) as E.
    destruct (handleMouseDown 50 50 v db) as [[v1 db1] fx]. rewrite E.
    rewrite Hw, Hh, degenerate_box. reflexivity.
Qed.

Lemma degenerate_selection_witness :
  let '(v1, db1, _) :=
    handleMouseDown 50 50 (drawingViewer 800 1000 off) (Repo.mkDB [] []) in
  let '(_, _, fired) := handleMouseUp "m1" "2026-01-01T00:00:00.000Z" "" v1 db1 in
  fired = [OnClickComplete 1%Z (SelectionBox.mk 0.0625 0.05 0 0) None SelText].
Proof.
  refine (proj2 (@degenerate_selection (drawingViewer 800 1000 off) (Repo.mkDB [] [])
                   "m1" "2026-01-01T00:00:00.000Z" "" _) _ _); reflexivity.
Defined.

End Scenarios.

(** ** C3 and C4: the connector and the badge of a marker *)

Section Overlay.
Import PDFViewer Stated.
Local Open Scope Q_scope.

Lemma isLeftHalf_scale_free (x width w : Q) :
  0 < w ->
  Exact.ltb (x * w + width * w / 2) (w / 2) = Exact.ltb (x + width / 2) (1 / 2).
Proof.
  intro Hw.
  assert (E : x * w + width * w / 2 - w / 2 == (x + width / 2 - 1 / 2) * w) by field.
  destruct (Exact.ltb (x + width / 2) (1 / 2)) eqn:B.
  - apply Exact_ltb_lt in B. apply Exact_ltb_lt.
    assert (P : 0 < (1 / 2 - (x + width / 2)) * w) by (apply Qmult_lt_0_compat; lra).
    lra.
  - destruct (Exact.ltb (x * w + width * w / 2) (w / 2)) eqn:B'; [| reflexivity].
    apply Exact_ltb_lt in B'.
    assert (B0 : ~ x + width / 2 < 1 / 2).
    { intro C. apply Exact_ltb_lt in C. congruence. }
    assert (P : 0 <= (x + width / 2 - 1 / 2) * w) by (apply Qmult_le_0_compat; lra).
    lra.
Qed.




(** C4, as stated, fails on the direction of the 10px offset: for a marker
    in the left half the connector starts at the right edge (160px), the
    margin end is to its left (20px), and the middle point is to its right
    (170px), away from the margin. *)
Lemma offset_direction_counterexample :
  ~ offsetTowardsMargin (renderEntry 800 1000 None leftMarker).
Proof.
  unfold offsetTowardsMargin. cbn. intros [H _].
  assert (L : 20 < 1600 # 10) by reflexivity.
  specialize (H L). vm_compute in H. discriminate H.
Qed.

End Overlay.

Section Connector.
Import PDFViewer Stated.
Context {N : Type} {JS : JSNumber N}.
Local Open Scope js_scope.

(** C4, amended. For every marker of the current page renderHighlights
    paints a horizontal 3-point connector on the bottom edge of the anchor
    rectangle in screen space.  The margin target is the left one iff the
    horizontal centre of the rectangle is below pixelWidth / 2.  For a left
    target the connector runs from the right edge of the rectangle, through
    the point 10px further right (away from the rectangle and from the
    target margin), to x = 20; for a right target from the left edge,
    through the point 10px further left, to x = pixelWidth - 20. *)
Theorem connector_geometry (v : Viewer N) (entry : BlockingEntry.t N) :
  In entry (entries v) ->
  BlockingEntry.page_number entry = currentPage v ->
  let box := BlockingEntry.selection_box entry in
  let left := SelectionBox.x box * canvasWidth v in
  let right := left + SelectionBox.width box * canvasWidth v in
  let bottom :=
    SelectionBox.y box * canvasHeight v + SelectionBox.height box * canvasHeight v in
  let centre := left + SelectionBox.width box * canvasWidth v / num_of_Z 2 in
  exists a,
    In a (renderHighlights v)
    /\ click_target a = BlockingEntry.entry_id entry
    /\ polyline_points a =
         if centre <? canvasWidth v / num_of_Z 2
         then [(right, bottom); (right + num_of_Z 10, bottom); (num_of_Z 20, bottom)]
         else [(left, bottom); (left - num_of_Z 10, bottom);
               (canvasWidth v - num_of_Z 20, bottom)].
Proof.
  intros Hin Hpage.
  exists (renderEntry (canvasWidth v) (canvasHeight v) (selectedEntryId v) entry).
  split; [| split].
  - unfold renderHighlights. apply in_map. apply filter_In. split; [exact Hin |].
    apply Z.eqb_eq. exact Hpage.
  - reflexivity.
  - unfold renderEntry. cbn [polyline_points].
    destruct (_ <? _); reflexivity.
Qed.

(* nothing is painted for a marker of another page *)
Lemma renderHighlights_current_page (v : Viewer N) (a : Annotation N) :
  In a (renderHighlights v) ->
  exists entry,
    In entry (entries v) /\ BlockingEntry.page_number entry = currentPage v
    /\ a = renderEntry (canvasWidth v) (canvasHeight v) (selectedEntryId v) entry.
Proof.
  unfold renderHighlights. intro H. apply in_map_iff in H.
  destruct H as [entry [Ha Hin]]. apply filter_In in Hin. destruct Hin as [Hin Hp].
  apply Z.eqb_eq in Hp. exists entry. auto.
Qed.

End Connector.

Section ConnectorWitness.
Import PDFViewer Stated.
Local Open Scope Q_scope.

Lemma connector_geometry_witness :
  exists a,
    In a (renderHighlights (markerViewer 800 1000 [leftMarker]))
    /\ click_target a = "e1"%string
    /\ polyline_points a =
         [((1 # 10) * 800 + (1 # 10) * 800, (1 # 10) * 1000 + (1 # 10) * 1000);
          ((1 # 10) * 800 + (1 # 10) * 800 + 10, (1 # 10) * 1000 + (1 # 10) * 1000);
          (20, (1 # 10) * 1000 + (1 # 10) * 1000)].
Proof.
  destruct (@connector_geometry Q _ (markerViewer 800 1000 [leftMarker]) leftMarker)
    as [a (Hin & Hid & Hpts)].
  - simpl. left. reflexivity.
  - reflexivity.
  - exists a. split; [exact Hin |]. split; [exact Hid |].
    rewrite Hpts. vm_compute. reflexivity.
Defined.

End ConnectorWitness.

(** ** C6, C7 and C10: erasing and undoing strokes *)

Section EraseUndo.
Import PDFViewer Stated.
Context {N : Type} {JS : JSNumber N} {JM : JSMath N}.

(* the inner loop tests the numbers read from the path two at a time *)
Lemma nearPath_pairs (normX normY : N) (numbers : list N) :
  nearPath normX normY numbers = existsb (nearPoint normX normY) (pairs numbers).
Proof.
  revert numbers. fix IH 1. intros [| x [| y rest]]; try reflexivity.
  cbn [nearPath pairs existsb]. rewrite IH. unfold nearPoint. cbn [px py].
  destruct (num_ltb _ _); reflexivity.
Qed.

(* the numbers read from the path of a drawn stroke are its normalised
   coordinates, when these are stored as decimals *)
Lemma matchNumbers_pathSegments (w h : N) (points : list (Point N)) :
  Forall (storedAsDecimals w h) points -> forall index,
  pairs (matchNumbers (pathSegments w h index points))
  = map (fun p => mkPoint (px p / w)%js (py p / h)%js) points.
Proof.
  induction 1 as [| p rest [Hx Hy] _ IH]; intro index; [reflexivity |].
  unfold printsDecimal in Hx, Hy.
  cbn [pathSegments matchNumbers]. unfold digitRuns. rewrite Hx, Hy.
  cbn [unsigned app pairs map]. rewrite IH. reflexivity.
Qed.

(* the outer loop stops at the first mark with a near point *)
Lemma eraseTarget_first (normX normY : N) (marks : list (HighlightMark.t N)) :
  match eraseTarget normX normY marks with
  | Some mark =>
      exists before after,
        marks = before ++ mark :: after
        /\ Forall (fun m => nearMark normX normY m = false) before
        /\ nearMark normX normY mark = true
  | None => Forall (fun m => nearMark normX normY m = false) marks
  end.
Proof.
  induction marks as [| m rest IH]; cbn [eraseTarget]; [constructor |].
  fold (nearMark normX normY m).
  destruct (nearMark normX normY m) eqn:E.
  - exists [], rest. repeat split; [constructor | exact E].
  - destruct (eraseTarget normX normY rest) as [mark |].
    + destruct IH as (before & after & Hm & Hb & Hn).
      exists (m :: before), after. rewrite Hm. repeat split; auto.
    + constructor; assumption.
Qed.

Lemma deleteHighlightMark_idem (markId userId : string) (db : Repo.DB N) :
  Repo.deleteHighlightMark markId userId (Repo.deleteHighlightMark markId userId db)
  = Repo.deleteHighlightMark markId userId db.
Proof.
  unfold Repo.deleteHighlightMark. cbn [Repo.blocking_entries Repo.highlight_marks].
  f_equal. induction (Repo.highlight_marks db) as [| r rest IH]; [reflexivity |].
  cbn [filter]. destruct (negb _) eqn:E; cbn [filter]; [rewrite E, IH |]; auto.
Qed.

Lemma undo_step (v : Viewer N) (db : Repo.DB N) (h : list string) (lastId : string) :
  highlightHistory v = h ++ [lastId] ->
  handleUndoHighlight v db
  = (setHighlightHistory h
       (setHighlights
          (Repo.getHighlightsForPage (scriptId v) (currentPage v) (userId v)
             (Repo.deleteHighlightMark lastId (userId v) db)) v),
     Repo.deleteHighlightMark lastId (userId v) db,
     [DeleteHighlightMark lastId (userId v);
      GetHighlightsForPage (scriptId v) (currentPage v) (userId v)]).
Proof.
  intro Hh. unfold handleUndoHighlight.
  rewrite Hh, rev_unit, removelast_last. reflexivity.
Qed.

Lemma undo_empty (v : Viewer N) (db : Repo.DB N) :
  highlightHistory v = [] -> handleUndoHighlight v db = (v, db, []).
Proof. intro Hh. unfold handleUndoHighlight. rewrite Hh. reflexivity. Qed.

Lemma drawStroke_pushes (markId now : string) (p q : Point N) (v : Viewer N)
  (db : Repo.DB N) :
  highlightMode v = draw ->
  highlightMode (fst (drawStroke markId now p q v db)) = draw
  /\ highlightHistory (fst (drawStroke markId now p q v db))
     = highlightHistory v ++ [markId].
Proof.
  intro Hmode. unfold drawStroke, handleMouseDown. rewrite Hmode.
  unfold handleMouseMove.
  cbn [highlightMode isDrawingHighlight setDrawingHighlight]. rewrite Hmode.
  unfold handleMouseUp.
  cbn [highlightMode isDrawingHighlight setDrawingHighlight currentPath app
       List.length Nat.ltb Nat.leb andb]. rewrite Hmode.
  cbn. auto.
Qed.


(* a deleted mark is in no row of its user *)
Lemma deleteHighlightMark_absent (markId userId : string) (db : Repo.DB N) :
  Forall (fun r => HighlightMark.mark_id (Repo.payload r) <> markId
                   \/ Repo.user_id r <> userId)
         (Repo.highlight_marks (Repo.deleteHighlightMark markId userId db)).
Proof.
  unfold Repo.deleteHighlightMark. cbn [Repo.highlight_marks].
  apply Forall_forall. intros r Hin. apply filter_In in Hin. destruct Hin as [_ Hf].
  apply negb_true_iff, andb_false_iff in Hf.
  destruct Hf as [Hf | Hf]; apply String.eqb_neq in Hf; auto.
Qed.

(** C10. An erase hit deletes the stroke from the repository and leaves its
    id in the undo history.  If that id is on top of the history, the next
    Undo pops it and asks the repository again to delete the stroke, which
    is already gone: the stored strokes and the strokes shown are the same
    as before the Undo, and the history is one entry shorter. *)
Theorem undo_after_erase (v : Viewer N) (db : Repo.DB N) (x y : N)
  (mark : HighlightMark.t N) (h : list string) :
  highlightMode v = erase ->
  eraseTarget (num_div x (canvasWidth v)) (num_div y (canvasHeight v)) (highlights v)
  = Some mark ->
  highlightHistory v = h ++ [HighlightMark.mark_id mark] ->
  let '(v1, db1, fx1) := handleMouseDown x y v db in
  let '(v2, db2, fx2) := handleUndoHighlight v1 db1 in
  deletions fx1 = [HighlightMark.mark_id mark]
  /\ db1 = Repo.deleteHighlightMark (HighlightMark.mark_id mark) (userId v) db
  /\ Forall (fun r => HighlightMark.mark_id (Repo.payload r) <> HighlightMark.mark_id mark
                      \/ Repo.user_id r <> userId v)
            (Repo.highlight_marks db1)
  /\ highlightHistory v1 = h ++ [HighlightMark.mark_id mark]
  /\ deletions fx2 = [HighlightMark.mark_id mark]
  /\ db2 = db1
  /\ highlights v2 = highlights v1
  /\ highlightHistory v2 = h.
Proof.
  intros Hmode Ht Hh. unfold handleMouseDown. rewrite Hmode.
  unfold handleEraseAtPoint. rewrite Ht.
  rewrite (@undo_step _ _ h (HighlightMark.mark_id mark)); [| exact Hh].
  cbn [userId setHighlights scriptId currentPage highlights highlightHistory
       setHighlightHistory deletions].
  rewrite deleteHighlightMark_idem.
  repeat split; auto using deleteHighlightMark_absent.
Qed.

(* what the handler does, by the outcome of the hit-test *)
Lemma erase_first_hit (v : Viewer N) (db : Repo.DB N) (x y : N) :
  let normX := num_div x (canvasWidth v) in
  let normY := num_div y (canvasHeight v) in
  match eraseTarget normX normY (highlights v) with
  | Some mark =>
      (exists before after,
         highlights v = before ++ mark :: after
         /\ Forall (fun m => nearMark normX normY m = false) before
         /\ nearMark normX normY mark = true)
      /\ handleEraseAtPoint x y v db
         = (setHighlights
              (Repo.getHighlightsForPage (scriptId v) (currentPage v) (userId v)
                 (Repo.deleteHighlightMark (HighlightMark.mark_id mark) (userId v) db))
              v,
            Repo.deleteHighlightMark (HighlightMark.mark_id mark) (userId v) db,
            [DeleteHighlightMark (HighlightMark.mark_id mark) (userId v);
             GetHighlightsForPage (scriptId v) (currentPage v) (userId v)])
  | None =>
      Forall (fun m => nearMark normX normY m = false) (highlights v)
      /\ handleEraseAtPoint x y v db = (v, db, [])
  end.
Proof.
  intros normX normY.
  pose proof (eraseTarget_first normX normY (highlights v)) as F.
  unfold handleEraseAtPoint. fold normX normY.
  destruct (eraseTarget normX normY (highlights v)) as [mark |]; split; auto.
Qed.

End EraseUndo.

Section EraseProximity.
Import PDFViewer Stated.
Local Open Scope float_scope.

Lemma diagonalEnds_straight : straightDiagonal diagonalEnds.
Proof.
  unfold straightDiagonal. vm_compute.
  split; [reflexivity |]. split; [reflexivity |]. repeat constructor.
Qed.




Lemma undo_after_erase_witness :
  let '(v1, db1, fx1) :=
    handleMouseDown 400 500 diagonalDrawn (storeOf [diagonalSampled]) in
  let '(v2, db2, fx2) := handleUndoHighlight v1 db1 in
  deletions fx1 = ["diagonal"%string]
  /\ db1 = Repo.deleteHighlightMark "diagonal" "user" (storeOf [diagonalSampled])
  /\ Forall (fun r => HighlightMark.mark_id (Repo.payload r) <> "diagonal"%string
                      \/ Repo.user_id r <> "user"%string)
            (Repo.highlight_marks db1)
  /\ highlightHistory v1 = ["diagonal"%string]
  /\ deletions fx2 = ["diagonal"%string]
  /\ db2 = db1
  /\ highlights v2 = highlights v1
  /\ highlightHistory v2 = [].
Proof.
  apply (@undo_after_erase float _ _ diagonalDrawn (storeOf [diagonalSampled])
           400 500 diagonalSampled []).
  - reflexivity.
  - vm_compute. reflexivity.
  - reflexivity.
Defined.

End EraseProximity.

(** ** C5: the index checks of the three Save buttons *)

Section IndexValidation.
Import Stated.
Variable N : Type.

Lemma includes_In (l : list Z) (i : Z) : includes l i = true <-> In i l.
Proof.
  unfold includes. rewrite existsb_exists. split.
  - intros [x [Hin Hx]]. apply Z.eqb_eq in Hx. subst. exact Hin.
  - intro Hin. exists i. split; [exact Hin | apply Z.eqb_refl].
Qed.

(* the indices the dialogs check against are those of the live markers of
   the page on display *)
Lemma existingIndices_loaded (s : BlockingPage.State N) (db : Repo.DB N)
  (userId : string) (i : Z) :
  BlockingPage.user s = Some userId ->
  In i (BlockingPage.existingIndices (BlockingPage.loadEntries s db)) <->
  exists entry,
    In (Repo.mkRow userId entry) (Repo.blocking_entries db)
    /\ BlockingEntry.script_id entry = BlockingPage.script_id s
    /\ BlockingEntry.page_number entry = BlockingPage.currentPage s
    /\ BlockingEntry.index_number entry = i.
Proof.
  intro Hu. unfold BlockingPage.existingIndices, BlockingPage.loadEntries.
  rewrite Hu. cbn [BlockingPage.entries BlockingPage.setEntries].
  rewrite in_map_iff. unfold Repo.getEntriesForPage. split.
  - intros [entry [Hi Hin]]. exists entry.
    apply In_order_by, in_map_iff in Hin. destruct Hin as [[u e] [He Hin]].
    simpl in He. subst e. apply filter_In in Hin. destruct Hin as [Hin Hf].
    simpl in Hf. apply andb_true_iff in Hf. destruct Hf as [Hf Hu'].
    apply andb_true_iff in Hf. destruct Hf as [Hs Hp].
    apply String.eqb_eq in Hs, Hu'. apply Z.eqb_eq in Hp. subst u. auto.
  - intros [entry (Hin & Hs & Hp & Hi)]. exists entry. split; [exact Hi |].
    apply In_order_by, in_map_iff. exists (Repo.mkRow userId entry).
    split; [reflexivity |]. apply filter_In. split; [exact Hin |]. simpl.
    rewrite Hs, Hp, !String.eqb_refl, Z.eqb_refl. reflexivity.
Qed.

(* creation: an index below 1 or in use is refused, nothing is written *)
Lemma new_entry_validated (entryId now blockingText : string) (indexNumber : Z)
  (annotationType : AnnotationType) (s : BlockingPage.State N) (db : Repo.DB N) :
  (indexNumber < 1)%Z \/ In indexNumber (BlockingPage.existingIndices s) ->
  exists e,
    BlockingPage.saveNewEntry entryId now blockingText indexNumber annotationType s db
    = (Some e, s, db).
Proof.
  intro H. unfold BlockingPage.saveNewEntry, AddBlockingDialog.handleSave.
  destruct (trimIsEmpty blockingText); [eauto |].
  destruct (indexNumber <? 1)%Z eqn:E; [eauto |].
  destruct H as [H | H]; [apply Z.ltb_lt in H; congruence |].
  apply includes_In in H. rewrite H. eauto.
Qed.

(* the slide-out preview: the same two checks, nothing is written *)
Lemma preview_edit_validated (entry : BlockingEntry.t N) (userId : string)
  (editIndex : Z) (editType : AnnotationType) (editText now : string)
  (s : BlockingPage.State N) (db : Repo.DB N) :
  (editIndex < 1)%Z
  \/ (editIndex <> BlockingEntry.index_number entry
      /\ In editIndex (BlockingPage.existingIndices s)) ->
  exists e,
    BlockingPage.savePreviewEdit entry userId editIndex editType editText now s db
    = (CuePreview.Alert e, s, db).
Proof.
  intro H. unfold BlockingPage.savePreviewEdit, CuePreview.handleSave, CuePreview.validate.
  destruct (negb (editIndex =? BlockingEntry.index_number entry)%Z
            && includes (BlockingPage.existingIndices s) editIndex) eqn:D; [eauto |].
  destruct (editIndex <? 1)%Z eqn:E; [eauto |].
  destruct H as [H | [Hne Hin]]; [apply Z.ltb_lt in H; congruence |].
  apply includes_In in Hin. apply Z.eqb_neq in Hne. rewrite Hin, Hne in D.
  discriminate D.
Qed.

(* the chart: an index in use by another marker of the page is refused *)
Lemma chart_edit_rejects_duplicate (entry other : BlockingEntry.t N)
  (editText : string) (editIndex : Z) (editAnnotationType : AnnotationType)
  (now : string) (s : BlockingPage.State N) (db : Repo.DB N) :
  trimIsEmpty editText = false ->
  editIndex <> BlockingEntry.index_number entry ->
  In other (BlockingPage.entries s) ->
  BlockingEntry.entry_id other <> BlockingEntry.entry_id entry ->
  BlockingEntry.index_number other = editIndex ->
  BlockingPage.saveChartEdit entry editText editIndex editAnnotationType now s db
  = (BlockingChart.Alert (IndexInUse editIndex), s, db).
Proof.
  intros Ht Hne Hin Hid Hix.
  unfold BlockingPage.saveChartEdit, BlockingChart.handleSaveEdit.
  rewrite Ht. apply Z.eqb_neq in Hne. rewrite Hne. cbn [negb].
  unfold BlockingChart.findDuplicate.
  destruct (find _ (BlockingPage.entries s)) eqn:F; [reflexivity |].
  exfalso. apply (find_none _ _ F) in Hin.
  apply String.eqb_neq in Hid. apply Z.eqb_eq in Hix.
  rewrite Hid, Hix in Hin. discriminate Hin.
Qed.

(* the chart never writes: handleUpdateEntry only reloads the page *)
Lemma chart_edit_never_writes (entry : BlockingEntry.t N) (editText : string)
  (editIndex : Z) (editAnnotationType : AnnotationType) (now : string)
  (s : BlockingPage.State N) (db : Repo.DB N) :
  snd (BlockingPage.saveChartEdit entry editText editIndex editAnnotationType now s db)
  = db.
Proof.
  unfold BlockingPage.saveChartEdit.
  destruct (BlockingChart.handleSaveEdit _ _ _ _ _ _); reflexivity.
Qed.

End IndexValidation.

Section IndexScenario.
Import Stated.
Local Open Scope Z_scope.

(* uniqueness is per page: with marker 1 on page 2, a second marker 1 is
   refused on page 2 and stored on page 3 *)
Lemma index_is_page_scoped :
  (exists s, BlockingPage.saveNewEntry "e2" "2026-01-02T00:00:00.000Z" "cue" 1 Blocking
               (pageState 2) storeWithMarker
             = (Some (IndexInUse 1), s, storeWithMarker))
  /\ (exists s db,
        BlockingPage.saveNewEntry "e2" "2026-01-02T00:00:00.000Z" "cue" 1 Blocking
          (pageState 3) storeWithMarker
        = (None, s, db)
        /\ map (fun r => (BlockingEntry.page_number (Repo.payload r),
                          BlockingEntry.index_number (Repo.payload r)))
               (Repo.blocking_entries db)
           = [(2, 1); (3, 1)]).
Proof.
  split.
  - eexists. vm_compute. reflexivity.
  - do 2 eexists. split; vm_compute; reflexivity.
Qed.

(** C5, at the input where the code departs from it.  On the card of
    marker 1 the index is edited to 0 and Save is pressed:
    BlockingChart.handleSaveEdit raises no alert and hands the entry with
    index_number 0 to onUpdateEntry.  (The creation dialog and the preview
    refuse the same index, see new_entry_validated and
    preview_edit_validated.) *)
Theorem chart_edit_accepts_index_zero :
  exists updated,
    BlockingChart.handleSaveEdit [markerOnPageTwo] markerOnPageTwo "cue" 0 Blocking
      "2026-01-02T00:00:00.000Z"
    = BlockingChart.OnUpdateEntry updated
    /\ BlockingEntry.index_number updated = 0
    /\ AddBlockingDialog.handleSave "cue" 0 Blocking [1] = AddBlockingDialog.SetError IndexBelowOne
    /\ CuePreview.validate markerOnPageTwo 0 Blocking "cue" "2026-01-02T00:00:00.000Z" [1]
       = CuePreview.Alert IndexBelowOne.
Proof.
  eexists. repeat split; vm_compute; reflexivity.
Qed.

End IndexScenario.

(** ** C9: render requests, cancellation and the overlay repaint *)

Section RenderPipeline.
Import Render Stated.
Variable Dims : Type.

Lemma nth_error_setStatus (l : list TaskStatus) (i j : nat) (st : TaskStatus) :
  nth_error (setStatus i st l) j
  = if (i =? j)%nat then
      match nth_error l j with Some _ => Some st | None => None end
    else nth_error l j.
Proof.
  revert i j. induction l as [| a rest IH]; intros [| i] [| j]; simpl; try reflexivity.
  - destruct (i =? j)%nat; reflexivity.
  - apply IH.
Qed.

(* a task that is cancelled or settled stays so, and adds no signal *)
Lemma step_stopped (e : Event Dims) (s : State Dims) (task : nat) :
  stopped s task ->
  stopped (step e s) task
  /\ (In (RenderComplete task) (trace (step e s)) -> In (RenderComplete task) (trace s)).
Proof.
  intro Hst.
  assert (Hlt : (task < List.length (tasks s))%nat).
  { apply nth_error_Some. destruct Hst as [H | H]; rewrite H; discriminate. }
  destruct e as [viewport | call | t ok |]; cbn [step].
  - split; [| auto]. unfold stopped. cbn [tasks].
    destruct (renderTaskRef s) as [t |]; [| exact Hst].
    unfold cancel. destruct (nth_error (tasks s) t) as [[| |] |] eqn:E; try exact Hst.
    rewrite nth_error_setStatus. destruct (t =? task)%nat eqn:Q; [| exact Hst].
    apply Nat.eqb_eq in Q. subst t. destruct Hst as [H | H]; rewrite H; auto.
  - destruct (nth_error (suspended s) call); [| auto].
    cbv zeta. cbn [tasks trace]. split.
    + unfold stopped. cbn [tasks]. rewrite nth_error_app1 by exact Hlt. exact Hst.
    + intro H. apply in_app_or in H. destruct H as [H | [H | []]]; [exact H | discriminate H].
  - destruct (nth_error (tasks s) t) as [[| |] |] eqn:E; [| | auto | auto].
    + assert (Hne : t <> task).
      { intro C. subst t. destruct Hst as [H | H]; congruence. }
      apply Nat.eqb_neq in Hne.
      destruct ok; unfold stopped; cbn [tasks trace]; rewrite nth_error_setStatus, Hne;
        (split; [exact Hst |]); [| auto].
      intro H. apply in_app_or in H. destruct H as [H | [H | [H | []]]];
        [exact H | | discriminate H].
      injection H as H. subst t. rewrite Nat.eqb_refl in Hne. discriminate Hne.
    + unfold stopped. cbn [tasks trace]. split; [| auto].
      rewrite nth_error_setStatus. destruct (t =? task)%nat; [| exact Hst].
      destruct Hst as [H | H]; rewrite H; auto.
  - destruct (0 <? pageRenderKey s)%nat; [| auto]. unfold stopped. cbn [tasks trace].
    split; [exact Hst |]. intro H.
    apply in_app_or in H. destruct H as [H | [H | []]]; [exact H | discriminate H].
Qed.

Lemma cancelled_never_signals (events : list (Event Dims)) :
  forall (s : State Dims) (task : nat),
  stopped s task ->
  In (RenderComplete task) (trace (run events s)) -> In (RenderComplete task) (trace s).
Proof.
  induction events as [| e rest IH]; intros s task Hst; [auto |].
  cbn [run fold_left]. intro H.
  destruct (@step_stopped e s task Hst) as [Hst' Hin].
  apply Hin. apply (IH (step e s) task Hst'). exact H.
Qed.


End RenderPipeline.

Section RenderSchedule.
Import Render Stated.


(* the discipline is met when nothing changes while a render is in flight *)
Lemma repaint_after_signal_in_sequence :
  repaintOnlyAfterSignal
    [RenderPage (800, 1000)%Z; PageLoaded 0; TaskSettles 0 true;
     OverlayDepsChange;
     RenderPage (1600, 2000)%Z; PageLoaded 0; TaskSettles 1 true].
Proof. vm_compute. reflexivity. Qed.


End RenderSchedule.

(** * Properties of the rest of the code *)

(** ** The order of binary64 numbers, and Math.min / Math.max *)

Section Binary64Order.
Local Open Scope float_scope.

Lemma compare_cont_Eq_opp (m1 m2 : positive) :
  Pos.compare_cont Eq m2 m1 = CompOpp (Pos.compare_cont Eq m1 m2).
Proof. apply (Pos.compare_antisym m1 m2). Qed.

Lemma SFcompare_antisym (x y : spec_float) :
  SFcompare y x = option_map CompOpp (SFcompare x y).
Proof.
  destruct x as [sx | sx | | sx mx ex], y as [sy | sy | | sy my ey];
    cbn [SFcompare option_map]; try reflexivity;
    try (destruct sx; reflexivity); try (destruct sy; reflexivity);
    try (destruct sx, sy; reflexivity).
  destruct sx, sy; try reflexivity;
    rewrite (Z.compare_antisym ex ey); destruct (ex ?= ey)%Z; cbn [CompOpp];
    try reflexivity; rewrite compare_cont_Eq_opp;
    destruct (Pos.compare_cont Eq mx my); reflexivity.
Qed.

Lemma SFcompare_refl (x : spec_float) :
  SFcompare x x = match x with S754_nan => None | _ => Some Eq end.
Proof.
  destruct x as [s | s | | s m e]; cbn [SFcompare]; try reflexivity.
  - destruct s; reflexivity.
  - rewrite Z.compare_refl.
    change (Pos.compare_cont Eq m m) with (Pos.compare m m).
    rewrite Pos.compare_refl. destruct s; reflexivity.
Qed.

Lemma SFcompare_total (x y : spec_float) :
  x <> S754_nan -> y <> S754_nan -> exists c, SFcompare x y = Some c.
Proof.
  intros Hx Hy.
  destruct x as [sx | sx | | sx mx ex], y as [sy | sy | | sy my ey];
    try congruence; cbn [SFcompare]; eauto.
Qed.

Lemma is_nan_Prim2SF (a : float) :
  is_nan a = match Prim2SF a with S754_nan => true | _ => false end.
Proof.
  unfold is_nan. rewrite eqb_spec. unfold SFeqb. rewrite SFcompare_refl.
  destruct (Prim2SF a); reflexivity.
Qed.

Lemma not_nan_Prim2SF (a : float) : is_nan a = false -> Prim2SF a <> S754_nan.
Proof. rewrite is_nan_Prim2SF. intros H E. rewrite E in H. discriminate H. Qed.

Lemma leb_refl (a : float) : is_nan a = false -> (a <=? a) = true.
Proof.
  intro Ha. rewrite leb_spec. unfold SFleb. rewrite SFcompare_refl.
  rewrite is_nan_Prim2SF in Ha. destruct (Prim2SF a); try reflexivity; discriminate Ha.
Qed.

Lemma ltb_leb (a b : float) : (a <? b) = true -> (a <=? b) = true.
Proof.
  rewrite ltb_spec, leb_spec. unfold SFltb, SFleb.
  destruct (SFcompare (Prim2SF a) (Prim2SF b)) as [[| |] |]; congruence.
Qed.

Lemma not_ltb_leb (a b : float) :
  is_nan a = false -> is_nan b = false -> (a <? b) = false -> (b <=? a) = true.
Proof.
  intros Ha Hb. rewrite ltb_spec, leb_spec. unfold SFltb, SFleb.
  rewrite (SFcompare_antisym (Prim2SF a) (Prim2SF b)).
  destruct (@SFcompare_total _ _ (@not_nan_Prim2SF a Ha) (@not_nan_Prim2SF b Hb)) as [c Hc].
  rewrite Hc. destruct c; cbn; congruence.
Qed.

(* Math.max of two numbers is one of them and below neither *)
Lemma Math_max_spec (a b : float) :
  is_nan a = false -> is_nan b = false ->
  (F64.max a b = a \/ F64.max a b = b)
  /\ (a <=? F64.max a b) = true /\ (b <=? F64.max a b) = true.
Proof.
  intros Ha Hb. unfold F64.max. rewrite Ha, Hb. cbn [orb].
  destruct (b <? a) eqn:Hba.
  - split; [left; reflexivity |]. split; [apply leb_refl; exact Ha | apply ltb_leb; exact Hba].
  - destruct (a <? b) eqn:Hab.
    + split; [right; reflexivity |].
      split; [apply ltb_leb; exact Hab | apply leb_refl; exact Hb].
    + pose proof (@not_ltb_leb b a Hb Ha Hba) as H1.
      pose proof (@not_ltb_leb a b Ha Hb Hab) as H2.
      destruct (F64.is_neg_zero a).
      * split; [right; reflexivity |]. split; [exact H1 | apply leb_refl; exact Hb].
      * split; [left; reflexivity |]. split; [apply leb_refl; exact Ha | exact H2].
Qed.

(* Math.min of two numbers is one of them and above neither *)
Lemma Math_min_spec (a b : float) :
  is_nan a = false -> is_nan b = false ->
  (F64.min a b = a \/ F64.min a b = b)
  /\ (F64.min a b <=? a) = true /\ (F64.min a b <=? b) = true.
Proof.
  intros Ha Hb. unfold F64.min. rewrite Ha, Hb. cbn [orb].
  destruct (a <? b) eqn:Hab.
  - split; [left; reflexivity |]. split; [apply leb_refl; exact Ha | apply ltb_leb; exact Hab].
  - destruct (b <? a) eqn:Hba.
    + split; [right; reflexivity |].
      split; [apply ltb_leb; exact Hba | apply leb_refl; exact Hb].
    + pose proof (@not_ltb_leb b a Hb Ha Hba) as H1.
      pose proof (@not_ltb_leb a b Ha Hb Hab) as H2.
      destruct (F64.is_neg_zero a).
      * split; [left; reflexivity |]. split; [apply leb_refl; exact Ha | exact H1].
      * split; [right; reflexivity |]. split; [exact H2 | apply leb_refl; exact Hb].
Qed.

(* with a NaN among the arguments both are NaN *)
Lemma Math_max_nan (a b : float) :
  is_nan a || is_nan b = true -> F64.max a b = nan.
Proof. intro H. unfold F64.max. rewrite H. reflexivity. Qed.

Lemma Math_min_nan (a b : float) :
  is_nan a || is_nan b = true -> F64.min a b = nan.
Proof. intro H. unfold F64.min. rewrite H. reflexivity. Qed.

End Binary64Order.

(** ** The zoom level *)

Section ZoomLevel.
Import Zoom.
Local Open Scope float_scope.

Lemma handleZoomIn_float (z : float) : handleZoomIn z = F64.min (z + 0.25) 3.
Proof. reflexivity. Qed.

Lemma handleZoomOut_float (z : float) : handleZoomOut z = F64.max (z - 0.25) 0.5.
Proof. reflexivity. Qed.

(** X1. Zooming in never leaves a level above 3.0 and zooming out never one
    below 0.5, whatever level the viewer starts from (the level read from
    localStorage is not checked): the new level is the raised level or 3.0,
    the lowered level or 0.5, and it is NaN only if the raised or lowered
    level is. *)
Theorem zoom_clamped (z : float) :
  (if is_nan (z + 0.25) then handleZoomIn z = nan
   else (handleZoomIn z = z + 0.25 \/ handleZoomIn z = 3)
        /\ (handleZoomIn z <=? 3) = true)
  /\ (if is_nan (z - 0.25) then handleZoomOut z = nan
      else (handleZoomOut z = z - 0.25 \/ handleZoomOut z = 0.5)
           /\ (0.5 <=? handleZoomOut z) = true).
Proof.
  rewrite handleZoomIn_float, handleZoomOut_float. split.
  - destruct (is_nan (z + 0.25)) eqn:E.
    + apply Math_min_nan. rewrite E. reflexivity.
    + destruct (@Math_min_spec (z + 0.25) 3 E eq_refl) as (H1 & _ & H3).
      split; assumption.
  - destruct (is_nan (z - 0.25)) eqn:E.
    + apply Math_max_nan. rewrite E. reflexivity.
    + destruct (@Math_max_spec (z - 0.25) 0.5 E eq_refl) as (H1 & _ & H3).
      split; assumption.
Qed.

Ltac on_levels H :=
  unfold levels in H; cbn [In] in H;
  repeat (destruct H as [H | H]; [subst; vm_compute; tauto |]);
  contradiction.

Lemma handleZoomIn_levels (z : float) : In z levels -> In (handleZoomIn z) levels.
Proof. intro H. on_levels H. Qed.

Lemma handleZoomOut_levels (z : float) : In z levels -> In (handleZoomOut z) levels.
Proof. intro H. on_levels H. Qed.

Lemma handleZoomReset_levels (z : float) : In (handleZoomReset z) levels.
Proof. vm_compute. tauto. Qed.

Lemma step_levels (e : Event) (z : float) : In z levels -> In (step e z) levels.
Proof.
  intro H. destruct e as [| | | ctrlKey metaKey key]; cbn [step].
  - destruct (z <=? 0.5); [exact H | apply handleZoomOut_levels; exact H].
  - destruct (3 <=? z); [exact H | apply handleZoomIn_levels; exact H].
  - apply handleZoomReset_levels.
  - unfold handleKeyDown.
    destruct (ctrlKey || metaKey); [| exact H].
    destruct (String.eqb key "=" || String.eqb key "+");
      [apply handleZoomIn_levels; exact H |].
    destruct (String.eqb key "-"); [apply handleZoomOut_levels; exact H |].
    destruct (String.eqb key "0"); [apply handleZoomReset_levels | exact H].
Qed.

Lemma run_levels (events : list Event) :
  forall z, In z levels -> In (run events z) levels.
Proof.
  induction events as [| e rest IH]; intros z H; [exact H |].
  cbn [run fold_left]. apply IH, step_levels, H.
Qed.

(** X2. From the default level 1.5, whatever the user does with the zoom
    buttons and the zoom keys, the level stays one of 0.5, 0.75, ..., 3.0 (an
    exact multiple of a quarter), hence between 50% and 300%. *)
Theorem zoom_stays_in_range (events : list Event) :
  let z := run events defaultZoom in
  In z levels /\ (0.5 <=? z) = true /\ (z <=? 3) = true.
Proof.
  cbv zeta.
  assert (H : In (run events defaultZoom) levels).
  { apply run_levels. vm_compute. tauto. }
  split; [exact H |].
  revert H. generalize (run events defaultZoom). intros z H.
  unfold levels in H. cbn [In] in H.
  repeat (destruct H as [H | H]; [subst; split; reflexivity |]).
  contradiction.
Qed.

(** X3. On the levels the user can reach, a step out undoes a step in
    below 300% and a step in undoes a step out above 50%; at 300% a step in
    and at 50% a step out change nothing. *)
Theorem zoom_steps_invert (events : list Event) (z : float) :
  z = run events defaultZoom ->
  (if z <? 3 then handleZoomOut (handleZoomIn z) = z else handleZoomIn z = z)
  /\ (if 0.5 <? z then handleZoomIn (handleZoomOut z) = z else handleZoomOut z = z).
Proof.
  intro Hz.
  assert (H : In z levels).
  { rewrite Hz. apply run_levels. vm_compute. tauto. }
  clear Hz. unfold levels in H. cbn [In] in H.
  repeat (destruct H as [H | H]; [subst; split; reflexivity |]).
  contradiction.
Qed.

Lemma zoom_steps_invert_witness :
  handleZoomOut (handleZoomIn 2.75) = 2.75 /\ handleZoomIn (handleZoomOut 2.75) = 2.75.
Proof.
  apply (@zoom_steps_invert [ClickZoomIn; KeyDown true false "+"; ClickZoomIn;
                             ClickZoomIn; KeyDown false true "="] 2.75).
  reflexivity.
Defined.

End ZoomLevel.

(** ** The splitter *)

Section SplitterWidth.
Import Splitter.
Local Open Scope float_scope.

(** X4. While the splitter is dragged the panel width is kept between 20
    and 60 percent wherever the pointer is, unless the percentage asked for
    is NaN (a container of width 0 with the pointer on its left edge), in
    which case the panel width becomes NaN; when the splitter is not dragged
    a pointer move leaves the width as it is. *)
Theorem splitter_width_constrained (isDragging : bool)
  (clientX left width panelWidth : float) :
  let w := handleMouseMove isDragging clientX left width panelWidth in
  if isDragging then
    if is_nan (newWidth clientX left width) then w = nan
    else (20 <=? w) = true /\ (w <=? 60) = true
  else w = panelWidth.
Proof.
  cbv zeta. unfold handleMouseMove.
  destruct isDragging; cbn [negb]; [| reflexivity].
  set (n := newWidth clientX left width).
  change (@Math_min float _) with F64.min. change (@Math_max float _) with F64.max.
  change (@num_of_Z float _ 20) with 20. change (@num_of_Z float _ 60) with 60.
  destruct (is_nan n) eqn:E.
  - rewrite (@Math_max_nan n 20) by (rewrite E; reflexivity). reflexivity.
  - destruct (@Math_max_spec n 20 E eq_refl) as (Hm & _ & H20).
    assert (Hn : is_nan (F64.max n 20) = false).
    { destruct Hm as [Hm | Hm]; rewrite Hm; [exact E | reflexivity]. }
    destruct (@Math_min_spec (F64.max n 20) 60 Hn eq_refl) as (Hr & _ & H60).
    split; [| exact H60].
    destruct Hr as [Hr | Hr]; rewrite Hr; [exact H20 | reflexivity].
Qed.

(* the edge: nothing to divide by *)
Lemma splitter_width_of_empty_container :
  handleMouseMove true 100 100 0 33 = nan
  /\ handleMouseMove true 250 100 0 33 = 60.
Proof. split; reflexivity. Qed.

End SplitterWidth.

(** ** Page navigation *)

Section PageNavigation.
Import Navigation.
Local Open Scope Z_scope.

Lemma pageOptions_range (totalPages : Z) (option : nat) (page : Z) :
  nth_error (pageOptions totalPages) option = Some page -> 1 <= page <= totalPages.
Proof.
  unfold pageOptions. intro H.
  apply nth_error_In, in_map_iff in H. destruct H as [i [Hi Hin]].
  apply in_seq in Hin. lia.
Qed.

Lemma step_in_range (totalPages : Z) (e : Event) (currentPage : Z) :
  1 <= currentPage <= totalPages -> 1 <= step totalPages e currentPage <= totalPages.
Proof.
  intro H. destruct e as [| | option]; cbn [step].
  - unfold canGoPrev. destruct (1 <? currentPage) eqn:E; [apply Z.ltb_lt in E |]; lia.
  - unfold canGoNext. destruct (currentPage <? totalPages) eqn:E;
      [apply Z.ltb_lt in E |]; lia.
  - destruct (nth_error (pageOptions totalPages) option) as [page |] eqn:E; [| exact H].
    apply pageOptions_range in E. exact E.
Qed.

(** X5. Page navigation never leaves the script: from a page between 1 and
    totalPages, any sequence of clicks on the two arrows (disabled at the
    first and at the last page) and of choices in the page select leaves the
    current page between 1 and totalPages, so the effect that renders the
    page always finds its guard true. *)
Theorem navigation_stays_in_script (totalPages currentPage : Z) (events : list Event) :
  1 <= currentPage <= totalPages ->
  1 <= run totalPages events currentPage <= totalPages
  /\ rendersPage (run totalPages events currentPage) totalPages = true.
Proof.
  intro H.
  assert (R : 1 <= run totalPages events currentPage <= totalPages).
  { revert currentPage H. induction events as [| e rest IH]; intros page H; [exact H |].
    cbn [run fold_left]. apply IH, step_in_range, H. }
  split; [exact R |]. unfold rendersPage.
  apply andb_true_iff. split; apply Z.leb_le; lia.
Qed.

Lemma navigation_stays_in_script_witness :
  1 <= run 3 [ClickPrev; ClickNext; ClickNext; ClickNext; SelectOption 7; SelectOption 1] 1 <= 3
  /\ rendersPage (run 3 [ClickPrev; ClickNext; ClickNext; ClickNext; SelectOption 7;
                         SelectOption 1] 1) 3 = true.
Proof.
  apply (@navigation_stays_in_script 3 1); lia.
Defined.

End PageNavigation.

(** ** Highlight presets *)

Section PresetChoice.
Import Presets.
Context {N : Type} {JS : JSNumber N}.

Lemma getPresetByName_name (p : HighlightPreset N) :
  In p HIGHLIGHT_PRESETS -> getPresetByName (name p) = Some p /\ name p <> ""%string
  /\ color p <> ""%string.
Proof.
  intro H. unfold HIGHLIGHT_PRESETS in H. cbn [In] in H.
  repeat (destruct H as [H | H];
          [subst p; split; [reflexivity | split; discriminate] |]).
  contradiction.
Qed.

(** X6. The preset chosen in the toolbar survives a reload: after
    handleSelectPreset on any of the six presets, whatever localStorage held
    before, the viewer starts again with that preset selected and with its
    colour as the highlight colour. *)
Theorem preset_survives_reload (preset : HighlightPreset N) (storage : LocalStorage.t) :
  In preset HIGHLIGHT_PRESETS ->
  let '(_, _, stored) := handleSelectPreset preset storage in
  initialPreset stored = preset
  /\ initialColor stored (initialPreset stored) = color preset.
Proof.
  intro H. destruct (@getPresetByName_name preset H) as (Hget & Hname & Hcolor).
  unfold handleSelectPreset.
  assert (P : initialPreset
                (LocalStorage.setItem "highlightColor" (color preset)
                   (LocalStorage.setItem "highlightPresetName" (name preset) storage))
              = preset).
  { unfold initialPreset. cbn [LocalStorage.setItem LocalStorage.getItem].
    cbn [String.eqb Ascii.eqb Bool.eqb]. rewrite Hget.
    apply String.eqb_neq in Hname. rewrite Hname. reflexivity. }
  split; [exact P |].
  unfold initialColor. cbn [LocalStorage.setItem LocalStorage.getItem].
  cbn [String.eqb Ascii.eqb Bool.eqb].
  apply String.eqb_neq in Hcolor. rewrite Hcolor. reflexivity.
Qed.

(* a stored name that no preset has, or no stored name, starts the viewer
   with Yellow *)
Lemma preset_falls_back (storage : LocalStorage.t) :
  (forall saved, LocalStorage.getItem "highlightPresetName" storage = Some saved ->
                 getPresetByName (N := N) saved = None) ->
  initialPreset storage = DEFAULT_PRESET.
Proof.
  intro H. unfold initialPreset.
  destruct (LocalStorage.getItem "highlightPresetName" storage) as [saved |]; [| reflexivity].
  rewrite (H saved eq_refl). destruct (String.eqb saved ""); reflexivity.
Qed.

End PresetChoice.

Section PresetChoiceWitness.
Import Presets.
Local Open Scope float_scope.
Local Open Scope string_scope.

Lemma preset_survives_reload_witness :
  let pink := mkPreset "Pink" "#F8BBD0" 0.5 12 "Emotional beats" in
  let '(_, _, stored) :=
    handleSelectPreset pink [("highlightPresetName", "Lavender"); ("highlightColor", "#E1BEE7")]
  in
  initialPreset stored = pink /\ initialColor stored (initialPreset stored) = color pink.
Proof.
  apply (@preset_survives_reload float _
           (mkPreset "Pink" "#F8BBD0" 0.5 12 "Emotional beats")
           [("highlightPresetName", "Lavender"); ("highlightColor", "#E1BEE7")]).
  vm_compute. tauto.
Defined.

End PresetChoiceWitness.

(** ** The repository *)

Section TableFacts.
Variables (A : Type) (key : A -> string).

Let keyOf (r : Repo.Row A) : string := key (Repo.payload r).

Lemma In_upsert_inv (r x : Repo.Row A) (rows : list (Repo.Row A)) :
  In x (Repo.upsert key r rows) -> x = r \/ In x rows.
Proof.
  induction rows as [| r' rest IH]; cbn [Repo.upsert].
  - intros [H | []]. left. symmetry. exact H.
  - destruct (String.eqb _ _).
    + intros [H | H]; [left; symmetry; exact H | right; right; exact H].
    + intros [H | H]; [right; left; exact H |].
      destruct (IH H) as [E | E]; [left; exact E | right; right; exact E].
Qed.

Lemma In_upsert_other (r x : Repo.Row A) (rows : list (Repo.Row A)) :
  In x rows -> keyOf x <> keyOf r -> In x (Repo.upsert key r rows).
Proof.
  intros Hin Hk. induction rows as [| r' rest IH]; [contradiction |].
  cbn [Repo.upsert]. destruct (String.eqb _ _) eqn:E.
  - apply String.eqb_eq in E. destruct Hin as [H | H]; [| right; exact H].
    subst x. contradiction.
  - destruct Hin as [H | H]; [left; exact H | right; apply IH; exact H].
Qed.

Lemma In_keys_upsert (r : Repo.Row A) (rows : list (Repo.Row A)) (k : string) :
  In k (map keyOf (Repo.upsert key r rows)) -> k = keyOf r \/ In k (map keyOf rows).
Proof.
  rewrite !in_map_iff. intros [x [Hk Hin]].
  destruct (In_upsert_inv _ _ _ Hin) as [E | E].
  - left. subst x. symmetry. exact Hk.
  - right. exists x. split; assumption.
Qed.

(* upsert keeps the primary key unique *)
Lemma NoDup_keys_upsert (r : Repo.Row A) (rows : list (Repo.Row A)) :
  NoDup (map keyOf rows) -> NoDup (map keyOf (Repo.upsert key r rows)).
Proof.
  induction rows as [| r' rest IH]; cbn [Repo.upsert map]; intro H.
  - repeat constructor. intros [].
  - inversion H as [| k ks Hnot Hrest]; subst.
    destruct (String.eqb _ _) eqn:E; cbn [map].
    + apply String.eqb_eq in E. constructor; [| exact Hrest].
      unfold keyOf at 1. rewrite <- E. exact Hnot.
    + constructor; [| apply IH; exact Hrest].
      intro Hin. apply In_keys_upsert in Hin. destruct Hin as [Hin | Hin].
      * apply String.eqb_neq in E. apply E. exact Hin.
      * apply Hnot. exact Hin.
Qed.

(* under a unique key, what upsert keeps of the old rows has another key *)
Lemma In_upsert_keyed (r x : Repo.Row A) (rows : list (Repo.Row A)) :
  NoDup (map keyOf rows) ->
  In x (Repo.upsert key r rows) -> x = r \/ (In x rows /\ keyOf x <> keyOf r).
Proof.
  induction rows as [| r' rest IH]; cbn [Repo.upsert map]; intros Hnd Hin.
  - destruct Hin as [H | []]. left. symmetry. exact H.
  - inversion Hnd as [| k ks Hnot Hrest]; subst.
    destruct (String.eqb _ _) eqn:E.
    + apply String.eqb_eq in E. destruct Hin as [H | H]; [left; symmetry; exact H |].
      right. split; [right; exact H |].
      intro Hk. apply Hnot. apply in_map_iff. exists x. split; [| exact H].
      unfold keyOf in *. congruence.
    + apply String.eqb_neq in E. destruct Hin as [H | H].
      * right. subst x. split; [left; reflexivity | exact E].
      * destruct (IH Hrest H) as [Hx | [Hx Hk]]; [left; exact Hx |].
        right. split; [right; exact Hx | exact Hk].
Qed.

Lemma NoDup_keys_filter (f : Repo.Row A -> bool) (rows : list (Repo.Row A)) :
  NoDup (map keyOf rows) -> NoDup (map keyOf (filter f rows)).
Proof.
  induction rows as [| r rest IH]; cbn [filter map]; intro H; [constructor |].
  inversion H as [| k ks Hnot Hrest]; subst.
  destruct (f r); cbn [map]; [| apply IH; exact Hrest].
  constructor; [| apply IH; exact Hrest].
  intro Hin. apply Hnot. apply in_map_iff in Hin. destruct Hin as [x [Hk Hx]].
  apply filter_In in Hx. apply in_map_iff. exists x. split; [exact Hk | apply Hx].
Qed.

(* two rows with the same key are the same row *)
Lemma keyed_row_unique (x y : Repo.Row A) (rows : list (Repo.Row A)) :
  NoDup (map keyOf rows) -> In x rows -> In y rows -> keyOf x = keyOf y -> x = y.
Proof.
  induction rows as [| r rest IH]; cbn [map]; intros Hnd Hx Hy Hk; [contradiction |].
  inversion Hnd as [| k ks Hnot Hrest]; subst.
  destruct Hx as [Hx | Hx], Hy as [Hy | Hy].
  - congruence.
  - subst x. exfalso. apply Hnot. rewrite Hk. apply in_map. exact Hy.
  - subst y. exfalso. apply Hnot. rewrite <- Hk. apply in_map. exact Hx.
  - apply IH; assumption.
Qed.

End TableFacts.

Section SortFacts.
Variables (A : Type) (rank : A -> Z).

Let leb (a b : A) : bool := (rank a <=? rank b)%Z.
Let le (a b : A) : Prop := (rank a <= rank b)%Z.

Lemma insert_by_Sorted (a : A) (l : list A) :
  Sorted le l -> Sorted le (Repo.insert_by leb a l).
Proof.
  induction l as [| b rest IH]; cbn [Repo.insert_by]; intro H.
  - repeat constructor.
  - unfold leb at 1. destruct (rank a <=? rank b)%Z eqn:E.
    + constructor; [exact H |]. constructor. apply Z.leb_le. exact E.
    + inversion H as [| x xs Hs Hh]; subst. constructor; [apply IH; exact Hs |].
      apply Z.leb_gt in E.
      destruct rest as [| c rest']; cbn [Repo.insert_by].
      * constructor. unfold le. lia.
      * unfold leb at 1. destruct (rank a <=? rank c)%Z.
        -- constructor. unfold le. lia.
        -- inversion Hh; subst. constructor. assumption.
Qed.

Lemma order_by_Sorted (l : list A) : Sorted le (Repo.order_by leb l).
Proof.
  unfold Repo.order_by. induction l as [| a rest IH]; cbn [fold_right]; [constructor |].
  apply insert_by_Sorted. exact IH.
Qed.

End SortFacts.

Lemma filter_filter_implied {A : Type} (f g : A -> bool) (l : list A) :
  (forall x, f x = true -> g x = true) -> filter f (filter g l) = filter f l.
Proof.
  intro H. induction l as [| a rest IH]; [reflexivity |]. cbn [filter].
  destruct (f a) eqn:Ef.
  - rewrite (H a Ef). cbn [filter]. rewrite Ef, IH. reflexivity.
  - destruct (g a); cbn [filter]; rewrite ?Ef; exact IH.
Qed.

Section EntriesTable.
Import Store.
Variable N : Type.

Lemma In_getEntriesForPage (scriptId : string) (pageNumber : Z) (userId : string)
  (db : Repo.DB N) (e : BlockingEntry.t N) :
  In e (Repo.getEntriesForPage scriptId pageNumber userId db) <->
  In (Repo.mkRow userId e) (Repo.blocking_entries db)
  /\ BlockingEntry.script_id e = scriptId
  /\ BlockingEntry.page_number e = pageNumber.
Proof.
  unfold Repo.getEntriesForPage. rewrite In_order_by, in_map_iff. split.
  - intros [[u e'] [He Hin]]. simpl in He. subst e'.
    apply filter_In in Hin. destruct Hin as [Hin Hf]. simpl in Hf.
    apply andb_true_iff in Hf. destruct Hf as [Hf Hu].
    apply andb_true_iff in Hf. destruct Hf as [Hs Hp].
    apply String.eqb_eq in Hs, Hu. apply Z.eqb_eq in Hp. subst u. auto.
  - intros (Hin & Hs & Hp). exists (Repo.mkRow userId e). split; [reflexivity |].
    apply filter_In. split; [exact Hin |]. simpl.
    rewrite Hs, Hp, !String.eqb_refl, Z.eqb_refl. reflexivity.
Qed.

(** X7. A saved cue is listed on its page, once and in the version saved:
    after saveBlockingEntry the listing of the cue's script and page for the
    saving user holds the cue, every listed cue with its id is that very
    cue, and the primary key stays unique. *)
Theorem saved_entry_is_listed (entry : BlockingEntry.t N) (userId : string)
  (db : Repo.DB N) :
  keyed db ->
  let db' := Repo.saveBlockingEntry entry userId db in
  let listing :=
    Repo.getEntriesForPage (BlockingEntry.script_id entry)
      (BlockingEntry.page_number entry) userId db' in
  In entry listing
  /\ (forall e, In e listing ->
                BlockingEntry.entry_id e = BlockingEntry.entry_id entry -> e = entry)
  /\ keyed db'.
Proof.
  intros [He Hm]. cbv zeta. split; [| split].
  - apply In_getEntriesForPage. split; [| split; reflexivity].
    unfold Repo.saveBlockingEntry. cbn [Repo.blocking_entries]. apply In_upsert_new.
  - intros e Hin Hid. apply In_getEntriesForPage in Hin. destruct Hin as [Hin _].
    unfold Repo.saveBlockingEntry in Hin. cbn [Repo.blocking_entries] in Hin.
    apply (In_upsert_keyed BlockingEntry.entry_id) in Hin; [| exact He].
    destruct Hin as [E | [_ Hk]]; [inversion E; reflexivity |].
    exfalso. apply Hk. exact Hid.
  - split; [| exact Hm]. unfold entryKeys, Repo.saveBlockingEntry.
    cbn [Repo.blocking_entries]. apply (NoDup_keys_upsert BlockingEntry.entry_id). exact He.
Qed.

(** X8. The listing of a page is in ascending order of index number, and
    holds only cues of the script and page asked for that were stored with
    the asking user's id. *)
Theorem listing_is_sorted_and_scoped (scriptId : string) (pageNumber : Z)
  (userId : string) (db : Repo.DB N) :
  let listing := Repo.getEntriesForPage scriptId pageNumber userId db in
  Sorted (fun a b => (BlockingEntry.index_number a <= BlockingEntry.index_number b)%Z)
    listing
  /\ Forall (fun e => BlockingEntry.script_id e = scriptId
                      /\ BlockingEntry.page_number e = pageNumber
                      /\ In (Repo.mkRow userId e) (Repo.blocking_entries db))
       listing.
Proof.
  cbv zeta. split.
  - unfold Repo.getEntriesForPage. apply (order_by_Sorted BlockingEntry.index_number).
  - apply Forall_forall. intros e Hin. apply In_getEntriesForPage in Hin. tauto.
Qed.

Lemma In_after_deleteBlockingEntry (entryId userId scriptId : string)
  (pageNumber : Z) (db : Repo.DB N) (e : BlockingEntry.t N) :
  In e (Repo.getEntriesForPage scriptId pageNumber userId
          (Repo.deleteBlockingEntry entryId userId db)) <->
  In e (Repo.getEntriesForPage scriptId pageNumber userId db)
  /\ BlockingEntry.entry_id e <> entryId.
Proof.
  rewrite !In_getEntriesForPage.
  unfold Repo.deleteBlockingEntry. cbn [Repo.blocking_entries].
  rewrite filter_In. cbn [Repo.payload Repo.user_id].
  rewrite String.eqb_refl, andb_true_r, negb_true_iff.
  split.
  - intros ([Hin Hne] & Hs & Hp). apply String.eqb_neq in Hne. tauto.
  - intros ((Hin & Hs & Hp) & Hne). apply String.eqb_neq in Hne. tauto.
Qed.

(** X9. deleteBlockingEntry removes the cue for the user who asks and for
    nobody else: afterwards no listing of that user holds a cue with the
    id, the user's other cues are listed as before, and every listing of
    any other user is unchanged (also when the id is one of that user's
    cues). *)
Theorem delete_entry_is_scoped (entryId userId : string) (db : Repo.DB N) :
  let db' := Repo.deleteBlockingEntry entryId userId db in
  (forall scriptId pageNumber e,
     In e (Repo.getEntriesForPage scriptId pageNumber userId db') <->
     In e (Repo.getEntriesForPage scriptId pageNumber userId db)
     /\ BlockingEntry.entry_id e <> entryId)
  /\ (forall other scriptId pageNumber,
        other <> userId ->
        Repo.getEntriesForPage scriptId pageNumber other db'
        = Repo.getEntriesForPage scriptId pageNumber other db)
  /\ Repo.highlight_marks db' = Repo.highlight_marks db.
Proof.
  cbv zeta. split; [| split; [| reflexivity]].
  - intros scriptId pageNumber e. apply In_after_deleteBlockingEntry.
  - intros other scriptId pageNumber Hne. unfold Repo.getEntriesForPage.
    do 2 f_equal. unfold Repo.deleteBlockingEntry. cbn [Repo.blocking_entries].
    apply filter_filter_implied. intros r Hr.
    apply andb_true_iff in Hr. destruct Hr as [_ Hu]. apply String.eqb_eq in Hu.
    apply negb_true_iff, andb_false_iff. right. apply String.eqb_neq. congruence.
Qed.

(** X10. saveBlockingEntry does not look at who owns the row it replaces:
    saving a cue under the id of a cue stored by another user takes that
    row over, user id included, and the other user's listings no longer
    hold a cue with that id. *)
Theorem save_takes_over_foreign_row (entry old : BlockingEntry.t N)
  (userId owner : string) (db : Repo.DB N) :
  keyed db ->
  In (Repo.mkRow owner old) (Repo.blocking_entries db) ->
  BlockingEntry.entry_id old = BlockingEntry.entry_id entry ->
  owner <> userId ->
  let db' := Repo.saveBlockingEntry entry userId db in
  In old (Repo.getEntriesForPage (BlockingEntry.script_id old)
            (BlockingEntry.page_number old) owner db)
  /\ (forall scriptId pageNumber e,
        In e (Repo.getEntriesForPage scriptId pageNumber owner db') ->
        BlockingEntry.entry_id e <> BlockingEntry.entry_id entry)
  /\ In entry (Repo.getEntriesForPage (BlockingEntry.script_id entry)
                 (BlockingEntry.page_number entry) userId db').
Proof.
  intros [He _] Hold Hid Hne. cbv zeta. split; [| split].
  - apply In_getEntriesForPage. auto.
  - intros scriptId pageNumber e Hin Hk.
    apply In_getEntriesForPage in Hin. destruct Hin as [Hin _].
    unfold Repo.saveBlockingEntry in Hin. cbn [Repo.blocking_entries] in Hin.
    apply (In_upsert_keyed BlockingEntry.entry_id) in Hin; [| exact He].
    destruct Hin as [E | [_ Hk']]; [| apply Hk'; exact Hk].
    inversion E. contradiction.
  - apply In_getEntriesForPage. split; [| split; reflexivity].
    unfold Repo.saveBlockingEntry. cbn [Repo.blocking_entries]. apply In_upsert_new.
Qed.

End EntriesTable.

Section EntriesTableWitness.
Import Stated Store.

Lemma saved_entry_is_listed_witness :
  let entry := entryAt "e1" 2 4 (1 # 2) (1 # 2) (1 # 10) (1 # 10) in
  let db' := Repo.saveBlockingEntry entry "user" storeWithMarker in
  let listing := Repo.getEntriesForPage "script" 2 "user" db' in
  In entry listing
  /\ (forall e, In e listing ->
                BlockingEntry.entry_id e = BlockingEntry.entry_id entry -> e = entry)
  /\ keyed db'.
Proof.
  apply (@saved_entry_is_listed Q
           (entryAt "e1" 2 4 (1 # 2) (1 # 2) (1 # 10) (1 # 10)) "user" storeWithMarker).
  split; cbn; repeat constructor. intros [].
Defined.

Lemma save_takes_over_foreign_row_witness :
  let entry := entryAt "e1" 7 1 (1 # 2) (1 # 2) (1 # 10) (1 # 10) in
  let db' := Repo.saveBlockingEntry entry "intruder" storeWithMarker in
  In markerOnPageTwo (Repo.getEntriesForPage "script" 2 "user" storeWithMarker)
  /\ (forall scriptId pageNumber e,
        In e (Repo.getEntriesForPage scriptId pageNumber "user" db') ->
        BlockingEntry.entry_id e <> "e1"%string)
  /\ In entry (Repo.getEntriesForPage "script" 7 "intruder" db').
Proof.
  apply (@save_takes_over_foreign_row Q
           (entryAt "e1" 7 1 (1 # 2) (1 # 2) (1 # 10) (1 # 10)) markerOnPageTwo
           "intruder" "user" storeWithMarker).
  - split; cbn; repeat constructor. intros [].
  - left. reflexivity.
  - reflexivity.
  - discriminate.
Defined.

End EntriesTableWitness.

(** ** Strokes: drawing, undoing and clearing *)

Section StrokeStore.
Import PDFViewer Stated Store.
Context {N : Type} {JS : JSNumber N} {JM : JSMath N}.

Lemma upsert_fresh {A : Type} (key : A -> string) (r : Repo.Row A)
  (rows : list (Repo.Row A)) :
  ~ In (key (Repo.payload r)) (map (fun x => key (Repo.payload x)) rows) ->
  Repo.upsert key r rows = rows ++ [r].
Proof.
  induction rows as [| r' rest IH]; cbn [Repo.upsert map app]; intro H; [reflexivity |].
  destruct (String.eqb _ _) eqn:E.
  - apply String.eqb_eq in E. exfalso. apply H. left. exact E.
  - rewrite IH; [reflexivity |]. intro Hin. apply H. right. exact Hin.
Qed.

Lemma delete_fresh_mark (mark : HighlightMark.t N) (userId : string) (db : Repo.DB N) :
  ~ In (HighlightMark.mark_id mark) (markKeys db) ->
  Repo.deleteHighlightMark (HighlightMark.mark_id mark) userId
    (Repo.saveHighlightMark mark userId db) = db.
Proof.
  intro H. destruct db as [entries marks].
  unfold Repo.deleteHighlightMark, Repo.saveHighlightMark, markKeys in *.
  cbn [Repo.blocking_entries Repo.highlight_marks] in *. f_equal.
  rewrite upsert_fresh by exact H.
  rewrite filter_app. cbn [filter Repo.payload Repo.user_id].
  rewrite !String.eqb_refl. cbn [andb negb]. rewrite app_nil_r.
  induction marks as [| r rest IH]; [reflexivity |]. cbn [filter map] in *.
  assert (E : String.eqb (HighlightMark.mark_id (Repo.payload r))
                (HighlightMark.mark_id mark) = false).
  { apply String.eqb_neq. intro E. apply H. left. exact E. }
  rewrite E. cbn [andb negb]. f_equal. apply IH. intro Hin. apply H. right. exact Hin.
Qed.

(** X11. Undo takes back the stroke just drawn and nothing else: when the
    id generated for the stroke is not yet a key of the table, drawing a
    stroke (press, move, release in draw mode) and then undoing leaves the
    store exactly as it was before the stroke, asks the repository to delete
    that one id, and puts the undo history back to what it was. *)
Theorem draw_then_undo_restores_store (markId now : string) (p q : Point N)
  (v : Viewer N) (db : Repo.DB N) :
  highlightMode v = draw ->
  ~ In markId (markKeys db) ->
  let '(v3, db3) := drawStroke markId now p q v db in
  let '(v4, db4, effects) := handleUndoHighlight v3 db3 in
  db4 = db
  /\ deletions effects = [markId]
  /\ highlightHistory v4 = highlightHistory v
  /\ highlights v4
     = Repo.getHighlightsForPage (scriptId v) (currentPage v) (userId v) db.
Proof.
  intros Hmode Hfresh. unfold drawStroke, handleMouseDown. rewrite Hmode.
  unfold handleMouseMove.
  cbn [highlightMode isDrawingHighlight setDrawingHighlight]. rewrite Hmode.
  unfold handleMouseUp.
  cbn [highlightMode isDrawingHighlight setDrawingHighlight currentPath app
       List.length Nat.ltb Nat.leb andb]. rewrite Hmode.
  cbn [andb Nat.ltb Nat.leb].
  cbn [scriptId currentPage userId highlightColor highlightThickness highlightOpacity
       canvasWidth canvasHeight highlightHistory].
  set (newMark := HighlightMark.mk markId _ _ _ _ _ _ _).
  erewrite undo_step;
    [| cbn [highlightHistory setDrawingHighlight setHighlights setHighlightHistory];
       reflexivity].
  cbn [scriptId currentPage userId setDrawingHighlight setHighlights setHighlightHistory
       highlightHistory highlights].
  assert (E : Repo.deleteHighlightMark markId (userId v)
                 (Repo.saveHighlightMark newMark (userId v) db) = db)
    by exact (@delete_fresh_mark newMark (userId v) db Hfresh).
  rewrite !E. repeat split; reflexivity.
Qed.

(** X12. A click in draw mode draws nothing: a press and a release
    without a move in between leave a path of one point, which is not
    saved; the store, the strokes on display and the undo history stay as
    they were, no server action is called and the drawing state is off
    again. *)
Theorem click_in_draw_mode_stores_nothing (x y : N) (markId now selectedText : string)
  (v : Viewer N) (db : Repo.DB N) :
  highlightMode v = draw ->
  isDrawing v = false ->
  let '(v1, db1, effects1) := handleMouseDown x y v db in
  let '(v2, db2, effects2) := handleMouseUp markId now selectedText v1 db1 in
  db2 = db /\ effects1 ++ effects2 = []
  /\ highlights v2 = highlights v
  /\ highlightHistory v2 = highlightHistory v
  /\ isDrawingHighlight v2 = false.
Proof.
  intros Hmode Hdrawing. unfold handleMouseDown. rewrite Hmode.
  unfold handleMouseUp.
  cbn [highlightMode isDrawingHighlight setDrawingHighlight currentPath
       List.length Nat.ltb Nat.leb andb isDrawing].
  rewrite Hmode, Hdrawing. cbn [andb]. repeat split; reflexivity.
Qed.

Lemma marks_after_deletes (userId : string) (marks : list (HighlightMark.t N))
  (db : Repo.DB N) :
  let db' :=
    fold_left (fun acc mark =>
                 Repo.deleteHighlightMark (HighlightMark.mark_id mark) userId acc)
              marks db in
  Repo.blocking_entries db' = Repo.blocking_entries db
  /\ forall r,
       In r (Repo.highlight_marks db') <->
       In r (Repo.highlight_marks db)
       /\ ~ (Repo.user_id r = userId
             /\ exists mark, In mark marks
                  /\ HighlightMark.mark_id mark = HighlightMark.mark_id (Repo.payload r)).
Proof.
  cbv zeta. revert db. induction marks as [| m rest IH]; intro db; cbn [fold_left].
  - split; [reflexivity |]. intro r. split; [| tauto].
    intro H. split; [exact H |]. intros [_ [mark [[] _]]].
  - destruct (IH (Repo.deleteHighlightMark (HighlightMark.mark_id m) userId db))
      as [He Hm].
    split; [rewrite He; reflexivity |].
    intro r. rewrite Hm. unfold Repo.deleteHighlightMark at 1.
    cbn [Repo.highlight_marks]. rewrite filter_In, negb_true_iff, andb_false_iff.
    rewrite !String.eqb_neq. split.
    + intros [[Hin Hne] Hnot]. split; [exact Hin |].
      intros [Hu [mark [[Hmk | Hmk] Hid]]].
      * subst mark. destruct Hne as [Hne | Hne]; [apply Hne; symmetry; exact Hid |].
        apply Hne. exact Hu.
      * apply Hnot. split; [exact Hu |]. exists mark. split; assumption.
    + intros [Hin Hnot]. split; [split; [exact Hin |] |].
      * destruct (String.eqb (Repo.user_id r) userId) eqn:Eu;
          [| right; apply String.eqb_neq; exact Eu].
        left. intro Hid. apply Hnot. apply String.eqb_eq in Eu. split; [exact Eu |].
        exists m. split; [left; reflexivity | symmetry; exact Hid].
      * intros [Hu [mark [Hmk Hid]]]. apply Hnot. split; [exact Hu |].
        exists mark. split; [right; exact Hmk | exact Hid].
Qed.

(** X13. Clear Page deletes the strokes of the page on display and no
    other row: when the viewer shows the strokes stored for its page and the
    primary key is unique, a confirmed handleClearAllHighlights leaves no
    stroke listed for the page, empties the undo history, keeps every stroke
    of another page, script or user, and does not touch the cues; when the
    confirmation is refused nothing changes. *)
Theorem clear_page_deletes_the_page_only (v : Viewer N) (db : Repo.DB N) :
  keyed db ->
  highlights v = Repo.getHighlightsForPage (scriptId v) (currentPage v) (userId v) db ->
  let '(v', db', effects) := handleClearAllHighlights true v db in
  highlights v' = [] /\ highlightHistory v' = []
  /\ deletions effects = map (@HighlightMark.mark_id N) (highlights v)
  /\ Repo.blocking_entries db' = Repo.blocking_entries db
  /\ (forall r,
        In r (Repo.highlight_marks db') <->
        In r (Repo.highlight_marks db)
        /\ ~ onPage (scriptId v) (currentPage v) (userId v) r)
  /\ handleClearAllHighlights false v db = (v, db, []).
Proof.
  intros [_ Hkeys] Hloaded. unfold handleClearAllHighlights. cbn [negb].
  destruct (marks_after_deletes (userId v) (highlights v) db) as [He Hm].
  cbv zeta in He, Hm.
  set (db' := fold_left _ (highlights v) db) in *.
  assert (Hrows : forall r,
             In r (Repo.highlight_marks db') <->
             In r (Repo.highlight_marks db)
             /\ ~ onPage (scriptId v) (currentPage v) (userId v) r).
  { intro r. rewrite Hm. split; intros [Hin Hnot]; (split; [exact Hin |]).
    - intros (Hs & Hp & Hu). apply Hnot. split; [exact Hu |].
      exists (Repo.payload r). split; [| reflexivity].
      rewrite Hloaded. apply In_getHighlightsForPage.
      split; [| split; assumption].
      destruct r as [u m]. cbn [Repo.user_id Repo.payload] in *. subst u. exact Hin.
    - intros [Hu [mark [Hmk Hid]]]. apply Hnot.
      rewrite Hloaded in Hmk. apply In_getHighlightsForPage in Hmk.
      destruct Hmk as (Hrow & Hs & Hp).
      assert (E : Repo.mkRow (userId v) mark = r).
      { apply (keyed_row_unique (@HighlightMark.mark_id N) _ _ _ Hkeys Hrow Hin).
        exact Hid. }
      subst r. repeat split; assumption. }
  cbn [highlights highlightHistory setHighlights setHighlightHistory].
  split; [| split; [reflexivity | split; [| split; [exact He | split; [exact Hrows | reflexivity]]]]].
  - destruct (Repo.getHighlightsForPage (scriptId v) (currentPage v) (userId v) db')
      as [| m rest] eqn:E; [reflexivity |].
    exfalso.
    assert (Hin : In m (Repo.getHighlightsForPage (scriptId v) (currentPage v) (userId v) db'))
      by (rewrite E; left; reflexivity).
    apply In_getHighlightsForPage in Hin. destruct Hin as (Hrow & Hs & Hp).
    apply Hrows in Hrow. destruct Hrow as [_ Hnot]. apply Hnot.
    repeat split; assumption.
  - clear. induction (highlights v) as [| m rest IH]; [reflexivity |].
    cbn [map app deletions]. rewrite <- IH. reflexivity.
Qed.

End StrokeStore.

Section StrokeStoreWitness.
Import PDFViewer Stated Store.
Local Open Scope float_scope.

Lemma draw_then_undo_restores_store_witness :
  let v := drawingViewer 800 1000 draw in
  let db := storeOf [diagonalSampled] in
  let '(v3, db3) :=
    drawStroke "m1" "2026-01-02T00:00:00.000Z" (mkPoint 100 100) (mkPoint 200 200) v db in
  let '(v4, db4, effects) := handleUndoHighlight v3 db3 in
  db4 = db
  /\ deletions effects = ["m1"%string]
  /\ highlightHistory v4 = highlightHistory v
  /\ highlights v4 = Repo.getHighlightsForPage "script" 1 "user" db.
Proof.
  apply draw_then_undo_restores_store
    with (markId := "m1"%string) (now := "2026-01-02T00:00:00.000Z"%string)
         (p := mkPoint 100 100) (q := mkPoint 200 200)
         (v := drawingViewer 800 1000 draw) (db := storeOf [diagonalSampled]).
  - reflexivity.
  - cbn. intros [H | []]. discriminate H.
Defined.

Lemma click_in_draw_mode_stores_nothing_witness :
  let v := drawingViewer 800 1000 draw in
  let db := storeOf [diagonalSampled] in
  let '(v1, db1, effects1) := handleMouseDown 100 100 v db in
  let '(v2, db2, effects2) := handleMouseUp "m1" "2026-01-02T00:00:00.000Z" "" v1 db1 in
  db2 = db /\ effects1 ++ effects2 = []
  /\ highlights v2 = highlights v
  /\ highlightHistory v2 = highlightHistory v
  /\ isDrawingHighlight v2 = false.
Proof.
  apply click_in_draw_mode_stores_nothing
    with (x := 100) (y := 100) (markId := "m1"%string)
         (now := "2026-01-02T00:00:00.000Z"%string) (selectedText := ""%string)
         (v := drawingViewer 800 1000 draw) (db := storeOf [diagonalSampled]);
    reflexivity.
Defined.

Lemma clear_page_deletes_the_page_only_witness :
  let v := eraseViewer [diagonalSampled] in
  let db := storeOf [diagonalSampled] in
  let '(v', db', effects) := handleClearAllHighlights true v db in
  highlights v' = [] /\ highlightHistory v' = []
  /\ deletions effects = map (@HighlightMark.mark_id float) (highlights v)
  /\ Repo.blocking_entries db' = Repo.blocking_entries db
  /\ (forall r,
        In r (Repo.highlight_marks db') <->
        In r (Repo.highlight_marks db) /\ ~ onPage "script" 1 "user" r)
  /\ handleClearAllHighlights false v db = (v, db, []).
Proof.
  apply clear_page_deletes_the_page_only
    with (v := eraseViewer [diagonalSampled]) (db := storeOf [diagonalSampled]).
  - split; cbn; repeat constructor. intros [].
  - vm_compute. reflexivity.
Defined.

End StrokeStoreWitness.

(** ** The cue dialogs: the suggested index, and the two Delete buttons *)

Section CueDialogs.
Import Store CueDeletion.
Variable N : Type.
Local Open Scope Z_scope.

Lemma fold_left_max_ge (l : list Z) :
  forall a, a <= fold_left Z.max l a /\ Forall (fun x => x <= fold_left Z.max l a) l.
Proof.
  induction l as [| b rest IH]; intro a; cbn [fold_left]; [split; [lia | constructor] |].
  destruct (IH (Z.max a b)) as [H1 H2]. split; [lia |].
  constructor; [lia | exact H2].
Qed.

Lemma suggestedIndex_above (s : BlockingPage.State N) :
  Forall (fun i => i < BlockingPage.suggestedIndex s) (BlockingPage.existingIndices s).
Proof.
  unfold BlockingPage.suggestedIndex, BlockingPage.existingIndices.
  destruct (BlockingPage.entries s) as [| e es]; [constructor |]. cbn [map].
  destruct (fold_left_max_ge (map (@BlockingEntry.index_number N) es)
              (BlockingEntry.index_number e)) as [H1 H2].
  constructor; [lia |]. eapply Forall_impl; [| exact H2]. cbv beta. intros; lia.
Qed.


(** X15. The Del button of a chart card never deletes: after the
    confirmation BlockingChart.handleDelete calls onDeleteEntry, which in
    BlockingPage only reloads the page, so the store is unchanged and the
    cue is listed again; only the selection is cleared when the card was the
    selected one. *)
Theorem chart_delete_never_deletes (entry : BlockingEntry.t N) (userId : string)
  (selectedEntryId : option string) (s : BlockingPage.State N) (db : Repo.DB N) :
  BlockingPage.user s = Some userId ->
  In entry (Repo.getEntriesForPage (BlockingPage.script_id s)
              (BlockingPage.currentPage s) userId db) ->
  let '(s', selected', db') :=
    deleteFromChart true (BlockingEntry.entry_id entry) selectedEntryId s db in
  db' = db
  /\ In entry (BlockingPage.entries s')
  /\ selected' = match selectedEntryId with
                 | Some selected =>
                     if String.eqb selected (BlockingEntry.entry_id entry)
                     then None else selectedEntryId
                 | None => None
                 end.
Proof.
  intros Hu Hin. unfold deleteFromChart, chartHandleDelete.
  destruct selectedEntryId as [selected |]; [destruct (String.eqb _ _) |];
    cbn [fold_left handleDeleteEntry]; unfold BlockingPage.loadEntries; rewrite Hu;
    cbn [BlockingPage.entries BlockingPage.setEntries]; auto.
Qed.

(** X16. The Delete button of the slide-out preview acts on the opposite
    answer: the guard of CuePreview.handleDelete returns when confirm() is
    true, so a confirmed delete changes nothing, and a refused one deletes
    the cue from the store, closes the preview and reloads the page without
    it. *)
Theorem preview_delete_runs_when_refused (entry : BlockingEntry.t N) (userId : string)
  (s : BlockingPage.State N) (db : Repo.DB N) :
  BlockingPage.user s = Some userId ->
  deleteFromPreview true entry userId s db = (s, db)
  /\ let '(s', db') := deleteFromPreview false entry userId s db in
     db' = Repo.deleteBlockingEntry (BlockingEntry.entry_id entry) userId db
     /\ BlockingPage.previewEntryId s' = None
     /\ Forall (fun e => BlockingEntry.entry_id e <> BlockingEntry.entry_id entry)
          (BlockingPage.entries s').
Proof.
  intro Hu. split; [reflexivity |].
  unfold deleteFromPreview, previewHandleDelete. cbn [negb fold_left].
  unfold handlePreviewUpdate, handleClosePreview, BlockingPage.loadEntries.
  cbn [BlockingPage.user]. rewrite Hu.
  cbn [BlockingPage.setEntries BlockingPage.previewEntryId BlockingPage.entries
       BlockingPage.script_id BlockingPage.currentPage].
  split; [reflexivity | split; [reflexivity |]].
  apply Forall_forall. intros e Hin.
  apply In_after_deleteBlockingEntry in Hin. tauto.
Qed.

End CueDialogs.

Section CueDialogsWitness.
Import Stated Store CueDeletion.
Local Open Scope Z_scope.


Lemma chart_delete_never_deletes_witness :
  let '(s', selected', db') :=
    deleteFromChart true "e1" (Some "e1"%string) (pageState 2) storeWithMarker in
  db' = storeWithMarker
  /\ In markerOnPageTwo (BlockingPage.entries s')
  /\ selected' = None.
Proof.
  apply (@chart_delete_never_deletes Q markerOnPageTwo "user" (Some "e1"%string)
           (pageState 2) storeWithMarker).
  - reflexivity.
  - left. reflexivity.
Defined.

Lemma preview_delete_runs_when_refused_witness :
  deleteFromPreview true markerOnPageTwo "user" (pageState 2) storeWithMarker
  = (pageState 2, storeWithMarker)
  /\ let '(s', db') :=
       deleteFromPreview false markerOnPageTwo "user" (pageState 2) storeWithMarker in
     db' = Repo.deleteBlockingEntry "e1" "user" storeWithMarker
     /\ BlockingPage.previewEntryId s' = None
     /\ Forall (fun e => BlockingEntry.entry_id e <> "e1"%string) (BlockingPage.entries s').
Proof.
  apply (@preview_delete_runs_when_refused Q markerOnPageTwo "user" (pageState 2)
           storeWithMarker).
  reflexivity.
Defined.

End CueDialogsWitness.

(** ** The selection rectangle, in exact arithmetic *)

Section SelectionRectangle.
Import PDFViewer Stated SelectionPreview.
Local Open Scope Q_scope.

Lemma Qmin_cases (a b : Q) : (a <= b /\ Qmin a b == a) \/ (b <= a /\ Qmin a b == b).
Proof.
  destruct (Q.min_spec a b) as [[H E] | [H E]]; [left | right]; split;
    try exact E; lra.
Qed.

Lemma Qmax_cases (a b : Q) : (a <= b /\ Qmax a b == b) \/ (b <= a /\ Qmax a b == a).
Proof.
  destruct (Q.max_spec a b) as [[H E] | [H E]]; [left | right]; split;
    try exact E; lra.
Qed.

Lemma Qdiv_le_1 (a w : Q) : 0 < w -> a <= w -> a / w <= 1.
Proof. intros Hw Ha. apply Qle_shift_div_r; [exact Hw | lra]. Qed.

Lemma Qdiv_nonneg (a w : Q) : 0 < w -> 0 <= a -> 0 <= a / w.
Proof. intros Hw Ha. apply Qle_shift_div_l; [exact Hw | lra]. Qed.





End SelectionRectangle.

(** ** Scripts: the table, the storage bucket and the home page *)

Section ScriptStore.
Import Scripts.
Local Open Scope string_scope.

Variable Blob : Type.
Variable publicUrl : string -> string.
Variable getTime : string -> Z.
Variable jsonBlob : Response Blob -> Blob.

Lemma filter_none {A : Type} (f : A -> bool) (l : list A) :
  (forall x, In x l -> f x = false) -> filter f l = [].
Proof.
  induction l as [| a rest IH]; intro H; [reflexivity |]. cbn [filter].
  rewrite (H a (or_introl eq_refl)). apply IH. intros x Hx. apply H. right. exact Hx.
Qed.

(* after an upsert the key selects the new row alone *)
Lemma filter_key_upsert {A : Type} (key : A -> string) (q : Repo.Row A -> bool)
  (r : Repo.Row A) (rows : list (Repo.Row A)) :
  NoDup (map (fun x => key (Repo.payload x)) rows) -> q r = true ->
  filter (fun x => String.eqb (key (Repo.payload x)) (key (Repo.payload r)) && q x)
         (Repo.upsert key r rows) = [r].
Proof.
  intros Hnd Hq. induction rows as [| r' rest IH]; cbn [Repo.upsert].
  - cbn [filter]. rewrite String.eqb_refl, Hq. reflexivity.
  - cbn [map] in Hnd. inversion Hnd as [| k ks Hnot Hrest]; subst.
    destruct (String.eqb (key (Repo.payload r')) (key (Repo.payload r))) eqn:E.
    + cbn [filter]. rewrite String.eqb_refl, Hq. cbn [andb]. f_equal.
      apply filter_none. intros x Hx.
      destruct (String.eqb (key (Repo.payload x)) (key (Repo.payload r))) eqn:Ex;
        [| reflexivity].
      exfalso. apply Hnot. apply String.eqb_eq in E, Ex. rewrite E, <- Ex.
      apply in_map_iff. exists x. split; [reflexivity | exact Hx].
    + cbn [filter]. rewrite E. cbn [andb]. apply IH. exact Hrest.
Qed.

(* a key of a keyed table selects at most its row *)
Lemma filter_key_keyed {A : Type} (key : A -> string) (q : Repo.Row A -> bool)
  (k : string) (r : Repo.Row A) (rows : list (Repo.Row A)) :
  NoDup (map (fun x => key (Repo.payload x)) rows) ->
  In r rows -> key (Repo.payload r) = k -> q r = true ->
  filter (fun x => String.eqb (key (Repo.payload x)) k && q x) rows = [r].
Proof.
  intros Hnd Hin Hk Hq. induction rows as [| r' rest IH]; [contradiction |].
  cbn [map] in Hnd. inversion Hnd as [| k' ks Hnot Hrest]; subst.
  cbn [filter]. destruct Hin as [E | Hin].
  - subst r'. rewrite String.eqb_refl, Hq. cbn [andb]. f_equal.
    apply filter_none. intros x Hx.
    destruct (String.eqb (key (Repo.payload x)) (key (Repo.payload r))) eqn:Ex;
      [| reflexivity].
    exfalso. apply Hnot. apply String.eqb_eq in Ex. rewrite <- Ex.
    apply in_map_iff. exists x. split; [reflexivity | exact Hx].
  - destruct (String.eqb (key (Repo.payload r')) (key (Repo.payload r))) eqn:E.
    + exfalso. apply Hnot. apply String.eqb_eq in E. rewrite E.
      apply in_map_iff. exists r. split; [reflexivity | exact Hin].
    + cbn [andb]. apply IH; assumption.
Qed.

Lemma download_upload (name : string) (file : Blob) (files : list (string * Blob)) :
  download name (upload name file files) = Some file.
Proof.
  unfold upload. cbn [download]. rewrite String.eqb_refl. reflexivity.
Qed.

Lemma download_remove (name : string) (files : list (string * Blob)) :
  download name (remove name files) = None.
Proof.
  unfold remove. induction files as [| [n f] rest IH]; [reflexivity |].
  cbn [filter fst]. destruct (String.eqb n name) eqn:E; cbn [negb]; [exact IH |].
  cbn [download]. rewrite E. exact IH.
Qed.

Lemma download_remove_other (name other : string) (files : list (string * Blob)) :
  other <> name -> download other (remove name files) = download other files.
Proof.
  intro Hne. unfold remove. induction files as [| [n f] rest IH]; [reflexivity |].
  cbn [filter fst]. destruct (String.eqb n name) eqn:E; cbn [negb download].
  - apply String.eqb_eq in E. subst n.
    destruct (String.eqb name other) eqn:E'; [| exact IH].
    apply String.eqb_eq in E'. congruence.
  - rewrite IH. reflexivity.
Qed.

Lemma signedIn_some (userId : string) : userId <> "" -> signedIn (Some userId) = Some userId.
Proof.
  intro H. unfold signedIn. destruct (String.eqb userId "") eqn:E; [| reflexivity].
  apply String.eqb_eq in E. contradiction.
Qed.

Lemma In_getAllScripts (s : Script) (userId : string) (b : Backend Blob) :
  In s (getAllScripts getTime userId b) <-> In (Repo.mkRow userId s) (scripts b).
Proof.
  unfold getAllScripts. rewrite In_order_by, in_map_iff. split.
  - intros [[u s'] [E Hin]]. cbn in E. subst s'. apply filter_In in Hin.
    destruct Hin as [Hin Hu]. cbn in Hu. apply String.eqb_eq in Hu. subst u. exact Hin.
  - intro Hin. exists (Repo.mkRow userId s). split; [reflexivity |].
    apply filter_In. split; [exact Hin |]. cbn. apply String.eqb_refl.
Qed.

Lemma getScriptMetadata_saveScript (script : Script) (userId : string)
  (b : Backend Blob) :
  keyed b ->
  getScriptMetadata (script_id script) userId (saveScript script userId b) = Some script.
Proof.
  intro Hk. unfold getScriptMetadata, saveScript. cbn [scripts].
  pose proof (@filter_key_upsert _ script_id
                (fun r => String.eqb (Repo.user_id r) userId)
                (Repo.mkRow userId script) (scripts b) Hk (String.eqb_refl userId)) as F.
  cbn [Repo.payload] in F. rewrite F. reflexivity.
Qed.

Lemma getScriptMetadata_row (row : Repo.Row Script) (b : Backend Blob) :
  keyed b -> In row (scripts b) ->
  getScriptMetadata (script_id (Repo.payload row)) (Repo.user_id row) b
  = Some (Repo.payload row).
Proof.
  intros Hk Hin. unfold getScriptMetadata.
  rewrite (@filter_key_keyed _ script_id
             (fun r => String.eqb (Repo.user_id r) (Repo.user_id row))
             (script_id (Repo.payload row)) row (scripts b) Hk Hin eq_refl
             (String.eqb_refl _)).
  reflexivity.
Qed.

Lemma getScriptMetadata_inv (scriptId userId : string) (b : Backend Blob) (s : Script) :
  getScriptMetadata scriptId userId b = Some s ->
  In (Repo.mkRow userId s) (scripts b) /\ script_id s = scriptId.
Proof.
  unfold getScriptMetadata.
  destruct (filter _ (scripts b)) as [| r [| r' rest]] eqn:E; try discriminate.
  intro H. injection H as H. subst s.
  assert (Hin : In r (filter (fun r => String.eqb (script_id (Repo.payload r)) scriptId
                                       && String.eqb (Repo.user_id r) userId)
                             (scripts b))) by (rewrite E; left; reflexivity).
  apply filter_In in Hin. destruct Hin as [Hin Hf].
  apply andb_true_iff in Hf. destruct Hf as [Hs Hu].
  apply String.eqb_eq in Hs, Hu. destruct r as [u s]. cbn in *. subst u. auto.
Qed.

Lemma getScriptMetadata_deleteScript (scriptId userId : string) (b : Backend Blob) :
  getScriptMetadata scriptId userId (deleteScript scriptId userId b) = None.
Proof.
  unfold getScriptMetadata, deleteScript. cbn [scripts].
  rewrite filter_none; [reflexivity |].
  intros x Hx. apply filter_In in Hx. destruct Hx as [_ Hx].
  apply negb_true_iff in Hx. exact Hx.
Qed.

Lemma keyed_saveScript (script : Script) (userId : string) (b : Backend Blob) :
  keyed b -> keyed (saveScript script userId b).
Proof.
  unfold keyed, saveScript. cbn [scripts].
  apply (@NoDup_keys_upsert _ script_id).
Qed.

(** X19. A signed-in user who creates a script is taken to the blocking view
    of that script: the PDF just uploaded is the one shown, the script is in
    the list, and the download route serves the same file under the title. *)
Theorem created_script_opens_with_its_pdf (userId title scriptId now : string)
  (pdfBlob : Blob) (totalPages : Z) (b : Backend Blob) (st : Home Blob) :
  userId <> "" -> scriptId <> "" -> keyed b ->
  let script :=
    mkScript scriptId title (publicUrl (fileName userId scriptId)) totalPages now in
  exists st' b',
    handleScriptCreated publicUrl getTime jsonBlob (Some userId) title pdfBlob
      totalPages scriptId now b st = (st', b', None)
    /\ view st' = BlockingView
    /\ currentScript st' = Some (script, pdfBlob)
    /\ In script (listed st')
    /\ getPdf (Some userId) scriptId b' = Pdf pdfBlob (title ++ ".pdf")
    /\ keyed b'.
Proof.
  intros Hu Hs Hk script.
  assert (Es : String.eqb scriptId "" = false).
  { destruct (String.eqb scriptId "") eqn:E; [| reflexivity].
    apply String.eqb_eq in E. contradiction. }
  set (b1 := mkBackend (scripts b) (upload (fileName userId scriptId) pdfBlob (pdfs b))).
  assert (Hk1 : keyed b1) by exact Hk.
  assert (M : getScriptMetadata scriptId userId (saveScript script userId b1)
              = Some script)
    by exact (@getScriptMetadata_saveScript script userId b1 Hk1).
  assert (P : getPdf (Some userId) scriptId (saveScript script userId b1)
              = Pdf pdfBlob (title ++ ".pdf")).
  { unfold getPdf. rewrite (signedIn_some Hu), M.
    unfold saveScript, b1. cbn [pdfs]. rewrite download_upload. reflexivity. }
  unfold handleScriptCreated, uploadPdf. rewrite (signedIn_some Hu), Es.
  fold b1. fold script. cbv zeta. rewrite M, P.
  eexists. eexists. split; [reflexivity |]. cbn [view currentScript listed loadScripts blobOf].
  repeat split.
  - apply In_order_by, In_getAllScripts. unfold saveScript. cbn [scripts].
    apply In_upsert_new.
  - exact P.
  - apply keyed_saveScript. exact Hk1.
Qed.

(** X20. The download route serves a PDF exactly to the owner: with script
    ids unique in the table, a request gets a PDF if and only if the caller is
    signed in, a row of the table has that script id and the caller's user id,
    and the bucket holds the file at the caller's path; the file served is
    that one, named after the row's title. *)
Theorem pdf_only_for_the_owner (auth : option string) (scriptId name : string)
  (blob : Blob) (b : Backend Blob) :
  keyed b ->
  getPdf auth scriptId b = Pdf blob name
  <-> exists userId row,
        auth = Some userId /\ userId <> ""
        /\ In row (scripts b)
        /\ Repo.user_id row = userId
        /\ script_id (Repo.payload row) = scriptId
        /\ download (fileName userId scriptId) (pdfs b) = Some blob
        /\ name = title (Repo.payload row) ++ ".pdf".
Proof.
  intro Hk. split.
  - unfold getPdf, signedIn. destruct auth as [userId |]; [| discriminate].
    destruct (String.eqb userId "") eqn:E; [discriminate |].
    destruct (getScriptMetadata scriptId userId b) as [s |] eqn:M; [| discriminate].
    destruct (download _ _) as [file |] eqn:D; [| discriminate].
    intro H. injection H as H1 H2. subst file name.
    apply getScriptMetadata_inv in M. destruct M as [Hin Hs].
    exists userId, (Repo.mkRow userId s). cbn [Repo.user_id Repo.payload].
    repeat split; try assumption.
    intro H. subst userId. discriminate.
  - intros (userId & row & Ha & Hu & Hin & Hr & Hs & D & Hn). subst auth name.
    unfold getPdf. rewrite (signedIn_some Hu). subst userId scriptId.
    rewrite (@getScriptMetadata_row row b Hk Hin), D. reflexivity.
Qed.

(** X21. A confirmed deletion removes the script for its owner and for nobody
    else: afterwards the owner has no metadata and no stored file for it, the
    list does not show it, the download route answers Script not found and
    opening a stale list entry alerts; every other script, file and user's
    listing is as before. *)
Theorem deleted_script_is_gone (userId scriptId : string) (b : Backend Blob)
  (st : Home Blob) :
  userId <> "" ->
  let st' := fst (handleDeleteScript getTime (Some userId) true scriptId b st) in
  let b' := snd (handleDeleteScript getTime (Some userId) true scriptId b st) in
  getScriptMetadata scriptId userId b' = None
  /\ download (fileName userId scriptId) (pdfs b') = None
  /\ (forall s, In s (listed st') -> script_id s <> scriptId)
  /\ getPdf (Some userId) scriptId b' = ScriptNotFound Blob
  /\ (forall stale, script_id stale = scriptId ->
        snd (handleOpenScript getTime jsonBlob (Some userId) stale b' st')
        = Some ScriptNotFoundAlert)
  /\ (forall row, In row (scripts b) ->
        script_id (Repo.payload row) <> scriptId \/ Repo.user_id row <> userId ->
        In row (scripts b'))
  /\ (forall other, other <> fileName userId scriptId ->
        download other (pdfs b') = download other (pdfs b))
  /\ (forall otherUser, otherUser <> userId ->
        getAllScripts getTime otherUser b' = getAllScripts getTime otherUser b).
Proof.
  intros Hu st' b'. unfold st', b', handleDeleteScript. cbn [fst snd].
  pose proof (getScriptMetadata_deleteScript scriptId userId b) as M.
  repeat split.
  - exact M.
  - unfold deleteScript. cbn [pdfs]. apply download_remove.
  - intros s Hin Hs. unfold loadScripts in Hin. cbn [listed] in Hin.
    apply In_order_by, In_getAllScripts in Hin.
    unfold deleteScript in Hin. cbn [scripts] in Hin.
    apply filter_In in Hin. destruct Hin as [_ Hf]. cbn in Hf.
    rewrite Hs, !String.eqb_refl in Hf. discriminate.
  - unfold getPdf. rewrite (signedIn_some Hu), M. reflexivity.
  - intros stale Hs. unfold handleOpenScript. rewrite Hs, M. reflexivity.
  - intros row Hin Hne. unfold deleteScript. cbn [scripts]. apply filter_In.
    split; [exact Hin |]. apply negb_true_iff, andb_false_iff.
    destruct Hne as [H | H]; [left | right];
      (destruct (String.eqb _ _) eqn:E; [| reflexivity]);
      apply String.eqb_eq in E; contradiction.
  - intros other Hne. unfold deleteScript. cbn [pdfs].
    apply download_remove_other. exact Hne.
  - intros otherUser Hne. unfold getAllScripts, deleteScript. cbn [scripts].
    rewrite filter_filter_implied; [reflexivity |].
    intros x Hx. apply String.eqb_eq in Hx. apply negb_true_iff, andb_false_iff.
    right. destruct (String.eqb _ _) eqn:E; [| reflexivity].
    apply String.eqb_eq in E. congruence.
Qed.

Lemma order_by_Sorted_total {A : Type} (leb : A -> A -> bool) (le : A -> A -> Prop) :
  (forall a b, leb a b = true -> le a b) ->
  (forall a b, leb a b = false -> le b a) ->
  forall l, Sorted le (Repo.order_by leb l).
Proof.
  intros Ht Hf.
  assert (I : forall a l, Sorted le l -> Sorted le (Repo.insert_by leb a l)).
  { intros a l. induction l as [| c rest IH]; cbn [Repo.insert_by]; intro H.
    - repeat constructor.
    - destruct (leb a c) eqn:E.
      + constructor; [exact H |]. constructor. apply Ht. exact E.
      + inversion H as [| x xs Hs Hh]; subst. constructor; [apply IH; exact Hs |].
        destruct rest as [| d rest']; cbn [Repo.insert_by].
        * constructor. apply Hf. exact E.
        * destruct (leb a d).
          -- constructor. apply Hf. exact E.
          -- inversion Hh; subst. constructor. assumption. }
  intro l. unfold Repo.order_by.
  induction l as [| a rest IH]; cbn [fold_right]; [constructor |].
  apply I. exact IH.
Qed.

(** X22. The list of the home page holds exactly the scripts stored with the
    signed-in user's id, each script of another user being absent, and shows
    them from the latest creation time to the earliest. *)
Theorem list_shows_own_scripts_latest_first (userId : string) (b : Backend Blob)
  (st : Home Blob) :
  let shown := listed (loadScripts getTime (Some userId) b st) in
  (forall s, In s shown <-> In (Repo.mkRow userId s) (scripts b))
  /\ Sorted (fun earlier later =>
               (getTime (created_at later) <= getTime (created_at earlier))%Z)
       shown.
Proof.
  cbv zeta. unfold loadScripts. cbn [listed]. split.
  - intro s. rewrite In_order_by. apply In_getAllScripts.
  - apply order_by_Sorted_total; unfold laterFirst; intros x y E.
    + apply Z.leb_le. exact E.
    + apply Z.leb_gt in E. lia.
Qed.

(** X23. Opening a script of the list shows what the server holds, not the
    copy in the list: for the owner of a row with the script id of the list
    entry, the blocking view opens on the row's metadata with the file stored
    at the owner's path; when the bucket has no such file nothing changes and
    the failure alert is shown. *)
Theorem open_shows_the_stored_script (userId : string) (listedCopy : Script)
  (row : Repo.Row Script) (b : Backend Blob) (st : Home Blob) :
  keyed b -> userId <> "" ->
  In row (scripts b) -> Repo.user_id row = userId ->
  script_id listedCopy = script_id (Repo.payload row) ->
  handleOpenScript getTime jsonBlob (Some userId) listedCopy b st
  = match download (fileName userId (script_id listedCopy)) (pdfs b) with
    | Some blob =>
        (mkHome BlockingView (listed st) (Some (Repo.payload row, blob)), None)
    | None => (st, Some FailedToOpenScript)
    end.
Proof.
  intros Hk Hu Hin Hr Hs. subst userId. unfold handleOpenScript, getPdf.
  rewrite (signedIn_some Hu), Hs, (@getScriptMetadata_row row b Hk Hin).
  destruct (download _ _); reflexivity.
Qed.

Lemma length_append (s t : string) :
  String.length (s ++ t) = (String.length s + String.length t)%nat.
Proof.
  induction s as [| c s IH]; cbn [String.append String.length]; [reflexivity |].
  rewrite IH. reflexivity.
Qed.

Lemma append_inj_r (s s' t : string) : s ++ t = s' ++ t -> s = s'.
Proof.
  revert s'. induction s as [| c s IH]; intros [| c' s'] H; cbn [String.append] in H.
  - reflexivity.
  - exfalso. apply (f_equal String.length) in H.
    cbn [String.length] in H. rewrite length_append in H. lia.
  - exfalso. apply (f_equal String.length) in H.
    cbn [String.length] in H. rewrite length_append in H. lia.
  - injection H as Hc H. subst c'. f_equal. apply IH. exact H.
Qed.

Lemma split_at_first_slash (u u' r r' : string) :
  noSlash u = true -> noSlash u' = true ->
  u ++ String "/" r = u' ++ String "/" r' -> u = u' /\ r = r'.
Proof.
  revert u'. induction u as [| c u IH]; intros [| c' u'] Hn Hn' H;
    cbn [String.append noSlash] in *.
  - injection H as H. auto.
  - injection H as Hc H. subst c'. discriminate.
  - injection H as Hc H. subst c. discriminate.
  - injection H as Hc H. subst c'.
    apply andb_true_iff in Hn, Hn'. destruct Hn as [_ Hn], Hn' as [_ Hn'].
    destruct (IH u' Hn Hn' H) as [E1 E2]. subst. auto.
Qed.

(** X24. No two scripts share a storage path: when user ids hold no slash,
    the path of the PDF in the bucket determines the user id and the script
    id. *)
Theorem storage_paths_are_separate (userId userId' scriptId scriptId' : string) :
  noSlash userId = true -> noSlash userId' = true ->
  fileName userId scriptId = fileName userId' scriptId' ->
  userId = userId' /\ scriptId = scriptId'.
Proof.
  intros Hn Hn' H. unfold fileName in H.
  change ("/" ++ scriptId ++ ".pdf") with (String "/" (scriptId ++ ".pdf")) in H.
  change ("/" ++ scriptId' ++ ".pdf") with (String "/" (scriptId' ++ ".pdf")) in H.
  destruct (split_at_first_slash _ _ _ _ Hn Hn' H) as [E1 E2].
  split; [exact E1 |]. apply append_inj_r with (t := ".pdf"). exact E2.
Qed.

End ScriptStore.

Section ScriptStoreWitness.
Import Scripts ScriptsExample.
Local Open Scope string_scope.

Lemma stored_keyed : keyed stored.
Proof.
  unfold keyed. cbn. repeat constructor; cbn; intuition discriminate.
Qed.

Lemma created_script_opens_with_its_pdf_witness :
  let script :=
    mkScript "s3" "Othello" (url (fileName "user_1" "s3")) 80 "2025-12-28T10:00:00.000Z" in
  exists st' b',
    handleScriptCreated url time body (Some "user_1") "Othello" "%PDF-othello"
      80 "s3" "2025-12-28T10:00:00.000Z" stored home = (st', b', None)
    /\ view st' = BlockingView
    /\ currentScript st' = Some (script, "%PDF-othello")
    /\ In script (listed st')
    /\ getPdf (Some "user_1") "s3" b' = Pdf "%PDF-othello" ("Othello" ++ ".pdf")
    /\ keyed b'.
Proof.
  apply created_script_opens_with_its_pdf;
    [discriminate | discriminate | exact stored_keyed].
Defined.

Lemma pdf_only_for_the_owner_witness :
  getPdf (Some "user_1") "s1" stored = Pdf "%PDF-hamlet" "Hamlet.pdf"
  <-> exists userId row,
        Some "user_1" = Some userId /\ userId <> ""
        /\ In row (scripts stored)
        /\ Repo.user_id row = userId
        /\ script_id (Repo.payload row) = "s1"
        /\ download (fileName userId "s1") (pdfs stored) = Some "%PDF-hamlet"
        /\ "Hamlet.pdf" = title (Repo.payload row) ++ ".pdf".
Proof.
  apply pdf_only_for_the_owner. exact stored_keyed.
Defined.

Lemma deleted_script_is_gone_witness :
  let st' := fst (handleDeleteScript time (Some "user_1") true "s1" stored home) in
  let b' := snd (handleDeleteScript time (Some "user_1") true "s1" stored home) in
  getScriptMetadata "s1" "user_1" b' = None
  /\ download (fileName "user_1" "s1") (pdfs b') = None
  /\ (forall s, In s (listed st') -> script_id s <> "s1")
  /\ getPdf (Some "user_1") "s1" b' = ScriptNotFound string
  /\ (forall stale, script_id stale = "s1" ->
        snd (handleOpenScript time body (Some "user_1") stale b' st')
        = Some ScriptNotFoundAlert)
  /\ (forall row, In row (scripts stored) ->
        script_id (Repo.payload row) <> "s1" \/ Repo.user_id row <> "user_1" ->
        In row (scripts b'))
  /\ (forall other, other <> fileName "user_1" "s1" ->
        download other (pdfs b') = download other (pdfs stored))
  /\ (forall otherUser, otherUser <> "user_1" ->
        getAllScripts time otherUser b' = getAllScripts time otherUser stored).
Proof.
  apply deleted_script_is_gone. discriminate.
Defined.

Lemma open_shows_the_stored_script_witness :
  handleOpenScript time body (Some "user_1")
    (mkScript "s1" "Hamlet (old title)" "" 0 "") stored home
  = match download (fileName "user_1" "s1") (pdfs stored) with
    | Some blob => (mkHome BlockingView (listed home) (Some (hamlet, blob)), None)
    | None => (home, Some FailedToOpenScript)
    end.
Proof.
  apply (@open_shows_the_stored_script string time body "user_1"
           (mkScript "s1" "Hamlet (old title)" "" 0 "") (Repo.mkRow "user_1" hamlet)
           stored home);
    [exact stored_keyed | discriminate | left; reflexivity | reflexivity | reflexivity].
Defined.

Lemma storage_paths_are_separate_witness :
  "user_1" = "user_1" /\ "s1" = "s1".
Proof.
  apply (@storage_paths_are_separate "user_1" "user_1" "s1" "s1"); reflexivity.
Defined.

End ScriptStoreWitness.

(** ** Index numbers stay distinct on a page *)

Section OrderByPermutation.
Variables (A : Type) (leb : A -> A -> bool).

Lemma insert_by_Permutation (a : A) (l : list A) :
  Permutation (Repo.insert_by leb a l) (a :: l).
Proof.
  induction l as [| b rest IH]; cbn [Repo.insert_by]; [reflexivity |].
  destruct (leb a b); [reflexivity |].
  rewrite IH. apply perm_swap.
Qed.

Lemma order_by_Permutation (l : list A) : Permutation (Repo.order_by leb l) l.
Proof.
  unfold Repo.order_by. induction l as [| a rest IH]; cbn [fold_right]; [reflexivity |].
  rewrite insert_by_Permutation. constructor. exact IH.
Qed.

End OrderByPermutation.

(* an upsert on a key in the table replaces the row where it stands *)
Lemma upsert_replaces {A : Type} (key : A -> string) (r old : Repo.Row A)
  (rows : list (Repo.Row A)) :
  NoDup (map (fun x => key (Repo.payload x)) rows) ->
  In old rows -> key (Repo.payload old) = key (Repo.payload r) ->
  exists l1 l2, rows = l1 ++ old :: l2 /\ Repo.upsert key r rows = l1 ++ r :: l2.
Proof.
  intros Hnd Hin Hk. induction rows as [| x rest IH]; [contradiction |].
  cbn [map] in Hnd. inversion Hnd as [| k ks Hnot Hrest]; subst.
  cbn [Repo.upsert].
  destruct (String.eqb (key (Repo.payload x)) (key (Repo.payload r))) eqn:E.
  - apply String.eqb_eq in E. destruct Hin as [Hx | Hin].
    + subst x. exists [], rest. split; reflexivity.
    + exfalso. apply Hnot. rewrite E, <- Hk. apply in_map_iff.
      exists old. split; [reflexivity | exact Hin].
  - destruct Hin as [Hx | Hin].
    + subst x. rewrite Hk, String.eqb_refl in E. discriminate.
    + destruct (IH Hrest Hin) as (l1 & l2 & E1 & E2).
      exists (x :: l1), l2. cbn [app]. rewrite <- E1, E2. split; reflexivity.
Qed.

Section IndexInvariant.
Import Store.
Variable N : Type.

Let onPageOf (scriptId : string) (pageNumber : Z) (userId : string)
  (r : Repo.Row (BlockingEntry.t N)) : bool :=
  String.eqb (BlockingEntry.script_id (Repo.payload r)) scriptId
  && (BlockingEntry.page_number (Repo.payload r) =? pageNumber)%Z
  && String.eqb (Repo.user_id r) userId.

(* the index numbers of a listing, up to the order *)
Lemma indices_of_listing (scriptId : string) (pageNumber : Z) (userId : string)
  (rows : list (Repo.Row (BlockingEntry.t N))) :
  Permutation
    (map BlockingEntry.index_number
       (Repo.getEntriesForPage scriptId pageNumber userId (Repo.mkDB rows [])))
    (map (fun r => BlockingEntry.index_number (Repo.payload r))
       (filter (onPageOf scriptId pageNumber userId) rows)).
Proof.
  unfold Repo.getEntriesForPage. cbn [Repo.blocking_entries].
  rewrite order_by_Permutation, map_map. reflexivity.
Qed.

Lemma getEntriesForPage_entries (scriptId : string) (pageNumber : Z) (userId : string)
  (db : Repo.DB N) :
  Repo.getEntriesForPage scriptId pageNumber userId db
  = Repo.getEntriesForPage scriptId pageNumber userId
      (Repo.mkDB (Repo.blocking_entries db) []).
Proof. reflexivity. Qed.

(** X25. Creating a cue through the dialog keeps the index numbers of the
    page pairwise distinct: with the page in step with the table, a selection
    made on the page on display and a fresh entry id, a refused save leaves
    the page and the table as they are, and an accepted one adds exactly the
    chosen index, which is at least 1, to the indices of the page. *)
Theorem new_cue_keeps_indices_distinct (entryId now blockingText : string)
  (indexNumber : Z) (annotationType : AnnotationType) (userId : string)
  (pending : BlockingPage.PendingSelection N)
  (s : BlockingPage.State N) (db : Repo.DB N) :
  BlockingPage.user s = Some userId ->
  BlockingPage.pendingSelection s = Some pending ->
  BlockingPage.pageNumber pending = BlockingPage.currentPage s ->
  BlockingPage.entries s
  = Repo.getEntriesForPage (BlockingPage.script_id s) (BlockingPage.currentPage s)
      userId db ->
  ~ In entryId (entryKeys db) ->
  NoDup (BlockingPage.existingIndices s) ->
  match BlockingPage.saveNewEntry entryId now blockingText indexNumber annotationType
          s db with
  | (Some _, s', db') => s' = s /\ db' = db
  | (None, s', db') =>
      (1 <= indexNumber)%Z
      /\ Permutation (BlockingPage.existingIndices s')
           (indexNumber :: BlockingPage.existingIndices s)
      /\ NoDup (BlockingPage.existingIndices s')
  end.
Proof.
  intros Hu Hp Hpage Hsync Hfresh Hnd.
  unfold BlockingPage.saveNewEntry, AddBlockingDialog.handleSave.
  destruct (trimIsEmpty blockingText); [split; reflexivity |].
  destruct (indexNumber <? 1)%Z eqn:E1; [split; reflexivity |].
  destruct (includes (BlockingPage.existingIndices s) indexNumber) eqn:E2;
    [split; reflexivity |].
  unfold BlockingPage.handleSaveNewEntry. rewrite Hp, Hu.
  unfold BlockingPage.loadEntries.
  cbn [BlockingPage.user BlockingPage.script_id BlockingPage.currentPage
       BlockingPage.setEntries BlockingPage.entries BlockingPage.pendingSelection
       BlockingPage.showAddDialog BlockingPage.previewEntryId].
  apply Z.ltb_ge in E1.
  assert (Hnew : ~ In indexNumber (BlockingPage.existingIndices s)).
  { intro H. apply includes_In in H. congruence. }
  assert (P : Permutation
                (BlockingPage.existingIndices
                   (BlockingPage.mkState (BlockingPage.script_id s) (Some userId)
                      (BlockingPage.currentPage s)
                      (Repo.getEntriesForPage (BlockingPage.script_id s)
                         (BlockingPage.currentPage s) userId
                         (Repo.saveBlockingEntry
                            (BlockingEntry.mk entryId (BlockingPage.script_id s)
                               (BlockingPage.pageNumber pending) indexNumber
                               (BlockingPage.selectionType pending)
                               (BlockingPage.selectionText pending)
                               (BlockingPage.selectionBox pending) blockingText
                               annotationType (getAnnotationColor (Some annotationType))
                               now now)
                            userId db))
                      None false (BlockingPage.previewEntryId s)))
                (indexNumber :: BlockingPage.existingIndices s)).
  { unfold BlockingPage.existingIndices at 1. cbn [BlockingPage.entries].
    unfold BlockingPage.existingIndices. rewrite Hsync.
    rewrite (getEntriesForPage_entries _ _ _ db).
    rewrite (getEntriesForPage_entries _ _ _ (Repo.saveBlockingEntry _ _ _)).
    rewrite !indices_of_listing.
    unfold Repo.saveBlockingEntry. cbn [Repo.blocking_entries].
    rewrite upsert_fresh by exact Hfresh.
    rewrite filter_app, map_app. cbn [filter].
    unfold onPageOf at 2. cbn [Repo.payload Repo.user_id BlockingEntry.script_id
                               BlockingEntry.page_number].
    rewrite Hpage, !String.eqb_refl, Z.eqb_refl. cbn [andb map].
    cbn [Repo.payload BlockingEntry.index_number].
    rewrite <- Permutation_cons_append. reflexivity. }
  split; [exact E1 |]. split; [exact P |].
  apply (Permutation_NoDup (Permutation_sym P)). constructor; assumption.
Qed.

(** X26. Editing a cue in the preview keeps the index numbers of the page
    pairwise distinct: with the page in step with a table whose entry ids
    are unique, a refused edit of a listed cue leaves the page and the table
    as they are, and an accepted one lists the edited cue with an index of at
    least 1, as many cues as before, and no index twice. *)
Theorem preview_edit_keeps_indices_distinct (entry : BlockingEntry.t N)
  (userId : string) (editIndex : Z) (editType : AnnotationType)
  (editText now : string) (s : BlockingPage.State N) (db : Repo.DB N) :
  BlockingPage.user s = Some userId ->
  BlockingPage.entries s
  = Repo.getEntriesForPage (BlockingPage.script_id s) (BlockingPage.currentPage s)
      userId db ->
  NoDup (entryKeys db) ->
  In entry (BlockingPage.entries s) ->
  NoDup (BlockingPage.existingIndices s) ->
  match BlockingPage.savePreviewEdit entry userId editIndex editType editText now s db
  with
  | (CuePreview.Alert _, s', db') => s' = s /\ db' = db
  | (CuePreview.Save updated, s', db') =>
      (1 <= editIndex)%Z
      /\ BlockingEntry.index_number updated = editIndex
      /\ In updated (BlockingPage.entries s')
      /\ List.length (BlockingPage.entries s') = List.length (BlockingPage.entries s)
      /\ NoDup (BlockingPage.existingIndices s')
  end.
Proof.
  intros Hu Hsync Hk Hin Hnd.
  unfold BlockingPage.savePreviewEdit, CuePreview.handleSave, CuePreview.validate.
  destruct (negb (editIndex =? BlockingEntry.index_number entry)%Z
            && includes (BlockingPage.existingIndices s) editIndex) eqn:D;
    [split; reflexivity |].
  destruct (editIndex <? 1)%Z eqn:E1; [split; reflexivity |].
  destruct (trimIsEmpty editText); [split; reflexivity |].
  apply Z.ltb_ge in E1.
  set (updated := CuePreview.updatedEntry entry editIndex editType editText now).
  unfold BlockingPage.loadEntries. rewrite Hu.
  cbn [BlockingPage.entries BlockingPage.setEntries].
  assert (Hrow : In (Repo.mkRow userId entry) (Repo.blocking_entries db)
                 /\ BlockingEntry.script_id entry = BlockingPage.script_id s
                 /\ BlockingEntry.page_number entry = BlockingPage.currentPage s).
  { rewrite Hsync in Hin. apply In_getEntriesForPage in Hin. exact Hin. }
  destruct Hrow as (Hrow & Hs & Hp).
  destruct (@upsert_replaces _ BlockingEntry.entry_id (Repo.mkRow userId updated)
              (Repo.mkRow userId entry) (Repo.blocking_entries db) Hk Hrow eq_refl)
    as (l1 & l2 & R1 & R2).
  assert (On : forall e, BlockingEntry.script_id e = BlockingPage.script_id s ->
                         BlockingEntry.page_number e = BlockingPage.currentPage s ->
                         onPageOf (BlockingPage.script_id s) (BlockingPage.currentPage s)
                           userId (Repo.mkRow userId e) = true).
  { intros e He1 He2. unfold onPageOf. cbn [Repo.payload Repo.user_id].
    rewrite He1, He2, !String.eqb_refl, Z.eqb_refl. reflexivity. }
  set (A := map (fun r => BlockingEntry.index_number (Repo.payload r))
              (filter (onPageOf (BlockingPage.script_id s) (BlockingPage.currentPage s)
                         userId) l1)).
  set (B := map (fun r => BlockingEntry.index_number (Repo.payload r))
              (filter (onPageOf (BlockingPage.script_id s) (BlockingPage.currentPage s)
                         userId) l2)).
  assert (P0 : Permutation (BlockingPage.existingIndices s)
                 (BlockingEntry.index_number entry :: A ++ B)).
  { unfold BlockingPage.existingIndices. rewrite Hsync.
    rewrite (getEntriesForPage_entries _ _ _ db), indices_of_listing, R1.
    rewrite filter_app. cbn [filter]. rewrite (On entry Hs Hp).
    rewrite map_app. cbn [map Repo.payload]. fold A B.
    symmetry. apply Permutation_middle. }
  set (db' := Repo.saveBlockingEntry updated userId db).
  assert (P1 : Permutation
                 (map BlockingEntry.index_number
                    (Repo.getEntriesForPage (BlockingPage.script_id s)
                       (BlockingPage.currentPage s) userId db'))
                 (editIndex :: A ++ B)).
  { rewrite (getEntriesForPage_entries _ _ _ db'), indices_of_listing.
    unfold db', Repo.saveBlockingEntry. cbn [Repo.blocking_entries]. rewrite R2.
    rewrite filter_app. cbn [filter]. rewrite (On updated Hs Hp).
    rewrite map_app. cbn [map Repo.payload]. fold A B.
    symmetry. apply Permutation_middle. }
  assert (Hnd0 : NoDup (BlockingEntry.index_number entry :: A ++ B))
    by exact (Permutation_NoDup P0 Hnd).
  inversion Hnd0 as [| i0 l0 Hnot0 HndAB]; subst.
  split; [exact E1 |]. split; [reflexivity |]. split; [| split].
  - apply In_getEntriesForPage. split; [| split; [exact Hs | exact Hp]].
    unfold db', Repo.saveBlockingEntry. cbn [Repo.blocking_entries].
    apply In_upsert_new.
  - rewrite <- (length_map BlockingEntry.index_number).
    rewrite <- (length_map BlockingEntry.index_number (BlockingPage.entries s)).
    rewrite (Permutation_length P1).
    change (map BlockingEntry.index_number (BlockingPage.entries s))
      with (BlockingPage.existingIndices s).
    rewrite (Permutation_length P0). reflexivity.
  - unfold BlockingPage.existingIndices. cbn [BlockingPage.entries].
    apply (Permutation_NoDup (Permutation_sym P1)).
    destruct (editIndex =? BlockingEntry.index_number entry)%Z eqn:E.
    + apply Z.eqb_eq in E. rewrite E. exact Hnd0.
    + cbn [negb andb] in D. constructor; [| exact HndAB].
      intro H. assert (In editIndex (BlockingPage.existingIndices s)).
      { apply (Permutation_in _ (Permutation_sym P0)). right. exact H. }
      apply includes_In in H0. congruence.
Qed.

End IndexInvariant.

Section IndexInvariantWitness.
Import Stated Store.
Local Open Scope string_scope.

Lemma new_cue_keeps_indices_distinct_witness :
  match BlockingPage.saveNewEntry "e2" "2026-01-02T00:00:00.000Z" "cue" 2 Blocking
          (pageState 2) storeWithMarker with
  | (Some _, s', db') => s' = pageState 2 /\ db' = storeWithMarker
  | (None, s', db') =>
      (1 <= 2)%Z
      /\ Permutation (BlockingPage.existingIndices s')
           (2%Z :: BlockingPage.existingIndices (pageState 2))
      /\ NoDup (BlockingPage.existingIndices s')
  end.
Proof.
  apply new_cue_keeps_indices_distinct
    with (userId := "user")
         (pending := BlockingPage.mkPending 2
                       (SelectionBox.mk (1 # 2) (1 # 2) (1 # 10) (1 # 10))%Q None SelText).
  - reflexivity.
  - reflexivity.
  - reflexivity.
  - reflexivity.
  - cbn. intros [H | []]. discriminate H.
  - cbn. repeat constructor. intros [].
Defined.

Lemma preview_edit_keeps_indices_distinct_witness :
  match BlockingPage.savePreviewEdit markerOnPageTwo "user" 3 MusicCue "enter left"
          "2026-01-02T00:00:00.000Z" (pageState 2) storeWithMarker with
  | (CuePreview.Alert _, s', db') => s' = pageState 2 /\ db' = storeWithMarker
  | (CuePreview.Save updated, s', db') =>
      (1 <= 3)%Z
      /\ BlockingEntry.index_number updated = 3%Z
      /\ In updated (BlockingPage.entries s')
      /\ List.length (BlockingPage.entries s')
         = List.length (BlockingPage.entries (pageState 2))
      /\ NoDup (BlockingPage.existingIndices s')
  end.
Proof.
  apply preview_edit_keeps_indices_distinct.
  - reflexivity.
  - reflexivity.
  - cbn. repeat constructor. intros [].
  - left. reflexivity.
  - cbn. repeat constructor. intros [].
Defined.

End IndexInvariantWitness.

(** ** The text under a selection *)

Section TextUnderSelection.
Import TextScan.
Local Open Scope string_scope.

Lemma fixed_eqb_eq (a b : Fixed) : fixed_eqb a b = true <-> a = b.
Proof.
  destruct a as [| s | s d n | s n], b as [| s' | s' d' n' | s' n']; cbn [fixed_eqb];
    try (split; [discriminate | discriminate]); try tauto.
  - rewrite Bool.eqb_true_iff. split; [intros -> | intros [= ->]]; reflexivity.
  - rewrite !andb_true_iff, Bool.eqb_true_iff, !Z.eqb_eq.
    split; [intros [[-> ->] ->] | intros [= -> -> ->]]; auto.
  - rewrite andb_true_iff, Bool.eqb_true_iff, Z.eqb_eq.
    split; [intros [-> ->] | intros [= -> ->]]; auto.
Qed.

Lemma posKey_eqb_eq (a b : PosKey) : posKey_eqb a b = true <-> a = b.
Proof.
  destruct a as [[ax ay] at'], b as [[bx by'] bt]. cbn [posKey_eqb].
  rewrite !andb_true_iff, !fixed_eqb_eq, String.eqb_eq.
  split; [intros [[-> ->] ->] | intros [= -> -> ->]]; auto.
Qed.

Lemma has_In (seenPositions : list PosKey) (k : PosKey) :
  has seenPositions k = true <-> In k seenPositions.
Proof.
  unfold has. rewrite existsb_exists. split.
  - intros [x [Hin Hx]]. apply posKey_eqb_eq in Hx. subst x. exact Hin.
  - intro Hin. exists k. split; [exact Hin |]. apply posKey_eqb_eq. reflexivity.
Qed.

Section Scanned.
Variables canvasLeft canvasTop x1 y1 x2 y2 : float.

Let scan := scan canvasLeft canvasTop x1 y1 x2 y2.
Let overlaps := overlaps canvasLeft canvasTop x1 y1 x2 y2.
Let posKey := posKey canvasLeft canvasTop.

Lemma scan_sound (textElements : list Element) (seen : list PosKey) (e : Element) :
  In e (scan textElements seen) ->
  In e textElements /\ overlaps e = true /\ trimIsEmpty (textContent e) = false
  /\ ~ In (posKey e) seen.
Proof.
  revert seen. induction textElements as [| x rest IH]; intros seen Hin; [contradiction |].
  unfold scan in Hin. cbn [TextScan.scan] in Hin. fold scan in Hin.
  destruct (TextScan.overlaps canvasLeft canvasTop x1 y1 x2 y2 x
            && (negb (trimIsEmpty (textContent x))
                && negb (has seen (TextScan.posKey canvasLeft canvasTop x)))) eqn:E.
  - apply andb_true_iff in E. destruct E as [Ho E].
    apply andb_true_iff in E. destruct E as [Ht Hs].
    apply negb_true_iff in Ht, Hs. destruct Hin as [Hx | Hin].
    + subst x. repeat split; [left; reflexivity | exact Ho | exact Ht |].
      intro H. apply has_In in H. unfold posKey in H. congruence.
    + destruct (IH _ Hin) as (H1 & H2 & H3 & H4).
      repeat split; [right; exact H1 | exact H2 | exact H3 |].
      intro H. apply H4. right. exact H.
  - destruct (IH _ Hin) as (H1 & H2 & H3 & H4).
    repeat split; [right; exact H1 | exact H2 | exact H3 | exact H4].
Qed.

Lemma scan_NoDup (textElements : list Element) (seen : list PosKey) :
  NoDup (map posKey (scan textElements seen)).
Proof.
  revert seen. induction textElements as [| x rest IH]; intro seen; [constructor |].
  unfold scan. cbn [TextScan.scan]. fold scan.
  destruct (TextScan.overlaps canvasLeft canvasTop x1 y1 x2 y2 x
            && (negb (trimIsEmpty (textContent x))
                && negb (has seen (TextScan.posKey canvasLeft canvasTop x)))).
  - cbn [map]. constructor; [| apply IH].
    intro H. apply in_map_iff in H. destruct H as [e [Hk Hin]].
    apply scan_sound in Hin. destruct Hin as (_ & _ & _ & Hnot).
    apply Hnot. left. symmetry. exact Hk.
  - apply IH.
Qed.

Lemma scan_complete (textElements : list Element) (seen : list PosKey) (e : Element) :
  In e textElements -> overlaps e = true -> trimIsEmpty (textContent e) = false ->
  In (posKey e) seen \/ In (posKey e) (map posKey (scan textElements seen)).
Proof.
  revert seen. induction textElements as [| x rest IH]; intros seen Hin Ho Ht;
    [contradiction |].
  unfold scan. cbn [TextScan.scan]. fold scan.
  destruct (TextScan.overlaps canvasLeft canvasTop x1 y1 x2 y2 x
            && (negb (trimIsEmpty (textContent x))
                && negb (has seen (TextScan.posKey canvasLeft canvasTop x)))) eqn:E.
  - destruct Hin as [Hx | Hin].
    + subst x. right. left. reflexivity.
    + destruct (IH (TextScan.posKey canvasLeft canvasTop x :: seen) Hin Ho Ht)
        as [[H | H] | H].
      * right. left. exact H.
      * left. exact H.
      * right. right. exact H.
  - destruct Hin as [Hx | Hin]; [| apply IH; assumption].
    subst x. left. apply has_In.
    unfold overlaps in Ho. rewrite Ho, Ht in E. cbn [andb negb] in E.
    apply negb_false_iff in E. exact E.
Qed.

End Scanned.

Lemma concat_nonempty (sep s : string) (rest : list string) :
  s <> "" -> String.concat sep (s :: rest) <> "".
Proof.
  intros Hs H. destruct s as [| c s]; [contradiction |].
  destruct rest; cbn in H; discriminate.
Qed.


End TextUnderSelection.

(** ** An edit on a card of the chart *)

Section ChartEdit.
Variable N : Type.


End ChartEdit.

Section ChartEditWitness.
Import Stated.
Local Open Scope string_scope.


End ChartEditWitness.
